(** * ingesta_mongo: export of MongoDB collections to NDJSON and upload to S3

    A shallow embedding of [src/ingesta.py] and the verification of its
    behavioural contracts.

    Modelling conventions.
    - A Python [str] is a Rocq [string]: the sequence of bytes of its UTF-8
      encoding, which is what reaches the output file.  The JSON encoder only
      rewrites code points below 0x80, so working on bytes or on code points
      gives the same file.
    - A decoded BSON document is a finite tree without sharing: a [dict] is an
      association list in insertion order (keys are unique in a real
      document), a [list] is a list.  The in-place update [doc[key] = ...] of
      [convert_objectid_to_str] therefore becomes a rebuild of the entry at
      the same position.
    - A BSON double is a Python [float]: not a number, an infinity, or a
      finite number.  A finite one is held as the decimal number
      [float.__repr__] writes for it (sign and digits of the integer part,
      digits of the fraction, exponent), the shortest one that reads back as
      that double: a double has one such decimal, which names it.  Every decoded
      Python object that [json.dumps] refuses (datetime, bytes, Decimal128,
      ...) is [VOther].
    - Effects are explicit: a state (local files, bucket contents, console
      log) is threaded through the program, and a computation ends in a
      normal return, a raised exception or [sys.exit].  The document store and
      the object storage service are oracles of the environment.  The two
      constructors [MongoClient(uri)] and [boto3.client] are taken to return:
      the statements that depend on it say that the run went past them.
    - The settings of the module are a function of the environment
      variables, of the clock and of the reading of [MONGO_PORT] by [int],
      which is an oracle too. *)

From Stdlib Require Import ZArith NArith String Ascii List Bool Lia.
From Stdlib Require Import DecimalString DecimalZ.
From stdpp Require Import base option list strings gmap.

Local Open Scope list_scope.
Local Open Scope string_scope.

(** ** Strings *)

Module Str.

(** Number of occurrences of the character [c] in [s] ([str.count]). *)
Fixpoint count (c : ascii) (s : string) : nat :=
  match s with
  | EmptyString => 0
  | String a s' => (if Ascii.eqb a c then 1 else 0) + count c s'
  end.

(** [n] copies of the character [c]. *)
Fixpoint replicate (n : nat) (c : ascii) : string :=
  match n with
  | O => EmptyString
  | S n' => String c (replicate n' c)
  end.

(** Python truthiness of a [str]: the empty string is false. *)
Definition truthy (s : string) : bool :=
  match s with EmptyString => false | String _ _ => true end.

(** Last character of a string, if any. *)
Fixpoint last (s : string) : option ascii :=
  match s with
  | EmptyString => None
  | String a EmptyString => Some a
  | String _ s' => last s'
  end.

(** Lower-case hexadecimal digit of a number below 16. *)
Definition hex_digit (n : N) : ascii :=
  if (n <? 10)%N then ascii_of_N (48 + n) else ascii_of_N (87 + n).

(** The two lower-case hexadecimal digits of a byte. *)
Definition hex_byte (a : ascii) : string :=
  let n := N_of_ascii a in
  String (hex_digit (n / 16)) (String (hex_digit (n mod 16)) EmptyString).

Fixpoint hex (s : string) : string :=
  match s with
  | EmptyString => EmptyString
  | String a s' => hex_byte a ++ hex s'
  end.

(** Every character of [s] satisfies [p]. *)
Fixpoint all (p : ascii -> bool) (s : string) : bool :=
  match s with
  | EmptyString => true
  | String a s' => p a && all p s'
  end.

(** Not below the space character: none of the codes 0 to 31, among which
    the line feed and the carriage return. *)
Definition not_c0 (a : ascii) : bool := (32 <=? N_of_ascii a)%N.

(** The lines of a text, split at each line feed (the line feed is not
    part of the line); a last piece without line feed is a line too. *)
Fixpoint lines (s : string) : list string :=
  match s with
  | EmptyString => []
  | String a s' =>
      if Ascii.eqb a "010" then EmptyString :: lines s'
      else
        match lines s' with
        | [] => [String a EmptyString]
        | l :: ls => String a l :: ls
        end
  end.

End Str.

(** ** Documents *)

(** [bson.ObjectId]: twelve bytes of binary data. *)
Record ObjectId : Type := mkObjectId { oid_binary : string }.

(** [str(oid)]: the 24-digit lower-case hexadecimal form. *)
Definition ObjectId_str (o : ObjectId) : string := Str.hex (oid_binary o).

(** A Python [float]: [Finite repr] is the finite double that
    [float.__repr__] writes as the decimal number [repr].  The decimals that
    [float.__repr__] can write have an integer part without leading zero and
    a fraction or an exponent; the others stand for no double. *)
Inductive double : Type :=
| NaN
| Infinity
| NegInfinity
| Finite (repr : Decimal.decimal).

(** The Python values a decoded document is made of. *)
#[local] Unset Elimination Schemes.
Inductive value : Type :=
| VNone
| VBool (b : bool)
| VInt (n : Z)
| VFloat (x : double)
| VStr (s : string)
| VObjectId (o : ObjectId)
| VOther (type_name : string)
| VDict (d : list (string * value))
| VList (l : list value).
#[local] Set Elimination Schemes.

Definition document : Type := list (string * value).

(** Induction on values that reaches through dicts and lists. *)
Section ValueInd.
Variable P : value -> Prop.
Hypothesis HNone : P VNone.
Hypothesis HBool : forall b, P (VBool b).
Hypothesis HInt : forall n, P (VInt n).
Hypothesis HFloat : forall x, P (VFloat x).
Hypothesis HStr : forall s, P (VStr s).
Hypothesis HObjectId : forall o, P (VObjectId o).
Hypothesis HOther : forall t, P (VOther t).
Hypothesis HDict : forall d, Forall (fun kv => P (snd kv)) d -> P (VDict d).
Hypothesis HList : forall l, Forall P l -> P (VList l).

Fixpoint value_tree_ind (v : value) : P v :=
  match v with
  | VNone => HNone
  | VBool b => HBool b
  | VInt n => HInt n
  | VFloat x => HFloat x
  | VStr s => HStr s
  | VObjectId o => HObjectId o
  | VOther t => HOther t
  | VDict d =>
      HDict d
        ((fix fields (d : list (string * value)) : Forall (fun kv => P (snd kv)) d :=
            match d with
            | [] => @List.Forall_nil _ _
            | kv :: d' => @List.Forall_cons _ _ kv d' (value_tree_ind (snd kv)) (fields d')
            end) d)
  | VList l =>
      HList l
        ((fix items (l : list value) : Forall P l :=
            match l with
            | [] => @List.Forall_nil _ _
            | x :: l' => @List.Forall_cons _ _ x l' (value_tree_ind x) (items l')
            end) l)
  end.
End ValueInd.

(** *** [convert_objectid_to_str] *)

(** The body of the loop [for key, value in doc.items()]: the value stored
    under [key] once the iteration is over.  The three branches are the
    [if]/[elif] chain of the source; a value matching none of them is left
    alone, and so is a list item that is not a dict. *)
Fixpoint convert_entry (v : value) : value :=
  match v with
  | VObjectId o => VStr (ObjectId_str o)
  | VDict d => VDict (map (fun kv => (fst kv, convert_entry (snd kv))) d)
  | VList l =>
      VList (map (fun item =>
                    match item with
                    | VDict d => VDict (map (fun kv => (fst kv, convert_entry (snd kv))) d)
                    | _ => item
                    end) l)
  | _ => v
  end.

Definition convert_objectid_to_str (doc : document) : document :=
  map (fun kv => (fst kv, convert_entry (snd kv))) doc.

(** The inner loop body [for item in value]. *)
Definition convert_item (item : value) : value :=
  match item with
  | VDict d => VDict (convert_objectid_to_str d)
  | _ => item
  end.

(** *** Predicates on value trees *)

(** Some [ObjectId] occurs somewhere in the tree. *)
Fixpoint has_objectid (v : value) : bool :=
  match v with
  | VObjectId _ => true
  | VDict d => existsb (fun kv => has_objectid (snd kv)) d
  | VList l => existsb has_objectid l
  | _ => false
  end.

Definition is_mapping (v : value) : bool :=
  match v with VDict _ => true | _ => false end.
Definition is_sequence (v : value) : bool :=
  match v with VList _ => true | _ => false end.
Definition is_identifier (v : value) : bool :=
  match v with VObjectId _ => true | _ => false end.

(** [changed_only_at_ids v v']: the trees [v] and [v'] have the same shape,
    the same keys in the same order and the same leaves, except that where
    [v] holds an identifier [v'] may hold that identifier's string. *)
#[local] Unset Elimination Schemes.
Inductive changed_only_at_ids : value -> value -> Prop :=
| coi_none : changed_only_at_ids VNone VNone
| coi_bool b : changed_only_at_ids (VBool b) (VBool b)
| coi_int n : changed_only_at_ids (VInt n) (VInt n)
| coi_float x : changed_only_at_ids (VFloat x) (VFloat x)
| coi_str s : changed_only_at_ids (VStr s) (VStr s)
| coi_other t : changed_only_at_ids (VOther t) (VOther t)
| coi_id_kept o : changed_only_at_ids (VObjectId o) (VObjectId o)
| coi_id_str o : changed_only_at_ids (VObjectId o) (VStr (ObjectId_str o))
| coi_dict d d' :
    Forall2 (fun kv kv' => fst kv = fst kv' /\ changed_only_at_ids (snd kv) (snd kv')) d d' ->
    changed_only_at_ids (VDict d) (VDict d')
| coi_list l l' :
    Forall2 changed_only_at_ids l l' ->
    changed_only_at_ids (VList l) (VList l').
#[local] Set Elimination Schemes.

(** ** Paths and text helpers of the Python library *)

Module Py.

(** [str(n)] for an [int]. *)
Definition int_str (n : Z) : string := NilEmpty.string_of_int (Z.to_int n).

(** The fraction of a decimal text: nothing, or a point and digits. *)
Definition fraction_str (f : Decimal.uint) : string :=
  match f with
  | Decimal.Nil => EmptyString
  | _ => "." ++ NilEmpty.string_of_uint f
  end.

(** The exponent of a decimal text: its sign, always, and its digits. *)
Definition exponent_str (e : Decimal.int) : string :=
  match e with
  | Decimal.Pos u => "+" ++ NilEmpty.string_of_uint u
  | Decimal.Neg u => "-" ++ NilEmpty.string_of_uint u
  end.

(** [float.__repr__] of a finite float, from its decimal number: the
    integer part, a point and the fraction ([12.5], [-0.0]), or with an
    exponent the integer part, the fraction if there is one, [e], the sign
    of the exponent and its digits ([1e+16], [1.5e-07]). *)
Definition float_repr (d : Decimal.decimal) : string :=
  match d with
  | Decimal.Decimal i f =>
      NilEmpty.string_of_int i ++ "." ++ NilEmpty.string_of_uint f
  | Decimal.DecimalExp i f e =>
      NilEmpty.string_of_int i ++ fraction_str f ++ "e" ++ exponent_str e
  end.

(** [s.rfind(c)]: index of the last occurrence of [c], or [-1].  [i] is
    the index of the head of [s] and [found] the best index so far. *)
Fixpoint rfind_from (c : ascii) (s : string) (i found : Z) : Z :=
  match s with
  | EmptyString => found
  | String a s' => rfind_from c s' (i + 1) (if Ascii.eqb a c then i else found)
  end.

Definition rfind (c : ascii) (s : string) : Z := rfind_from c s 0 (-1).

(** [s[n:]]. *)
Fixpoint drop (n : nat) (s : string) : string :=
  match n, s with
  | O, _ => s
  | S n', EmptyString => EmptyString
  | S n', String _ s' => drop n' s'
  end.

(** [s.rstrip(c)] for a single character [c]. *)
Fixpoint rstrip (c : ascii) (s : string) : string :=
  match s with
  | EmptyString => EmptyString
  | String a s' =>
      match rstrip c s' with
      | EmptyString => if Ascii.eqb a c then EmptyString else String a EmptyString
      | r => String a r
      end
  end.

Definition startswith (c : ascii) (s : string) : bool :=
  match s with
  | String a _ => Ascii.eqb a c
  | EmptyString => false
  end.

Definition endswith (c : ascii) (s : string) : bool :=
  match Str.last s with
  | Some a => Ascii.eqb a c
  | None => false
  end.

(** [posixpath.basename]: [i = p.rfind('/') + 1; return p[i:]]. *)
Definition basename (p : string) : string :=
  let i := (rfind "/" p + 1)%Z in
  drop (Z.to_nat i) p.

(** [posixpath.join(a, b)]. *)
Definition join (a b : string) : string :=
  if startswith "/" b then b
  else if negb (Str.truthy a) || endswith "/" a then a ++ b
  else a ++ "/" ++ b.

(** [s.split(c)] for a one-character separator: the pieces between
    successive separators, the empty ones included. *)
Fixpoint split (c : ascii) (s : string) : list string :=
  match s with
  | EmptyString => [EmptyString]
  | String a s' =>
      if Ascii.eqb a c then EmptyString :: split c s'
      else match split c s' with
           | p :: ps => String a p :: ps
           | [] => [String a EmptyString]
           end
  end.

(** The string of these byte values. *)
Definition bytes (l : list nat) : string :=
  fold_right (fun n s => String (ascii_of_nat n) s) EmptyString l.

(** The code points [str.isspace] accepts, each in UTF-8: U+0009 to U+000D,
    U+001C to U+0020, U+0085, U+00A0, U+1680, U+2000 to U+200A, U+2028,
    U+2029, U+202F, U+205F and U+3000. *)
Definition whitespace : list string :=
  map bytes
    [[9]; [10]; [11]; [12]; [13]; [28]; [29]; [30]; [31]; [32];
     [194; 133]; [194; 160]; [225; 154; 128];
     [226; 128; 128]; [226; 128; 129]; [226; 128; 130]; [226; 128; 131];
     [226; 128; 132]; [226; 128; 133]; [226; 128; 134]; [226; 128; 135];
     [226; 128; 136]; [226; 128; 137]; [226; 128; 138];
     [226; 128; 168]; [226; 128; 169]; [226; 128; 175];
     [226; 129; 159]; [227; 128; 128]].

(** [s] without its prefix [t], when it starts with [t]. *)
Fixpoint removeprefix (t s : string) : option string :=
  match t, s with
  | EmptyString, _ => Some s
  | String a t', String b s' => if Ascii.eqb a b then removeprefix t' s' else None
  | String _ _, EmptyString => None
  end.

(** [s] without the first of [ts] it starts with. *)
Fixpoint remove_first (ts : list string) (s : string) : option string :=
  match ts with
  | [] => None
  | t :: ts' =>
      match removeprefix t s with
      | Some r => Some r
      | None => remove_first ts' s
      end
  end.

(** Removes leading members of [ts], at most [n] of them. *)
Fixpoint lstrip_fuel (ts : list string) (n : nat) (s : string) : string :=
  match n with
  | O => s
  | S n' =>
      match remove_first ts s with
      | Some r => lstrip_fuel ts n' r
      | None => s
      end
  end.

(** Removes the leading members of [ts]; a member is at least one byte
    long, so the length of [s] bounds their number. *)
Definition lstrip_of (ts : list string) (s : string) : string :=
  lstrip_fuel ts (String.length s) s.

(** The string read backwards. *)
Fixpoint rev (s : string) : string :=
  match s with
  | EmptyString => EmptyString
  | String a s' => rev s' ++ String a EmptyString
  end.

(** Removes the trailing members of [ts]. *)
Definition rstrip_of (ts : list string) (s : string) : string :=
  rev (lstrip_of (map rev ts) (rev s)).

(** [s.strip()]: without leading and trailing whitespace. *)
Definition strip (s : string) : string :=
  rstrip_of whitespace (lstrip_of whitespace s).

End Py.

(** ** The JSON encoder

    [json.dumps(obj, ensure_ascii=False)] of the Python library, on the
    values of the model: default separators [", "] and [": "], no
    indentation, keys in insertion order, and a [TypeError] on the first
    object, in traversal order, that is neither a dict, a list, a string, an
    int, a float, a bool nor [None].  [allow_nan] has its default, so a
    float that is not finite is written, as [NaN], [Infinity] or
    [-Infinity]. *)

Module Json.

Inductive encoded : Type :=
| Text (s : string)
| NotSerializable (type_name : string).

Definition and_then (e : encoded) (k : string -> encoded) : encoded :=
  match e with
  | Text s => k s
  | NotSerializable t => NotSerializable t
  end.

(** The double quote character. *)
Definition dquote : ascii := "034"%char.

(** One character of a string literal ([ESCAPE_DCT] of json.encoder). *)
Definition escape_char (a : ascii) : string :=
  if Ascii.eqb a dquote then String "\" (String dquote EmptyString)
  else if Ascii.eqb a "\" then "\\"
  else if Ascii.eqb a "010" then "\n"
  else if Ascii.eqb a "013" then "\r"
  else if Ascii.eqb a "009" then "\t"
  else if Ascii.eqb a "008" then "\b"
  else if Ascii.eqb a "012" then "\f"
  else if (N_of_ascii a <? 32)%N then "\u00" ++ Str.hex_byte a
  else String a EmptyString.

Fixpoint escape (s : string) : string :=
  match s with
  | EmptyString => EmptyString
  | String a s' => escape_char a ++ escape s'
  end.

(** [encode_basestring]: the quoted, escaped literal. *)
Definition encode_basestring (s : string) : string :=
  String dquote (escape s ++ String dquote EmptyString).

Section Parts.
Context {A : Type} (enc : A -> encoded).

(** The chunks of the elements of a container, up to the first one that
    cannot be encoded. *)
Fixpoint parts (l : list A) : list string + string :=
  match l with
  | [] => inl []
  | x :: l' =>
      match enc x with
      | NotSerializable t => inr t
      | Text s =>
          match parts l' with
          | inl ss => inl (s :: ss)
          | inr t => inr t
          end
      end
  end.
End Parts.

Definition bracket (open close : string) (ps : list string + string) : encoded :=
  match ps with
  | inl ss => Text (open ++ String.concat ", " ss ++ close)
  | inr t => NotSerializable t
  end.

(** [floatstr] of json.encoder. *)
Definition floatstr (x : double) : string :=
  match x with
  | NaN => "NaN"
  | Infinity => "Infinity"
  | NegInfinity => "-Infinity"
  | Finite repr => Py.float_repr repr
  end.

Fixpoint encode (o : value) : encoded :=
  match o with
  | VNone => Text "null"
  | VBool true => Text "true"
  | VBool false => Text "false"
  | VInt n => Text (Py.int_str n)
  | VFloat x => Text (floatstr x)
  | VStr s => Text (encode_basestring s)
  | VObjectId _ => NotSerializable "ObjectId"
  | VOther t => NotSerializable t
  | VList l => bracket "[" "]" (parts encode l)
  | VDict d =>
      bracket "{" "}"
        (parts (fun kv =>
                  and_then (encode (snd kv)) (fun s =>
                  Text (encode_basestring (fst kv) ++ ": " ++ s))) d)
  end.

(** [json.dumps(doc, ensure_ascii=False)] for a document. *)
Definition dumps (doc : document) : encoded := encode (VDict doc).

(** *** Reading JSON back

    A reader for the JSON grammar of RFC 8259.  Insignificant white space
    is skipped, the characters below U+0020 inside a string literal are
    refused, escapes are decoded (a [\uXXXX] escape to the UTF-8 bytes of
    that code point), a number has no leading zero.  A number without
    fraction and exponent is read as an int, any other as the float with
    that decimal number; [NaN], [Infinity] and [-Infinity] are not JSON and
    are refused.  An object becomes the list of its members in the order of
    the text. *)

Definition is_ws (a : ascii) : bool :=
  Ascii.eqb a " " || Ascii.eqb a "009" || Ascii.eqb a "010" || Ascii.eqb a "013".

Fixpoint skip_ws (s : string) : string :=
  match s with
  | EmptyString => EmptyString
  | String a s' => if is_ws a then skip_ws s' else s
  end.

Definition is_digit (a : ascii) : bool :=
  (48 <=? N_of_ascii a)%N && (N_of_ascii a <=? 57)%N.

(** The longest prefix of digits, and what follows it. *)
Fixpoint span_digits (s : string) : string * string :=
  match s with
  | EmptyString => (EmptyString, EmptyString)
  | String a s' =>
      if is_digit a then
        let (ds, rest) := span_digits s' in (String a ds, rest)
      else (EmptyString, s)
  end.

Definition starts_number_tail (s : string) : bool :=
  match s with
  | String a _ =>
      is_digit a || Ascii.eqb a "." || Ascii.eqb a "e" || Ascii.eqb a "E"
  | EmptyString => false
  end.

Definition parse_digits (s : string) : option (Z * string) :=
  let (ds, rest) := span_digits s in
  match ds with
  | EmptyString => None
  | String a ds' =>
      if Ascii.eqb a "0" && Str.truthy ds' then None
      else if starts_number_tail rest then None
      else
        match NilEmpty.uint_of_string ds with
        | Some u => Some (Z.of_uint u, rest)
        | None => None
        end
  end.

Definition parse_int (s : string) : option (Z * string) :=
  match s with
  | String a s' =>
      if Ascii.eqb a "-" then
        match parse_digits s' with
        | Some (n, rest) => Some ((- n)%Z, rest)
        | None => None
        end
      else parse_digits s
  | EmptyString => None
  end.

(** The digits of an integer part: at least one, and no leading zero. *)
Definition int_part_ok (ds : string) : bool :=
  match ds with
  | EmptyString => false
  | String a ds' => negb (Ascii.eqb a "0" && Str.truthy ds')
  end.

Definition is_e (a : ascii) : bool := Ascii.eqb a "e" || Ascii.eqb a "E".

(** What follows the [e] of a number: an optional sign and digits. *)
Definition parse_exponent (s : string) : option (Decimal.int * string) :=
  match s with
  | EmptyString => None
  | String c s' =>
      let negative := Ascii.eqb c "-" in
      let digits := if Ascii.eqb c "-" || Ascii.eqb c "+" then s' else s in
      let (ds, rest) := span_digits digits in
      match ds with
      | EmptyString => None
      | String _ _ =>
          match NilEmpty.uint_of_string ds with
          | Some u => Some (if negative then Decimal.Neg u else Decimal.Pos u, rest)
          | None => None
          end
      end
  end.

(** A number with a fraction or an exponent, after its sign. *)
Definition parse_unsigned_float (negative : bool) (s : string)
  : option (Decimal.decimal * string) :=
  let (ip, r1) := span_digits s in
  if int_part_ok ip then
    match NilEmpty.uint_of_string ip with
    | None => None
    | Some u =>
        let i := if negative then Decimal.Neg u else Decimal.Pos u in
        match r1 with
        | EmptyString => None
        | String c r2 =>
            if Ascii.eqb c "." then
              let (fp, r3) := span_digits r2 in
              match fp with
              | EmptyString => None
              | String _ _ =>
                  match NilEmpty.uint_of_string fp with
                  | None => None
                  | Some f =>
                      match r3 with
                      | EmptyString => Some (Decimal.Decimal i f, r3)
                      | String e r4 =>
                          if is_e e then
                            match parse_exponent r4 with
                            | Some (x, rest) => Some (Decimal.DecimalExp i f x, rest)
                            | None => None
                            end
                          else Some (Decimal.Decimal i f, r3)
                      end
                  end
              end
            else if is_e c then
              match parse_exponent r2 with
              | Some (x, rest) => Some (Decimal.DecimalExp i Decimal.Nil x, rest)
              | None => None
              end
            else None
        end
    end
  else None.

Definition parse_float (s : string) : option (Decimal.decimal * string) :=
  match s with
  | String a s' =>
      if Ascii.eqb a "-" then parse_unsigned_float true s'
      else parse_unsigned_float false s
  | EmptyString => None
  end.

Definition hex_val (a : ascii) : option N :=
  let n := N_of_ascii a in
  if (48 <=? n)%N && (n <=? 57)%N then Some (n - 48)%N
  else if (97 <=? n)%N && (n <=? 102)%N then Some (n - 87)%N
  else if (65 <=? n)%N && (n <=? 70)%N then Some (n - 55)%N
  else None.

Definition hex4 (h1 h2 h3 h4 : ascii) : option N :=
  match hex_val h1, hex_val h2, hex_val h3, hex_val h4 with
  | Some a, Some b, Some c, Some d => Some (((a * 16 + b) * 16 + c) * 16 + d)%N
  | _, _, _, _ => None
  end.

(** The UTF-8 bytes of a code point of the basic plane. *)
Definition utf8 (cp : N) : string :=
  if (cp <? 128)%N then String (ascii_of_N cp) EmptyString
  else if (cp <? 2048)%N then
    String (ascii_of_N (192 + cp / 64))
      (String (ascii_of_N (128 + cp mod 64)) EmptyString)
  else
    String (ascii_of_N (224 + cp / 4096))
      (String (ascii_of_N (128 + (cp / 64) mod 64))
         (String (ascii_of_N (128 + cp mod 64)) EmptyString)).

(** The character a two-character escape stands for. *)
Definition unescape (e : ascii) : option ascii :=
  if Ascii.eqb e dquote then Some dquote
  else if Ascii.eqb e "\" then Some "\"%char
  else if Ascii.eqb e "/" then Some "/"%char
  else if Ascii.eqb e "n" then Some "010"%char
  else if Ascii.eqb e "r" then Some "013"%char
  else if Ascii.eqb e "t" then Some "009"%char
  else if Ascii.eqb e "b" then Some "008"%char
  else if Ascii.eqb e "f" then Some "012"%char
  else None.

Definition prepend (piece : string) (r : option (string * string))
  : option (string * string) :=
  match r with
  | Some (t, rest) => Some (piece ++ t, rest)
  | None => None
  end.

(** The inside of a string literal, after its opening quote: the decoded
    text and what follows the closing quote. *)
Fixpoint parse_chars (s : string) : option (string * string) :=
  match s with
  | EmptyString => None
  | String a s' =>
      if Ascii.eqb a dquote then Some (EmptyString, s')
      else if Ascii.eqb a "\" then
        match s' with
        | EmptyString => None
        | String e s'' =>
            if Ascii.eqb e "u" then
              match s'' with
              | String h1 (String h2 (String h3 (String h4 s3))) =>
                  match hex4 h1 h2 h3 h4 with
                  | Some cp => prepend (utf8 cp) (parse_chars s3)
                  | None => None
                  end
              | _ => None
              end
            else
              match unescape e with
              | Some c => prepend (String c EmptyString) (parse_chars s'')
              | None => None
              end
        end
      else if (N_of_ascii a <? 32)%N then None
      else prepend (String a EmptyString) (parse_chars s')
  end.

(** [word] as a prefix of [s]: what follows it. *)
Fixpoint after_word (word s : string) : option string :=
  match word, s with
  | EmptyString, _ => Some s
  | String a word', String b s' => if Ascii.eqb a b then after_word word' s' else None
  | String _ _, EmptyString => None
  end.

Fixpoint parse_value (fuel : nat) (s : string) : option (value * string) :=
  match fuel with
  | O => None
  | S n =>
      match skip_ws s with
      | EmptyString => None
      | String a s' =>
          if Ascii.eqb a "{" then
            match skip_ws s' with
            | EmptyString => None
            | String b r =>
                if Ascii.eqb b "}" then Some (VDict [], r)
                else
                  match parse_members n (String b r) with
                  | Some (d, rest) => Some (VDict d, rest)
                  | None => None
                  end
            end
          else if Ascii.eqb a "[" then
            match skip_ws s' with
            | EmptyString => None
            | String b r =>
                if Ascii.eqb b "]" then Some (VList [], r)
                else
                  match parse_elements n (String b r) with
                  | Some (l, rest) => Some (VList l, rest)
                  | None => None
                  end
            end
          else if Ascii.eqb a dquote then
            match parse_chars s' with
            | Some (t, rest) => Some (VStr t, rest)
            | None => None
            end
          else if Ascii.eqb a "n" then
            match after_word "ull" s' with
            | Some rest => Some (VNone, rest)
            | None => None
            end
          else if Ascii.eqb a "t" then
            match after_word "rue" s' with
            | Some rest => Some (VBool true, rest)
            | None => None
            end
          else if Ascii.eqb a "f" then
            match after_word "alse" s' with
            | Some rest => Some (VBool false, rest)
            | None => None
            end
          else
            match parse_int (String a s') with
            | Some (z, rest) => Some (VInt z, rest)
            | None =>
                match parse_float (String a s') with
                | Some (d, rest) => Some (VFloat (Finite d), rest)
                | None => None
                end
            end
      end
  end

with parse_elements (fuel : nat) (s : string) : option (list value * string) :=
  match fuel with
  | O => None
  | S n =>
      match parse_value n s with
      | None => None
      | Some (v, r) =>
          match skip_ws r with
          | EmptyString => None
          | String c r' =>
              if Ascii.eqb c "," then
                match parse_elements n r' with
                | Some (l, rest) => Some (v :: l, rest)
                | None => None
                end
              else if Ascii.eqb c "]" then Some ([v], r')
              else None
          end
      end
  end

with parse_members (fuel : nat) (s : string)
  : option (list (string * value) * string) :=
  match fuel with
  | O => None
  | S n =>
      match skip_ws s with
      | EmptyString => None
      | String q s1 =>
          if negb (Ascii.eqb q dquote) then None
          else
            match parse_chars s1 with
            | None => None
            | Some (key, r) =>
                match skip_ws r with
                | EmptyString => None
                | String c r1 =>
                    if negb (Ascii.eqb c ":") then None
                    else
                      match parse_value n r1 with
                      | None => None
                      | Some (v, r2) =>
                          match skip_ws r2 with
                          | EmptyString => None
                          | String c' r3 =>
                              if Ascii.eqb c' "," then
                                match parse_members n r3 with
                                | Some (d, rest) => Some ((key, v) :: d, rest)
                                | None => None
                                end
                              else if Ascii.eqb c' "}" then Some ([(key, v)], r3)
                              else None
                          end
                      end
                end
            end
      end
  end.

(** [json.loads(s)]: one JSON value and nothing after it but white space. *)
Definition loads (s : string) : option value :=
  match parse_value (S (String.length s)) s with
  | Some (v, rest) =>
      match skip_ws rest with
      | EmptyString => Some v
      | String _ _ => None
      end
  | None => None
  end.

End Json.

(** ** Effects *)

(** Exceptions the program can meet.  [OtherError] stands for any exception
    class the source does not name (a pymongo error, [OSError],
    boto3's [S3UploadFailedError], ...). *)
Inductive exn : Type :=
| TypeError (type_name : string)
| NoCredentialsError
| PartialCredentialsError
| ClientError (msg : string)
| OtherError (class_name : string).

(** How a computation ends: a value, an exception on its way up, or
    [sys.exit(code)]. *)
Inductive outcome (A : Type) : Type :=
| Return (a : A)
| Raise (e : exn)
| Exit (code : Z).
Arguments Return {A} a.
Arguments Raise {A} e.
Arguments Exit {A} code.

Inductive stream : Type := stdout | stderr.

(** The lines the program prints; each constructor is one [print] call of
    the source with the values its f-string interpolates. *)
Inductive message : Type :=
| MsgMissingEnv
| MsgMissingBucket
| MsgWarnEmpty (collection_name : string)
| MsgExported (collection_name out_path : string) (n_docs : nat)
| MsgNoneExported
| MsgErrCredentials
| MsgErrUpload (e : string)
| MsgUploaded (bucket key : string)
| MsgDone
| MsgDuration.

(** What the outside world sees of a run, in order. *)
Inductive event : Type :=
| EvPrint (to : stream) (m : message)
| EvMakedirs (path : string)
| EvMongoClient (uri : string)
| EvFind (db collection_name : string)
| EvOpen (path : string)
| EvWrite (path data : string)
| EvUploadFile (local_path bucket key : string).

Record state : Type := mkState {
  files : gmap string string;             (* local disk: path -> contents *)
  objects : gmap (string * string) string; (* object storage: (bucket, key) -> contents *)
  log : list event                         (* events so far, oldest first *)
}.

Definition M (A : Type) : Type := state -> state * outcome A.

Definition ret {A} (a : A) : M A := fun st => (st, Return a).
Definition raise {A} (e : exn) : M A := fun st => (st, Raise e).
Definition sys_exit {A} (code : Z) : M A := fun st => (st, Exit code).

Definition bind {A B} (c : M A) (k : A -> M B) : M B :=
  fun st =>
    match c st with
    | (st', Return a) => k a st'
    | (st', Raise e) => (st', Raise e)
    | (st', Exit code) => (st', Exit code)
    end.

Notation "'let*' x ':=' c 'in' k" := (bind c (fun x => k))
  (at level 10, x name, c at level 100, k at level 200).
Notation "c ;;; k" := (bind c (fun _ => k))
  (at level 100, k at level 200, right associativity).

Definition emit (e : event) : M unit :=
  fun st => (mkState (files st) (objects st) (log st ++ [e])%list, Return tt).

Definition print (to : stream) (m : message) : M unit := emit (EvPrint to m).

(** [for x in l: body(x)]: stops at the first iteration that does not end
    normally. *)
Fixpoint for_each {A} (l : list A) (body : A -> M unit) : M unit :=
  match l with
  | [] => ret tt
  | x :: l' => body x ;;; for_each l' body
  end.

(** *** The environment *)

Record config : Type := mkConfig {
  MONGO_HOST : string;
  MONGO_PORT : Z;
  MONGO_DB : string;
  MONGO_USER : string;
  MONGO_PASSWORD : string;
  MONGO_AUTH_DB : string;
  COLLECTIONS : list string;
  OUTPUT_DIR : string;
  S3_BUCKET : string;
  S3_PREFIX : string;
  AWS_REGION : string;
  TIMESTAMP : string
}.

(** The collaborators: what [coll.find({})] yields, and whether
    [os.makedirs], [open] and [upload_file] fail ([None]: they succeed). *)
Record world : Type := mkWorld {
  mongo_find : string -> string -> exn + list document;
  os_makedirs : string -> option exn;
  os_open : state -> string -> option exn;
  s3_upload_file : state -> string -> string -> string -> option exn
}.

(** An attempt to upload, a connection to the store or a query of it: the
    events that are network traffic. *)
Definition is_upload (e : event) : bool :=
  match e with EvUploadFile _ _ _ => true | _ => false end.

Definition is_network (e : event) : bool :=
  match e with
  | EvMongoClient _ | EvFind _ _ | EvUploadFile _ _ _ => true
  | _ => false
  end.

(** ** The program *)

Definition newline : string := String "010"%char EmptyString.

(** The text of a file made of these lines, each ended by a line feed. *)
Fixpoint ndjson (lines : list string) : string :=
  match lines with
  | [] => EmptyString
  | l :: ls => (l ++ newline) ++ ndjson ls
  end.

(** The handle [MongoClient(uri)] returns. *)
Record MongoClient : Type := mkMongoClient { client_uri : string }.

Section Program.
Variable cfg : config.
Variable w : world.

(** *** Primitives of the collaborators *)

(** [list(client[db][collection_name].find({}))]. *)
Definition find_all (client : MongoClient) (db collection_name : string)
  : M (list document) :=
  emit (EvFind db collection_name) ;;;
  match mongo_find w db collection_name with
  | inl e => raise e
  | inr docs => ret docs
  end.

(** [open(path, "w", encoding="utf-8")]: creates or truncates. *)
Definition open_w (path : string) : M unit :=
  fun st =>
    let log' := (log st ++ [EvOpen path])%list in
    match os_open w st path with
    | Some e => (mkState (files st) (objects st) log', Raise e)
    | None => (mkState (<[path := EmptyString]> (files st)) (objects st) log', Return tt)
    end.

(** [f.write(data)] on the file opened at [path]. *)
Definition write (path data : string) : M unit :=
  fun st =>
    (mkState (<[path := default EmptyString (files st !! path) ++ data]> (files st))
             (objects st) (log st ++ [EvWrite path data])%list,
     Return tt).

(** [cli.upload_file(local_path, bucket, key)]: on success the object
    holds the contents of the local file; on failure the bucket is
    unchanged. *)
Definition upload_file (local_path bucket key : string) : M unit :=
  fun st =>
    let log' := (log st ++ [EvUploadFile local_path bucket key])%list in
    match files st !! local_path with
    | None => (mkState (files st) (objects st) log', Raise (OtherError "FileNotFoundError"))
    | Some data =>
        match s3_upload_file w st local_path bucket key with
        | Some e => (mkState (files st) (objects st) log', Raise e)
        | None =>
            (mkState (files st) (<[(bucket, key) := data]> (objects st)) log', Return tt)
        end
    end.

(** *** [ensure_output_dir] *)
Definition ensure_output_dir (path : string) : M unit :=
  emit (EvMakedirs path) ;;;
  match os_makedirs w path with
  | Some e => raise e
  | None => ret tt
  end.

(** *** [get_client] *)

(** The connection string: with credentials only when both the user and the
    password are set. *)
Definition mongo_uri : string :=
  if Str.truthy (MONGO_USER cfg) && Str.truthy (MONGO_PASSWORD cfg) then
    "mongodb://" ++ MONGO_USER cfg ++ ":" ++ MONGO_PASSWORD cfg
      ++ "@" ++ MONGO_HOST cfg ++ ":" ++ Py.int_str (MONGO_PORT cfg)
      ++ "/?authSource=" ++ MONGO_AUTH_DB cfg
  else
    "mongodb://" ++ MONGO_HOST cfg ++ ":" ++ Py.int_str (MONGO_PORT cfg) ++ "/".

(** [MongoClient(uri)] is taken to return the handle.  What the constructor
    refuses by itself (a port out of range, a string it cannot parse) is not
    part of the model. *)
Definition get_client : M MongoClient :=
  let uri := mongo_uri in
  emit (EvMongoClient uri) ;;;
  ret (mkMongoClient uri).

(** *** [export_collection_to_ndjson] *)

(** The body of [for doc in docs] inside the [with] block. *)
Definition write_doc (out_path : string) (doc : document) : M unit :=
  let doc := convert_objectid_to_str doc in
  match Json.dumps doc with
  | Json.NotSerializable t => raise (TypeError t)
  | Json.Text s => write out_path (s ++ newline)
  end.

(** The path of the file a collection is exported to. *)
Definition ndjson_path (collection_name out_dir : string) : string :=
  let filename := collection_name ++ "_" ++ TIMESTAMP cfg ++ ".ndjson" in
  Py.join out_dir filename.

Definition export_collection_to_ndjson
    (client : MongoClient) (collection_name out_dir : string) : M string :=
  let* docs := find_all client (MONGO_DB cfg) collection_name in
  match docs with
  | [] =>
      print stdout (MsgWarnEmpty collection_name) ;;;
      ret EmptyString
  | _ :: _ =>
      let out_path := ndjson_path collection_name out_dir in
      open_w out_path ;;;
      for_each docs (write_doc out_path) ;;;
      print stdout (MsgExported collection_name out_path (length docs)) ;;;
      ret out_path
  end.

(** *** [upload_to_s3] *)

(** The destination key computed by the first three lines. *)
Definition upload_key (local_path : string) (prefix : option string) : string :=
  let key := Py.basename local_path in
  match prefix with
  | Some p =>
      if Str.truthy p then Py.rstrip "/" p ++ "/" ++ key else key
  | None => key
  end.

(** [cli = s3_client()], before the [try], is taken to return the client:
    what [boto3.client] refuses by itself (a malformed region) is not part of
    the model.  The [try] block is the call of [upload_file]. *)
Definition upload_to_s3 (local_path bucket : string) (prefix : option string)
  : M string :=
  let key := upload_key local_path prefix in
  fun st =>
    match upload_file local_path bucket key st with
    | (st', Raise NoCredentialsError) =>
        (print stderr MsgErrCredentials ;;; raise NoCredentialsError) st'
    | (st', Raise PartialCredentialsError) =>
        (print stderr MsgErrCredentials ;;; raise PartialCredentialsError) st'
    | (st', Raise (ClientError e)) =>
        (print stderr (MsgErrUpload e) ;;; raise (ClientError e)) st'
    | (st', Raise e) => (st', Raise e)
    | (st', Exit code) => (st', Exit code)
    | (st', Return _) =>
        (print stdout (MsgUploaded bucket key) ;;; ret key) st'
    end.

(** *** [main] *)

(** The loop [for coll in COLLECTIONS] with its accumulator. *)
Fixpoint export_all (client : MongoClient) (colls exported_files : list string)
  : M (list string) :=
  match colls with
  | [] => ret exported_files
  | coll :: rest =>
      let* path := export_collection_to_ndjson client coll (OUTPUT_DIR cfg) in
      export_all client rest
        (if Str.truthy path then (exported_files ++ [path])%list else exported_files)
  end.

(** The loop [for path in exported_files]. *)
Definition upload_all (exported_files : list string) : M unit :=
  for_each exported_files
    (fun path => upload_to_s3 path (S3_BUCKET cfg) (Some (S3_PREFIX cfg)) ;;; ret tt).

Definition main : M unit :=
  if negb (Str.truthy (MONGO_DB cfg))
     || match COLLECTIONS cfg with [] => true | _ :: _ => false end
  then print stderr MsgMissingEnv ;;; sys_exit 1
  else if negb (Str.truthy (S3_BUCKET cfg))
  then print stderr MsgMissingBucket ;;; sys_exit 1
  else
    ensure_output_dir (OUTPUT_DIR cfg) ;;;
    let* client := get_client in
    let* exported_files := export_all client (COLLECTIONS cfg) [] in
    match exported_files with
    | [] => print stderr MsgNoneExported ;;; sys_exit 2
    | _ :: _ =>
        upload_all exported_files ;;;
        print stdout MsgDone
    end.

(** The [__main__] block: [try: main() finally: print(duration)]. *)
Definition script : M unit :=
  fun st =>
    let (st', r) := main st in
    (fst (print stdout MsgDuration st'), r).

(** The status the interpreter exits with. *)
Definition exit_status (r : outcome unit) : Z :=
  match r with
  | Return _ => 0
  | Exit code => code
  | Raise _ => 1
  end.

End Program.

(** ** The settings of the module

    The assignments at the top of the module, from [MONGO_HOST] to
    [TIMESTAMP].  [CSV_SEP], [CSV_QUOTE] and [CSV_LINE_TERMINATOR] are read
    but never used and have no field in [config]. *)

(** The list of [COLLECTIONS]:
    [[c.strip() for c in COLLECTIONS_ENV.split(",") if c.strip()]]. *)
Definition parse_collections (collections_env : string) : list string :=
  map Py.strip
    (List.filter (fun c => Str.truthy (Py.strip c)) (Py.split "," collections_env)).

Module Datetime.

(** The fields of a [datetime] that the format of [TIMESTAMP] reads. *)
Record t : Type := mk {
  year : N; month : N; day : N; hour : N; minute : N; second : N
}.

(** The decimal digit of the units of [n]. *)
Definition digit (n : N) : ascii := ascii_of_N (48 + n mod 10)%N.

(** [%m], [%d], [%H], [%M], [%S]: two digits, zero-padded. *)
Definition two_digits (n : N) : string :=
  String (digit (n / 10)%N) (String (digit n) EmptyString).

(** [%Y]: the four digits of the year, for the years from 1000 on (below,
    the padding depends on the platform; a run's clock is past them). *)
Definition four_digits (n : N) : string :=
  String (digit (n / 1000)%N) (String (digit (n / 100)%N) (two_digits n)).

(** [strftime("%Y%m%dT%H%M%SZ")]. *)
Definition strftime (d : t) : string :=
  four_digits (year d) ++ two_digits (month d) ++ two_digits (day d) ++ "T"
    ++ two_digits (hour d) ++ two_digits (minute d) ++ two_digits (second d) ++ "Z".

End Datetime.

(** [os.getenv(name, default)]. *)
Definition getenv (env : gmap string string) (name default_value : string) : string :=
  default default_value (env !! name).

Section Settings.
(** [int] on a string, [None] where it raises [ValueError]. *)
Variable py_int : string -> option Z.
(** The environment of the process and [datetime.utcnow()]. *)
Variable env : gmap string string.
Variable utcnow : Datetime.t.

(** [os.getenv("AWS_DEFAULT_REGION") or os.getenv("AWS_REGION", "us-east-1")]. *)
Definition aws_region : string :=
  match env !! "AWS_DEFAULT_REGION" with
  | Some r => if Str.truthy r then r else getenv env "AWS_REGION" "us-east-1"
  | None => getenv env "AWS_REGION" "us-east-1"
  end.

(** The settings, or [None] when [int] rejects [MONGO_PORT] and the module
    stops at its second assignment. *)
Definition load_config : option config :=
  match py_int (getenv env "MONGO_PORT" "27017") with
  | None => None
  | Some port =>
      Some {|
        MONGO_HOST := getenv env "MONGO_HOST" "localhost";
        MONGO_PORT := port;
        MONGO_DB := getenv env "MONGO_DB" "";
        MONGO_USER := getenv env "MONGO_USER" "";
        MONGO_PASSWORD := getenv env "MONGO_PASSWORD" "";
        MONGO_AUTH_DB := getenv env "MONGO_AUTH_DB" "admin";
        COLLECTIONS := parse_collections (getenv env "COLLECTIONS" "");
        OUTPUT_DIR := getenv env "OUTPUT_DIR" "/app/out";
        S3_BUCKET := getenv env "S3_BUCKET" "";
        S3_PREFIX := getenv env "S3_PREFIX" "";
        AWS_REGION := aws_region;
        TIMESTAMP := Datetime.strftime utcnow
      |}
  end.

(** The whole script: the module-level assignments, then the [__main__]
    block.  A [ValueError] of the assignments is not caught. *)
Definition program (w : world) : M unit :=
  match load_config with
  | None => raise (OtherError "ValueError")
  | Some cfg => script cfg w
  end.

End Settings.

(** * Vocabulary of the statements *)

(** The state in which the export loop starts: the output directory was
    created and the client built, nothing else happened. *)
Definition after_setup (cfg : config) (st : state) : state :=
  mkState (files st) (objects st)
    (log st ++ [EvMakedirs (OUTPUT_DIR cfg); EvMongoClient (mongo_uri cfg)])%list.

(** What [main] does with the list the export loop produced. *)
Definition after_export (cfg : config) (w : world) (exported_files : list string)
  : M unit :=
  match exported_files with
  | [] => print stderr MsgNoneExported ;;; sys_exit 2
  | _ :: _ => upload_all cfg w exported_files ;;; print stdout MsgDone
  end.

(** The state right after the query of [export_collection_to_ndjson]. *)
Definition after_find (cfg : config) (collection_name : string) (st : state) : state :=
  mkState (files st) (objects st) (log st ++ [EvFind (MONGO_DB cfg) collection_name])%list.

(** What [upload_to_s3] prints before it re-raises [e]. *)
Definition error_report (e : exn) : list event :=
  match e with
  | NoCredentialsError | PartialCredentialsError => [EvPrint stderr MsgErrCredentials]
  | ClientError msg => [EvPrint stderr (MsgErrUpload msg)]
  | _ => []
  end.

(** The [write] calls of a file, one per line. *)
Definition writes (path : string) (lines : list string) : list event :=
  map (fun line => EvWrite path (line ++ newline)) lines.

(** [serialized docs lines]: every document, once normalized, is encoded
    by [json.dumps], and [lines] are the texts, in the order of [docs]. *)
Definition serialized (docs : list document) (lines : list string) : Prop :=
  Forall2 (fun doc line => Json.dumps (convert_objectid_to_str doc) = Json.Text line)
    docs lines.

(** [preserves R c]: whatever way [c] ends, the states before and after
    are related by [R]. *)
Definition preserves {A} (R : state -> state -> Prop) (c : M A) : Prop :=
  forall st st' r, c st = (st', r) -> R st st'.

(** [quiet st st']: between the two states the bucket was not touched and
    no upload was attempted; the log only grew. *)
Definition quiet (st st' : state) : Prop :=
  objects st' = objects st
  /\ exists evs, log st' = (log st ++ evs)%list
                 /\ Forall (fun e => is_upload e = false) evs.

(** [uploads_only P st st']: the log only grew, and every upload attempted
    in between was of a file whose path satisfies [P]. *)
Definition uploads_only (P : string -> Prop) (st st' : state) : Prop :=
  exists evs, log st' = (log st ++ evs)%list
              /\ forall p b k, In (EvUploadFile p b k) evs -> P p.

(** [from_nonempty cfg w colls p]: [p] is the path of the file of one of
    the collections [colls] whose query returned at least one document. *)
Definition from_nonempty (cfg : config) (w : world) (colls : list string) (p : string)
  : Prop :=
  exists c d ds,
    In c colls /\ p = ndjson_path cfg c (OUTPUT_DIR cfg)
    /\ mongo_find w (MONGO_DB cfg) c = inr (d :: ds).

(** [json_types_only v]: the tree holds nothing but dicts, lists, strings,
    ints, floats, bools and [None]. *)
Fixpoint json_types_only (v : value) : bool :=
  match v with
  | VObjectId _ | VOther _ => false
  | VDict d => forallb (fun kv => json_types_only (snd kv)) d
  | VList l => forallb json_types_only l
  | _ => true
  end.

(** [ids_under_keys v]: wherever [v] holds an identifier, it is as the
    value of a key; a list holds identifiers only inside its dict items. *)
Fixpoint ids_under_keys (v : value) : bool :=
  match v with
  | VDict d => forallb (fun kv => ids_under_keys (snd kv)) d
  | VList l =>
      forallb (fun item =>
                 match item with
                 | VDict d => forallb (fun kv => ids_under_keys (snd kv)) d
                 | _ => negb (has_objectid item)
                 end) l
  | _ => true
  end.

(** The decimal number is written as [float.__repr__] writes one: the
    integer part has a digit and no leading zero, a number without exponent
    has a fraction, an exponent has a digit. *)
Definition written_by_repr (d : Decimal.decimal) : bool :=
  match d with
  | Decimal.Decimal i f =>
      Json.int_part_ok (NilEmpty.string_of_uint (Decimal.abs i))
      && Str.truthy (NilEmpty.string_of_uint f)
  | Decimal.DecimalExp i f e =>
      Json.int_part_ok (NilEmpty.string_of_uint (Decimal.abs i))
      && Str.truthy (NilEmpty.string_of_uint (Decimal.abs e))
  end.

(** [finite_doubles v]: every float of the tree is a finite number, held
    as a decimal that [float.__repr__] writes; none is [NaN] or an
    infinity. *)
Fixpoint finite_doubles (v : value) : bool :=
  match v with
  | VFloat (Finite d) => written_by_repr d
  | VFloat _ => false
  | VDict d => forallb (fun kv => finite_doubles (snd kv)) d
  | VList l => forallb finite_doubles l
  | _ => true
  end.

(** What a value's text starts with: never white space, never a closing
    bracket. *)
Definition opens_value (a : ascii) : bool :=
  negb (Json.is_ws a) && negb (Ascii.eqb a "]") && negb (Ascii.eqb a "}").

(** The fuel the reader needs for a value: one unit for the value and one
    for each element below it. *)
Fixpoint weight (v : value) : nat :=
  match v with
  | VDict d => S (list_sum (map (fun kv => S (weight (snd kv))) d))
  | VList l => S (list_sum (map (fun x => S (weight x)) l))
  | _ => 1
  end.

(** [reads_back v]: the reader, given enough fuel, finds [v] at the head of
    any text that starts with the encoding of [v], and stops right after
    it. *)
Definition reads_back (v : value) : Prop :=
  forall s fuel rest,
    finite_doubles v = true ->
    Json.encode v = Json.Text s -> weight v <= fuel ->
    Json.starts_number_tail rest = false ->
    Json.parse_value fuel (s ++ rest) = Some (v, rest).


(** [has_docs cfg w c]: the query of collection [c] returns at least one
    document. *)
Definition has_docs (cfg : config) (w : world) (c : string) : bool :=
  match mongo_find w (MONGO_DB cfg) c with
  | inr (_ :: _) => true
  | _ => false
  end.

(** The output paths of the collections of [colls] that have documents, in
    the order of [colls], one per occurrence. *)
Definition exported_paths (cfg : config) (w : world) (colls : list string)
  : list string :=
  map (fun c => ndjson_path cfg c (OUTPUT_DIR cfg)) (List.filter (has_docs cfg w) colls).

(** [never_exits c]: the computation [c] does not end in [sys.exit]. *)
Definition never_exits {A} (c : M A) : Prop :=
  forall st st' code, c st <> (st', Exit code).

(** [only_adds P Q st st']: from [st] to [st'] every local file is as it
    was, or is a file whose path satisfies [P] and exists; every object of
    the storage is as it was, or is an object whose bucket and key satisfy
    [Q] and exists.  Nothing is removed. *)
Definition only_adds (P : string -> Prop) (Q : string * string -> Prop)
    (st st' : state) : Prop :=
  (forall p, files st' !! p = files st !! p \/ (P p /\ is_Some (files st' !! p)))
  /\ (forall k, objects st' !! k = objects st !! k
                \/ (Q k /\ is_Some (objects st' !! k))).

(** The bucket and key under which [main] stores the file at [p]. *)
Definition destination (cfg : config) (p : string) : string * string :=
  (S3_BUCKET cfg, upload_key p (Some (S3_PREFIX cfg))).

(** [destination_of P cfg k]: [k] is the destination of a file whose path
    satisfies [P]. *)
Definition destination_of (P : string -> Prop) (cfg : config) (k : string * string)
  : Prop :=
  exists p, P p /\ k = destination cfg p.

(** A name without any slash. *)
Definition slash_free (s : string) : Prop := Str.count "/" s = 0.

(** The name of the file a collection is exported to, inside the output
    directory. *)
Definition ndjson_name (cfg : config) (collection_name : string) : string :=
  collection_name ++ "_" ++ TIMESTAMP cfg ++ ".ndjson".

(** The two events of a successful upload of the file at [p]. *)
Definition upload_events (cfg : config) (p : string) : list event :=
  [EvUploadFile p (S3_BUCKET cfg) (upload_key p (Some (S3_PREFIX cfg)));
   EvPrint stdout (MsgUploaded (S3_BUCKET cfg) (upload_key p (Some (S3_PREFIX cfg))))].

(** [s] begins with [t]; [s] ends with [t]. *)
Definition begins_with (t s : string) : Prop := exists r, s = t ++ r.
Definition finishes_with (t s : string) : Prop := exists r, s = r ++ t.

(** Without whitespace at either end. *)
Definition trimmed (c : string) : Prop :=
  forall t, In t Py.whitespace -> ~ begins_with t c /\ ~ finishes_with t c.

(** A name as the list of [COLLECTIONS] holds them: not empty, without a
    comma, without whitespace at either end. *)
Definition collection_name (c : string) : Prop :=
  c <> EmptyString /\ Str.count "," c = 0 /\ trimmed c.

(** The settings with another password, and with another host. *)
Definition with_password (cfg : config) (password : string) : config :=
  {| MONGO_HOST := MONGO_HOST cfg; MONGO_PORT := MONGO_PORT cfg;
     MONGO_DB := MONGO_DB cfg; MONGO_USER := MONGO_USER cfg;
     MONGO_PASSWORD := password; MONGO_AUTH_DB := MONGO_AUTH_DB cfg;
     COLLECTIONS := COLLECTIONS cfg; OUTPUT_DIR := OUTPUT_DIR cfg;
     S3_BUCKET := S3_BUCKET cfg; S3_PREFIX := S3_PREFIX cfg;
     AWS_REGION := AWS_REGION cfg; TIMESTAMP := TIMESTAMP cfg |}.

Definition with_host (cfg : config) (host : string) : config :=
  {| MONGO_HOST := host; MONGO_PORT := MONGO_PORT cfg;
     MONGO_DB := MONGO_DB cfg; MONGO_USER := MONGO_USER cfg;
     MONGO_PASSWORD := MONGO_PASSWORD cfg; MONGO_AUTH_DB := MONGO_AUTH_DB cfg;
     COLLECTIONS := COLLECTIONS cfg; OUTPUT_DIR := OUTPUT_DIR cfg;
     S3_BUCKET := S3_BUCKET cfg; S3_PREFIX := S3_PREFIX cfg;
     AWS_REGION := AWS_REGION cfg; TIMESTAMP := TIMESTAMP cfg |}.

(** A moment the clock of a run can show: the ranges of the fields of a
    [datetime], from the year 1000 on. *)
Definition moment (d : Datetime.t) : Prop :=
  (1000 <= Datetime.year d <= 9999
   /\ 1 <= Datetime.month d <= 12 /\ 1 <= Datetime.day d <= 31
   /\ Datetime.hour d <= 23 /\ Datetime.minute d <= 59 /\ Datetime.second d <= 59)%N.

(** A setting that is absent from the environment or empty. *)
Definition unset (env : gmap string string) (name : string) : Prop :=
  env !! name = None \/ env !! name = Some EmptyString.

(** The key under which a run with the settings [cfg] stores the export of
    the collection [c]. *)
Definition key_of (cfg : config) (c : string) : string :=
  upload_key (ndjson_path cfg c (OUTPUT_DIR cfg)) (Some (S3_PREFIX cfg)).

(** ** Concrete runs *)

Definition demo_cfg : config :=
  mkConfig "localhost" 27017 "shop" "" "" "admin" ["users"; "orders"; "logs"]
    "/app/out" "bucket" "backups/" "us-east-1" "20240101T000000Z".

Definition demo_id : ObjectId := mkObjectId "0123456789ab".

Definition demo_user (n : Z) : document :=
  [("_id", VObjectId demo_id); ("age", VInt n);
   ("tags", VList [VStr "a"; VDict [("ref", VObjectId demo_id)]]);
   ("address", VDict [("city", VStr "Lima"); ("owner", VObjectId demo_id)])].

(** A store in which every collection is empty. *)
Definition empty_world : world :=
  mkWorld (fun _ _ => inr []) (fun _ => None) (fun _ _ => None) (fun _ _ _ _ => None).

(** A store with two users and nothing else; every service works. *)
Definition demo_world : world :=
  mkWorld (fun _ c => if String.eqb c "users" then inr [demo_user 30; demo_user 41]
                      else inr [])
          (fun _ => None) (fun _ _ => None) (fun _ _ _ _ => None).

Definition fresh : state := mkState ∅ ∅ [].



(** A store where one of three collections has five documents. *)
Definition five_world : world :=
  mkWorld (fun _ c => if String.eqb c "orders"
                      then inr [demo_user 1; demo_user 2; demo_user 3; demo_user 4;
                                demo_user 5]
                      else inr [])
          (fun _ => None) (fun _ _ => None) (fun _ _ _ _ => None).






(** A store whose second user holds a date. *)
Definition half_dated_world : world :=
  mkWorld (fun _ c => if String.eqb c "users"
                      then inr [demo_user 30;
                                [("name", VStr "b"); ("created", VOther "datetime")];
                                demo_user 41]
                      else inr [])
          (fun _ => None) (fun _ _ => None) (fun _ _ _ _ => None).

(** A store whose second collection cannot be read. *)
Definition unreachable_world : world :=
  mkWorld (fun _ c => if String.eqb c "orders" then inl (OtherError "ServerSelectionTimeoutError")
                      else inr [demo_user 30])
          (fun _ => None) (fun _ _ => None) (fun _ _ _ _ => None).

(** A machine on which the output directory cannot be created. *)
Definition readonly_world : world :=
  mkWorld (fun _ _ => inr [demo_user 30])
          (fun _ => Some (OtherError "PermissionError")) (fun _ _ => None)
          (fun _ _ _ _ => None).

(** Settings with credentials. *)
Definition auth_cfg : config :=
  mkConfig "db.example" 27017 "shop" "app" "p" "admin" ["users"]
    "/app/out" "bucket" "backups/" "us-east-1" "20240101T000000Z".

(** An environment, a reading of [MONGO_PORT] and a clock. *)
Definition demo_env : gmap string string :=
  <["MONGO_DB" := "shop"]> (<["COLLECTIONS" := " users, orders ,"]>
    (<["S3_BUCKET" := "bucket"]> (<["S3_PREFIX" := "backups"]> ∅))).

Definition demo_int (s : string) : option Z :=
  if String.eqb s "27017" then Some 27017%Z else None.

Definition demo_now : Datetime.t := Datetime.mk 2024 1 2 3 4 5.

(** The same environment without [S3_BUCKET]. *)
Definition no_bucket_env : gmap string string := delete "S3_BUCKET" demo_env.

(** * Verification *)

#[local] Arguments String.append !_ _ / : simpl nomatch.

(** ** The normalizer: theorems *)

Lemma changed_only_at_ids_refl v : changed_only_at_ids v v.
Proof.
  induction v using value_tree_ind; try constructor.
  - induction H as [|kv d Hkv Hd IH]; constructor; auto.
  - induction H as [|x l Hx Hl IH]; constructor; auto.
Qed.

Lemma convert_entry_frame v : changed_only_at_ids v (convert_entry v).
Proof.
  induction v using value_tree_ind; try (simpl; constructor).
  - induction H as [|kv d Hkv Hd IH]; simpl; constructor; auto.
  - induction H as [|x l Hx Hl IH]; simpl; constructor; auto.
    destruct x; try apply changed_only_at_ids_refl. exact Hx.
Qed.

Lemma convert_entry_idem v : convert_entry (convert_entry v) = convert_entry v.
Proof.
  induction v using value_tree_ind; try reflexivity.
  - simpl. f_equal. rewrite map_map.
    induction H as [|kv d Hkv Hd IH]; simpl; [reflexivity|].
    f_equal; [|exact IH]. f_equal. exact Hkv.
  - simpl. f_equal. rewrite map_map.
    induction H as [|x l Hx Hl IH]; simpl; [reflexivity|].
    f_equal; [|exact IH].
    destruct x; try reflexivity.
    exact Hx.
Qed.

Lemma convert_entry_dict d :
  convert_entry (VDict d) = VDict (convert_objectid_to_str d).
Proof. reflexivity. Qed.

Lemma convert_entry_list l :
  convert_entry (VList l) = VList (map convert_item l).
Proof. reflexivity. Qed.

Lemma convert_objectid_to_str_idem doc :
  convert_objectid_to_str (convert_objectid_to_str doc) = convert_objectid_to_str doc.
Proof.
  pose proof (convert_entry_idem (VDict doc)) as H.
  rewrite !convert_entry_dict in H. congruence.
Qed.

Lemma has_objectid_list_app l1 l2 :
  has_objectid (VList (l1 ++ l2)%list)
  = has_objectid (VList l1) || has_objectid (VList l2).
Proof. simpl. apply existsb_app. Qed.

(** C1 (defect of the code): an identifier that is an item of a list is not
    converted.  The inner loop of [convert_objectid_to_str] only looks for
    dict items, so a document holding a list with an [ObjectId] in it comes
    back with that [ObjectId] still in place, whatever surrounds it in the
    list. *)
Theorem objectid_in_list_survives (key : string) (o : ObjectId) (before after : list value) :
  let doc := [(key, VList (before ++ VObjectId o :: after)%list)] in
  convert_objectid_to_str doc
  = [(key, VList (map convert_item before ++ VObjectId o :: map convert_item after)%list)]
  /\ has_objectid (VDict (convert_objectid_to_str doc)) = true.
Proof.
  intros doc. assert (E : convert_objectid_to_str doc
    = [(key, VList (map convert_item before ++ VObjectId o :: map convert_item after)%list)]).
  { unfold doc, convert_objectid_to_str. cbn [map fst snd].
    rewrite convert_entry_list, map_app. reflexivity. }
  split; [exact E|].
  rewrite E. cbn [has_objectid existsb snd].
  rewrite orb_false_r.
  change (has_objectid (VList (map convert_item before ++ VObjectId o :: map convert_item after)%list) = true).
  rewrite has_objectid_list_app. cbn [has_objectid existsb].
  apply orb_true_r.
Qed.

(** C8: normalizing an already normalized document changes nothing, so
    normalizing twice is the same as normalizing once. *)
Theorem convert_objectid_to_str_idempotent (doc : document) :
  let once := convert_objectid_to_str doc in
  convert_objectid_to_str once = once
  /\ convert_entry (convert_entry (VDict doc)) = convert_entry (VDict doc).
Proof.
  intros once. split.
  - apply convert_objectid_to_str_idem.
  - apply convert_entry_idem.
Qed.

Lemma convert_entry_plain v :
  is_mapping v = false -> is_sequence v = false -> is_identifier v = false ->
  convert_entry v = v.
Proof. destruct v; simpl; intros; congruence. Qed.

Lemma convert_doc_lookup (doc : document) i :
  convert_objectid_to_str doc !! i
  = (fun kv => (fst kv, convert_entry (snd kv))) <$> (doc !! i).
Proof. unfold convert_objectid_to_str. apply list_lookup_fmap. Qed.

(** C9: the normalizer changes identifier values only.  A value that is
    neither a mapping, a sequence nor an identifier is passed through as it
    is, at the same key and position of the document; and the whole result
    has the shape, keys, order and leaves of the input, except that an
    identifier may have become its string. *)
Theorem convert_changes_only_identifiers (doc : document) :
  (forall v, is_mapping v = false -> is_sequence v = false -> is_identifier v = false ->
             convert_entry v = v)
  /\ (forall i key v, doc !! i = Some (key, v) ->
        is_mapping v = false -> is_sequence v = false -> is_identifier v = false ->
        convert_objectid_to_str doc !! i = Some (key, v))
  /\ map fst (convert_objectid_to_str doc) = map fst doc
  /\ changed_only_at_ids (VDict doc) (VDict (convert_objectid_to_str doc)).
Proof.
  split; [exact convert_entry_plain|]. split; [|split].
  - intros i key v Hi Hm Hs Hid.
    rewrite convert_doc_lookup, Hi. simpl.
    rewrite convert_entry_plain; auto.
  - unfold convert_objectid_to_str. rewrite map_map. reflexivity.
  - rewrite <- convert_entry_dict. apply convert_entry_frame.
Qed.

(** With no identifier in the tree there is nothing to change. *)
Lemma convert_entry_no_ids v : has_objectid v = false -> convert_entry v = v.
Proof.
  induction v using value_tree_ind; try reflexivity.
  - discriminate.
  - simpl. intros Hd. f_equal.
    induction H as [|kv d Hkv Hd' IH]; [reflexivity|].
    simpl in Hd. apply orb_false_elim in Hd as [H1 H2].
    simpl. rewrite Hkv, IH by assumption. destruct kv; reflexivity.
  - simpl. intros Hl. f_equal.
    induction H as [|x l Hx Hl' IH]; [reflexivity|].
    simpl in Hl. apply orb_false_elim in Hl as [H1 H2].
    simpl. rewrite IH by assumption. f_equal.
    destruct x; try reflexivity. apply Hx. exact H1.
Qed.

(** ** The orchestrator: validation *)

Lemma truthy_true s : Str.truthy s = true <-> s <> EmptyString.
Proof. destruct s; simpl; split; congruence. Qed.

Ltac unfold_monad :=
  unfold bind, ret, raise, sys_exit, print, emit in *; cbn [fst snd] in *.

(** C4: a run with an empty database name, an empty collection list or an
    empty bucket ends with status 1, and all it does is print one line on
    stderr: the output directory is not created, no client is built, no
    query is sent and nothing is uploaded. *)
Theorem main_configuration_error (cfg : config) (w : world) (st : state) :
  MONGO_DB cfg = EmptyString \/ COLLECTIONS cfg = [] \/ S3_BUCKET cfg = EmptyString ->
  exists m,
    (m = MsgMissingEnv \/ m = MsgMissingBucket)
    /\ main cfg w st
       = (mkState (files st) (objects st) (log st ++ [EvPrint stderr m])%list, Exit 1)
    /\ script cfg w st
       = (mkState (files st) (objects st)
            (log st ++ [EvPrint stderr m; EvPrint stdout MsgDuration])%list, Exit 1)
    /\ exit_status (snd (script cfg w st)) = 1%Z
    /\ filter (fun e => is_network e) [EvPrint stderr m; EvPrint stdout MsgDuration] = [].
Proof.
  intros H.
  assert (Hmain : exists m, (m = MsgMissingEnv \/ m = MsgMissingBucket)
    /\ main cfg w st
       = (mkState (files st) (objects st) (log st ++ [EvPrint stderr m])%list, Exit 1)).
  { unfold main.
    destruct (negb (Str.truthy (MONGO_DB cfg))
              || match COLLECTIONS cfg with [] => true | _ :: _ => false end) eqn:E1.
    - exists MsgMissingEnv. split; [now left|]. reflexivity.
    - apply orb_false_elim in E1 as [Edb Ecoll].
      apply negb_false_iff, truthy_true in Edb.
      destruct H as [H|[H|H]]; [congruence| rewrite H in Ecoll; discriminate |].
      rewrite H. simpl. exists MsgMissingBucket. split; [now right|]. reflexivity. }
  destruct Hmain as (m & Hm & E). exists m.
  assert (Es : script cfg w st
       = (mkState (files st) (objects st)
            (log st ++ [EvPrint stderr m; EvPrint stdout MsgDuration])%list, Exit 1)).
  { unfold script. rewrite E. unfold_monad. simpl.
    rewrite <- app_assoc. reflexivity. }
  repeat split; try assumption.
  - rewrite Es. reflexivity.
Qed.

(** A run with no database name: nothing but the two printed lines. *)
Lemma main_configuration_error_witness :
  let cfg := mkConfig "localhost" 27017 "" "" "" "admin" ["users"] "/app/out"
               "bucket" "" "us-east-1" "20240101T000000Z" in
  let w := mkWorld (fun _ _ => inr []) (fun _ => None) (fun _ _ => None)
             (fun _ _ _ _ => None) in
  exists m, script cfg w (mkState ∅ ∅ [])
            = (mkState ∅ ∅ [EvPrint stderr m; EvPrint stdout MsgDuration], Exit 1).
Proof.
  intros cfg w.
  destruct (main_configuration_error cfg w (mkState ∅ ∅ [])) as (m & _ & _ & Hs & _).
  - left. reflexivity.
  - exists m. exact Hs.
Defined.

(** ** What a computation leaves untouched *)

Section Preserves.
Variable R : state -> state -> Prop.
Hypothesis R_refl : forall st, R st st.
Hypothesis R_trans : forall a b c, R a b -> R b c -> R a c.

Lemma preserves_ret {A} (a : A) : preserves R (ret a).
Proof. intros st st' r [= <- _]. apply R_refl. Qed.

Lemma preserves_raise {A} e : preserves R (@raise A e).
Proof. intros st st' r [= <- _]. apply R_refl. Qed.

Lemma preserves_sys_exit {A} code : preserves R (@sys_exit A code).
Proof. intros st st' r [= <- _]. apply R_refl. Qed.

Lemma preserves_bind {A B} (c : M A) (k : A -> M B) :
  preserves R c -> (forall a, preserves R (k a)) -> preserves R (bind c k).
Proof.
  intros Hc Hk st st' r. unfold bind.
  destruct (c st) as [st1 [a|e|code]] eqn:E; intros H.
  - eapply R_trans; [eapply Hc, E | eapply Hk, H].
  - injection H as <- _. eapply Hc, E.
  - injection H as <- _. eapply Hc, E.
Qed.

Lemma preserves_for_each {A} (l : list A) (body : A -> M unit) :
  (forall x, preserves R (body x)) -> preserves R (for_each l body).
Proof.
  intros Hb. induction l as [|x l IH]; simpl.
  - apply preserves_ret.
  - apply preserves_bind; [apply Hb | intros _; exact IH].
Qed.
End Preserves.

Lemma quiet_refl st : quiet st st.
Proof. split; [reflexivity|]. exists []. rewrite app_nil_r. auto. Qed.

Lemma quiet_trans a b c : quiet a b -> quiet b c -> quiet a c.
Proof.
  intros [Ho1 (e1 & Hl1 & Hf1)] [Ho2 (e2 & Hl2 & Hf2)]. split; [congruence|].
  exists (e1 ++ e2)%list. split.
  - rewrite Hl2, Hl1, app_assoc. reflexivity.
  - apply Forall_app; auto.
Qed.

Lemma quiet_emit e : is_upload e = false -> preserves quiet (emit e).
Proof.
  intros He st st' r [= <- _]. split; [reflexivity|].
  exists [e]. split; [reflexivity|]. repeat constructor. exact He.
Qed.

Lemma quiet_ret {A} (a : A) : preserves quiet (ret a).
Proof. apply preserves_ret, quiet_refl. Qed.

Lemma quiet_raise {A} e : preserves quiet (@raise A e).
Proof. apply preserves_raise, quiet_refl. Qed.

Lemma quiet_sys_exit {A} code : preserves quiet (@sys_exit A code).
Proof. apply preserves_sys_exit, quiet_refl. Qed.

Lemma quiet_bind {A B} (c : M A) (k : A -> M B) :
  preserves quiet c -> (forall a, preserves quiet (k a)) -> preserves quiet (bind c k).
Proof. exact (preserves_bind quiet quiet_trans c k). Qed.

Lemma quiet_for_each {A} (l : list A) (body : A -> M unit) :
  (forall x, preserves quiet (body x)) -> preserves quiet (for_each l body).
Proof. exact (preserves_for_each quiet quiet_refl quiet_trans l body). Qed.

Lemma quiet_print to m : preserves quiet (print to m).
Proof. apply quiet_emit. reflexivity. Qed.

Create HintDb quiet.
#[local] Hint Resolve quiet_ret quiet_raise quiet_sys_exit quiet_print quiet_for_each : quiet.

Ltac quiet_steps :=
  repeat (try (apply quiet_bind; [|intros ?]); auto with quiet).

Section ProgramFacts.
Variable cfg : config.
Variable w : world.

Lemma quiet_find_all client db c : preserves quiet (find_all w client db c).
Proof.
  unfold find_all. apply quiet_bind.
  - apply quiet_emit. reflexivity.
  - intros _. destruct (mongo_find w db c); auto with quiet.
Qed.

Lemma quiet_open_w path : preserves quiet (open_w w path).
Proof.
  intros st st' r. unfold open_w.
  destruct (os_open w st path); intros [= <- _]; (split; [reflexivity|]);
    exists [EvOpen path]; split; try reflexivity; repeat constructor.
Qed.

Lemma quiet_write path data : preserves quiet (write path data).
Proof.
  intros st st' r [= <- _]. split; [reflexivity|].
  exists [EvWrite path data]. split; [reflexivity|]. repeat constructor.
Qed.

Lemma quiet_write_doc path doc : preserves quiet (write_doc path doc).
Proof.
  unfold write_doc. destruct (Json.dumps _).
  - apply quiet_write.
  - apply quiet_raise.
Qed.

Lemma quiet_export_collection client c dir :
  preserves quiet (export_collection_to_ndjson cfg w client c dir).
Proof.
  unfold export_collection_to_ndjson.
  apply quiet_bind; [apply quiet_find_all|].
  intros [|d docs]; [quiet_steps|].
  apply quiet_bind; [apply quiet_open_w|]. intros _.
  apply quiet_bind; [|intros _; quiet_steps].
  apply quiet_for_each. intros x. apply quiet_write_doc.
Qed.

Lemma quiet_export_all client colls acc :
  preserves quiet (export_all cfg w client colls acc).
Proof.
  revert acc. induction colls as [|c colls IH]; intros acc; simpl.
  - apply quiet_ret.
  - apply quiet_bind; [apply quiet_export_collection|].
    intros path. apply IH.
Qed.

End ProgramFacts.

(** ** The orchestrator: exporting *)

Lemma main_valid_config cfg w st :
  MONGO_DB cfg <> EmptyString -> COLLECTIONS cfg <> [] -> S3_BUCKET cfg <> EmptyString ->
  os_makedirs w (OUTPUT_DIR cfg) = None ->
  main cfg w st
  = bind (export_all cfg w (mkMongoClient (mongo_uri cfg)) (COLLECTIONS cfg) [])
         (after_export cfg w) (after_setup cfg st).
Proof.
  intros Hdb Hcoll Hbk Hmk. unfold main.
  apply truthy_true in Hdb, Hbk. rewrite Hdb, Hbk.
  destruct (COLLECTIONS cfg) as [|c cs] eqn:Ec; [congruence|].
  cbn [negb orb].
  unfold ensure_output_dir, get_client. rewrite Hmk.
  unfold bind at 1 2 3 4 5. unfold emit, ret. cbn [fst snd files objects log].
  unfold after_setup. rewrite <- app_assoc. cbn [app].
  unfold bind, after_export. reflexivity.
Qed.

Lemma quiet_after_setup cfg st : quiet st (after_setup cfg st).
Proof.
  split; [reflexivity|]. eexists. split; [reflexivity|]. repeat constructor.
Qed.

(** C2: when the export loop ends with an empty list of paths, the run
    prints its notice and exits with status 2, which is not the status of a
    configuration error, and from start to end no upload was attempted and
    the bucket holds what it held. *)
Theorem main_no_data_exported (cfg : config) (w : world) (st st2 : state) :
  MONGO_DB cfg <> EmptyString -> COLLECTIONS cfg <> [] -> S3_BUCKET cfg <> EmptyString ->
  os_makedirs w (OUTPUT_DIR cfg) = None ->
  export_all cfg w (mkMongoClient (mongo_uri cfg)) (COLLECTIONS cfg) [] (after_setup cfg st)
  = (st2, Return []) ->
  main cfg w st
  = (mkState (files st2) (objects st2) (log st2 ++ [EvPrint stderr MsgNoneExported])%list,
     Exit 2)
  /\ exit_status (snd (script cfg w st)) = 2%Z
  /\ exit_status (snd (script cfg w st)) <> 1%Z
  /\ objects (fst (script cfg w st)) = objects st
  /\ exists evs, log (fst (script cfg w st)) = (log st ++ evs)%list
                 /\ filter (fun e => is_upload e) evs = [].
Proof.
  intros Hdb Hcoll Hbk Hmk Hexp.
  assert (Hmain : main cfg w st
    = (mkState (files st2) (objects st2) (log st2 ++ [EvPrint stderr MsgNoneExported])%list,
       Exit 2)).
  { rewrite main_valid_config by assumption. unfold bind at 1. rewrite Hexp. reflexivity. }
  assert (Hq : quiet st st2).
  { eapply quiet_trans; [apply quiet_after_setup|].
    eapply quiet_export_all. exact Hexp. }
  destruct Hq as [Hobj (evs & Hlog & Hevs)].
  split; [exact Hmain|].
  unfold script. rewrite Hmain. cbn [fst snd exit_status print emit files objects log].
  split; [reflexivity|]. split; [discriminate|]. split; [exact Hobj|].
  exists (evs ++ [EvPrint stderr MsgNoneExported; EvPrint stdout MsgDuration])%list.
  split.
  - rewrite Hlog, <- !app_assoc. reflexivity.
  - rewrite filter_app. cbn. rewrite app_nil_r.
    clear -Hevs. induction Hevs as [|e evs He _ IH]; [reflexivity|].
    cbn. rewrite He. exact IH.
Qed.

Lemma main_no_data_exported_witness :
  exit_status (snd (script demo_cfg empty_world fresh)) = 2%Z
  /\ objects (fst (script demo_cfg empty_world fresh)) = ∅.
Proof.
  pose proof (main_no_data_exported demo_cfg empty_world fresh
    (fst (export_all demo_cfg empty_world (mkMongoClient (mongo_uri demo_cfg))
            (COLLECTIONS demo_cfg) [] (after_setup demo_cfg fresh)))) as H.
  destruct H as (_ & H2 & _ & H4 & _).
  - discriminate.
  - discriminate.
  - discriminate.
  - reflexivity.
  - vm_compute. reflexivity.
  - split; [exact H2 | exact H4].
Defined.

(** ** The transfer client: destination key *)

Lemma str_app_assoc (s1 s2 s3 : string) : (s1 ++ s2) ++ s3 = s1 ++ (s2 ++ s3).
Proof. induction s1 as [|a s1 IH]; simpl; [reflexivity|]. rewrite IH. reflexivity. Qed.

Lemma str_app_nil_r (s : string) : s ++ EmptyString = s.
Proof. induction s as [|a s IH]; simpl; [reflexivity|]. rewrite IH. reflexivity. Qed.

Lemma str_length_app (s1 s2 : string) :
  String.length (s1 ++ s2) = String.length s1 + String.length s2.
Proof. induction s1 as [|a s1 IH]; simpl; [reflexivity|]. rewrite IH. reflexivity. Qed.

Lemma count_app c s1 s2 : Str.count c (s1 ++ s2) = Str.count c s1 + Str.count c s2.
Proof. induction s1 as [|a s1 IH]; simpl; [reflexivity|]. rewrite IH. lia. Qed.

Lemma str_app_inv_head (s a b : string) : s ++ a = s ++ b -> a = b.
Proof. induction s as [|x s IH]; simpl; [auto|]. intros [= H]. auto. Qed.

Lemma str_app_inv_tail (a b s : string) : a ++ s = b ++ s -> a = b.
Proof.
  revert b. induction a as [|x a IH]; intros [|y b]; simpl; intros H.
  - reflexivity.
  - exfalso. apply (f_equal String.length) in H. simpl in H.
    rewrite str_length_app in H. lia.
  - exfalso. apply (f_equal String.length) in H. simpl in H.
    rewrite str_length_app in H. lia.
  - injection H as -> H. f_equal. apply IH, H.
Qed.

Lemma drop_app_length s1 a s2 :
  Py.drop (S (String.length s1)) (s1 ++ String a s2) = s2.
Proof. induction s1 as [|b s1 IH]; simpl; [reflexivity|]. exact IH. Qed.

Lemma last_app_single s a : Str.last (s ++ String a EmptyString) = Some a.
Proof.
  induction s as [|b s IH]; simpl; [reflexivity|].
  rewrite IH. destruct (s ++ String a EmptyString) eqn:E; [|reflexivity].
  destruct s; discriminate.
Qed.

(** [rfind_from] returns the position of the last occurrence, if there is
    one, and the default otherwise. *)
Lemma rfind_from_spec c s i found :
  (Str.count c s = 0 /\ Py.rfind_from c s i found = found)
  \/ (exists s1 s2, s = s1 ++ String c s2 /\ Str.count c s2 = 0
        /\ Py.rfind_from c s i found = (i + Z.of_nat (String.length s1))%Z).
Proof.
  revert i found. induction s as [|a s IH]; intros i found; simpl.
  - left. auto.
  - destruct (IH (i + 1)%Z (if Ascii.eqb a c then i else found))
      as [[Hc Hr] | (s1 & s2 & Hs & Hc & Hr)].
    + destruct (Ascii.eqb_spec a c) as [->|Hne].
      * right. exists EmptyString, s. split; [reflexivity|]. split; [exact Hc|].
        rewrite Hr. cbn [String.length]. lia.
      * left. split; [exact Hc | exact Hr].
    + right. exists (String a s1), s2. split; [|split].
      * simpl. rewrite Hs. reflexivity.
      * exact Hc.
      * rewrite Hr. cbn [String.length]. lia.
Qed.

(** [basename] returns what follows the last slash. *)
Lemma basename_spec p :
  exists dir, p = dir ++ Py.basename p
    /\ Str.count "/" (Py.basename p) = 0
    /\ (dir = EmptyString \/ Py.endswith "/" dir = true).
Proof.
  unfold Py.basename, Py.rfind.
  destruct (rfind_from_spec "/" p 0 (-1)) as [[Hc Hr] | (s1 & s2 & Hs & Hc & Hr)];
    rewrite Hr.
  - exists EmptyString. simpl. auto.
  - exists (s1 ++ String "/" EmptyString).
    replace (Z.to_nat (0 + Z.of_nat (String.length s1) + 1)) with (S (String.length s1)) by lia.
    subst p. rewrite drop_app_length.
    split; [|split; [exact Hc|right]].
    + rewrite str_app_assoc. reflexivity.
    + unfold Py.endswith. rewrite last_app_single. reflexivity.
Qed.

(** [rstrip] removes a run of the character at the end, and all of it. *)
Lemma rstrip_spec c s :
  exists n, s = Py.rstrip c s ++ Str.replicate n c
    /\ Py.endswith c (Py.rstrip c s) = false.
Proof.
  induction s as [|a s (n & Hs & He)]; simpl.
  - exists 0. auto.
  - destruct (Py.rstrip c s) as [|b r] eqn:Er.
    + simpl in Hs. destruct (Ascii.eqb_spec a c) as [->|Hne].
      * exists (S n). simpl. split; [congruence | reflexivity].
      * exists n. simpl. split; [congruence|].
        unfold Py.endswith. simpl. apply Ascii.eqb_neq. exact Hne.
    + exists n. split; [simpl in *; congruence|].
      unfold Py.endswith in *. simpl in *. exact He.
Qed.

(** The three ways a call of [upload_to_s3] goes. *)
Lemma upload_to_s3_cases w local_path bucket prefix st :
  let key := upload_key local_path prefix in
  match files st !! local_path with
  | None =>
      upload_to_s3 w local_path bucket prefix st
      = (mkState (files st) (objects st)
           (log st ++ [EvUploadFile local_path bucket key])%list,
         Raise (OtherError "FileNotFoundError"))
  | Some data =>
      match s3_upload_file w st local_path bucket key with
      | Some e =>
          upload_to_s3 w local_path bucket prefix st
          = (mkState (files st) (objects st)
               (log st ++ EvUploadFile local_path bucket key :: error_report e)%list,
             Raise e)
      | None =>
          upload_to_s3 w local_path bucket prefix st
          = (mkState (files st) (<[(bucket, key) := data]> (objects st))
               (log st ++ [EvUploadFile local_path bucket key;
                           EvPrint stdout (MsgUploaded bucket key)])%list,
             Return key)
      end
  end.
Proof.
  intros key. unfold upload_to_s3, upload_file. fold key.
  destruct (files st !! local_path) as [data|]; [|reflexivity].
  destruct (s3_upload_file w st local_path bucket key) as [e|].
  - destruct e; unfold bind, print, emit, raise; cbn [fst snd files objects log error_report];
      rewrite <- ?app_assoc; reflexivity.
  - unfold bind, print, emit, ret. cbn [fst snd files objects log].
    rewrite <- app_assoc. reflexivity.
Qed.

(** C7: the destination key.  The local path splits as a directory part,
    empty or ending in a slash, and a base name without any slash.  With a
    non-empty prefix, itself a stem not ending in a slash followed by some
    slashes, the key is the stem, one slash and the base name; with an empty
    or absent prefix the key is the base name.  That key is the one handed to
    the storage service and returned to the caller. *)
Theorem upload_key_computation (local_path : string) (prefix : option string) :
  (exists dir base,
      local_path = dir ++ base
      /\ Str.count "/" base = 0
      /\ (dir = EmptyString \/ Py.endswith "/" dir = true)
      /\ match prefix with
         | Some (String a p') =>
             exists stem n,
               String a p' = stem ++ Str.replicate n "/"
               /\ Py.endswith "/" stem = false
               /\ upload_key local_path prefix = stem ++ "/" ++ base
         | Some EmptyString | None => upload_key local_path prefix = base
         end)
  /\ (forall w bucket st,
        exists evs,
          log (fst (upload_to_s3 w local_path bucket prefix st))
          = (log st ++ EvUploadFile local_path bucket (upload_key local_path prefix) :: evs)%list
          /\ forall k, snd (upload_to_s3 w local_path bucket prefix st) = Return k ->
                       k = upload_key local_path prefix)
  /\ upload_key "users_20240101T000000Z.ndjson" (Some "backups/")
     = "backups/users_20240101T000000Z.ndjson"
  /\ upload_key "/app/out/users_20240101T000000Z.ndjson" (Some "backups/")
     = "backups/users_20240101T000000Z.ndjson"
  /\ upload_key "/app/out/users_20240101T000000Z.ndjson" None
     = "users_20240101T000000Z.ndjson".
Proof.
  split; [|split; [|repeat split]].
  - destruct (basename_spec local_path) as (dir & Hp & Hc & Hd).
    exists dir, (Py.basename local_path). repeat split; try assumption.
    destruct prefix as [[|a p']|]; try reflexivity.
    destruct (rstrip_spec "/" (String a p')) as (n & Hs & He).
    exists (Py.rstrip "/" (String a p')), n. repeat split; assumption.
  - intros w bucket st.
    pose proof (upload_to_s3_cases w local_path bucket prefix st) as H. cbv zeta in H.
    destruct (files st !! local_path) as [data|].
    + destruct (s3_upload_file w st local_path bucket _) as [e|]; rewrite H; cbn [fst snd log].
      * eexists. split; [reflexivity|]. discriminate.
      * eexists. split; [reflexivity|]. congruence.
    + rewrite H. cbn [fst snd log]. eexists. split; [reflexivity|]. discriminate.
Qed.

(** ** The orchestrator: uploading *)

Lemma for_each_app {A} (l1 l2 : list A) (body : A -> M unit) st :
  for_each (l1 ++ l2)%list body st
  = match for_each l1 body st with
    | (st1, Return _) => for_each l2 body st1
    | (st1, Raise e) => (st1, Raise e)
    | (st1, Exit code) => (st1, Exit code)
    end.
Proof.
  revert st. induction l1 as [|x l1 IH]; intros st; simpl; [reflexivity|].
  unfold bind. destruct (body x st) as [st1 [[]|e|code]]; [apply IH | reflexivity..].
Qed.

(** Every outcome of one call of [upload_to_s3]: local files are not
    touched, no object disappears from the bucket, a normal return has
    stored the object under the computed key, and an exception is the one
    the service (or the missing file) raised, with the bucket unchanged. *)
Lemma upload_to_s3_inv w local_path bucket prefix st st' r :
  upload_to_s3 w local_path bucket prefix st = (st', r) ->
  let key := upload_key local_path prefix in
  files st' = files st
  /\ (forall k, is_Some (objects st !! k) -> is_Some (objects st' !! k))
  /\ match r with
     | Return k =>
         k = key
         /\ objects st' !! (bucket, key) = files st !! local_path
         /\ is_Some (objects st' !! (bucket, key))
         /\ log st' = (log st ++ [EvUploadFile local_path bucket key;
                                  EvPrint stdout (MsgUploaded bucket key)])%list
     | Raise e =>
         objects st' = objects st
         /\ log st' = (log st ++ EvUploadFile local_path bucket key :: error_report e)%list
         /\ ((files st !! local_path = None /\ e = OtherError "FileNotFoundError")
             \/ s3_upload_file w st local_path bucket key = Some e)
     | Exit _ => False
     end.
Proof.
  intros H key.
  pose proof (upload_to_s3_cases w local_path bucket prefix st) as C.
  cbv zeta in C. fold key in C.
  destruct (files st !! local_path) as [data|] eqn:Ef.
  - destruct (s3_upload_file w st local_path bucket key) as [e|] eqn:Es;
      rewrite C in H; injection H as <- <-; cbn [files objects log].
    + repeat split; auto.
    + split; [reflexivity|]. split.
      * intros k Hk. destruct (decide ((bucket, key) = k)) as [<-|Hne].
        -- rewrite lookup_insert_eq. eauto.
        -- rewrite lookup_insert_ne by exact Hne. exact Hk.
      * rewrite lookup_insert_eq. repeat split; eauto.
  - rewrite C in H. injection H as <- <-. cbn [files objects log error_report].
    repeat split; auto.
Qed.

Section Uploading.
Variable cfg : config.
Variable w : world.

Let bucket := S3_BUCKET cfg.
Let prefix := Some (S3_PREFIX cfg).

(** After a loop of uploads that all went well, every one of the files has
    its object in the bucket, nothing was removed and the disk is as it
    was. *)
Lemma upload_all_done (l : list string) st st1 :
  upload_all cfg w l st = (st1, Return tt) ->
  files st1 = files st
  /\ (forall k, is_Some (objects st !! k) -> is_Some (objects st1 !! k))
  /\ (forall p, In p l -> is_Some (objects st1 !! (bucket, upload_key p prefix))).
Proof.
  unfold upload_all. revert st. induction l as [|x l IH]; intros st; simpl.
  - intros [= <-]. repeat split; auto. intros p [].
  - unfold bind at 1 2.
    destruct (upload_to_s3 w x (S3_BUCKET cfg) (Some (S3_PREFIX cfg)) st)
      as [sx [k|e|code]] eqn:Ex; try discriminate.
    unfold ret at 1. intros Hrest.
    apply upload_to_s3_inv in Ex as (Hf & Hmono & _ & _ & Hin & _).
    destruct (IH _ Hrest) as (Hf' & Hmono' & Hall).
    split; [congruence|]. split; [auto|].
    intros p [<-|Hp]; [apply Hmono', Hin | apply Hall, Hp].
Qed.


End Uploading.


(** ** The JSON encoder: shape of its output *)

Lemma all_app p s1 s2 : Str.all p (s1 ++ s2) = Str.all p s1 && Str.all p s2.
Proof.
  induction s1 as [|a s1 IH]; simpl; [reflexivity|].
  rewrite IH, andb_assoc. reflexivity.
Qed.

Lemma all_impl (p q : ascii -> bool) s :
  (forall a, p a = true -> q a = true) -> Str.all p s = true -> Str.all q s = true.
Proof.
  intros Hpq. induction s as [|a s IH]; simpl; [reflexivity|].
  intros [Ha Hs]%andb_true_iff. rewrite (Hpq a Ha), IH; auto.
Qed.

Lemma digit_not_c0 a : Json.is_digit a = true -> Str.not_c0 a = true.
Proof.
  unfold Json.is_digit, Str.not_c0.
  intros [H1 H2]%andb_true_iff. apply N.leb_le in H1. apply N.leb_le. lia.
Qed.

Lemma string_of_uint_digits u : Str.all Json.is_digit (NilEmpty.string_of_uint u) = true.
Proof. induction u; simpl; auto. Qed.

Lemma int_str_not_c0 n : Str.all Str.not_c0 (Py.int_str n) = true.
Proof.
  unfold Py.int_str. destruct (Z.to_int n) as [u|u]; simpl.
  - eapply all_impl; [apply digit_not_c0 | apply string_of_uint_digits].
  - eapply all_impl; [apply digit_not_c0 | apply string_of_uint_digits].
Qed.

Lemma escape_char_not_c0 a : Str.all Str.not_c0 (Json.escape_char a) = true.
Proof. destruct a as [[] [] [] [] [] [] [] []]; vm_compute; reflexivity. Qed.

Lemma escape_not_c0 s : Str.all Str.not_c0 (Json.escape s) = true.
Proof.
  induction s as [|a s IH]; simpl; [reflexivity|].
  rewrite all_app, escape_char_not_c0, IH. reflexivity.
Qed.

Lemma encode_basestring_not_c0 s :
  Str.all Str.not_c0 (Json.encode_basestring s) = true.
Proof.
  unfold Json.encode_basestring. cbn [Str.all].
  rewrite all_app, escape_not_c0. reflexivity.
Qed.

Lemma concat_not_c0 ss :
  Forall (fun s => Str.all Str.not_c0 s = true) ss ->
  Str.all Str.not_c0 (String.concat ", " ss) = true.
Proof.
  induction 1 as [|s ss Hs Hss IH]; [reflexivity|].
  destruct ss as [|s' ss]; [exact Hs|].
  change (String.concat ", " (s :: s' :: ss))
    with (s ++ ", " ++ String.concat ", " (s' :: ss)).
  rewrite !all_app, Hs, IH. reflexivity.
Qed.

(** The chunks of a container come from its elements, one each, in order. *)
Lemma parts_inl {A} (enc : A -> Json.encoded) l ss :
  Json.parts enc l = inl ss -> Forall2 (fun x s => enc x = Json.Text s) l ss.
Proof.
  revert ss. induction l as [|x l IH]; simpl; intros ss.
  - intros [= <-]. constructor.
  - destruct (enc x) as [s|t] eqn:Ex; [|discriminate].
    destruct (Json.parts enc l) as [ss'|t]; [|discriminate].
    intros [= <-]. constructor; auto.
Qed.

Lemma bracket_text o c ps s :
  Json.bracket o c ps = Json.Text s ->
  exists ss, ps = inl ss /\ s = o ++ String.concat ", " ss ++ c.
Proof. destruct ps as [ss|t]; simpl; [|discriminate]. intros [= <-]. eauto. Qed.

Lemma uint_str_not_c0 u : Str.all Str.not_c0 (NilEmpty.string_of_uint u) = true.
Proof. eapply all_impl; [apply digit_not_c0 | apply string_of_uint_digits]. Qed.

Lemma int_text_not_c0 i : Str.all Str.not_c0 (NilEmpty.string_of_int i) = true.
Proof. destruct i as [u|u]; simpl; apply uint_str_not_c0. Qed.

Lemma float_repr_not_c0 d : Str.all Str.not_c0 (Py.float_repr d) = true.
Proof.
  destruct d as [i f|i f e]; unfold Py.float_repr.
  - rewrite all_app, int_text_not_c0. simpl. apply uint_str_not_c0.
  - rewrite !all_app, int_text_not_c0.
    assert (Hf : Str.all Str.not_c0 (Py.fraction_str f) = true).
    { pose proof (uint_str_not_c0 f) as H. destruct f; simpl in *; try reflexivity; exact H. }
    rewrite Hf. destruct e as [u|u]; simpl; apply uint_str_not_c0.
Qed.

Lemma floatstr_not_c0 x : Str.all Str.not_c0 (Json.floatstr x) = true.
Proof. destruct x; try reflexivity. apply float_repr_not_c0. Qed.

(** The text of a value has no character below U+0020 in it: in particular
    no line feed and no carriage return. *)
Lemma encode_not_c0 v s :
  Json.encode v = Json.Text s -> Str.all Str.not_c0 s = true.
Proof.
  revert s. induction v using value_tree_ind; intros txt.
  - intros [= <-]. reflexivity.
  - destruct b; intros [= <-]; reflexivity.
  - intros [= <-]. apply int_str_not_c0.
  - intros [= <-]. apply floatstr_not_c0.
  - intros [= <-]. apply encode_basestring_not_c0.
  - discriminate.
  - discriminate.
  - cbn [Json.encode]. intros (ss & Hps & ->)%bracket_text.
    apply parts_inl in Hps.
    rewrite !all_app, concat_not_c0; [reflexivity|].
    clear -H Hps. induction Hps as [|kv s1 d ss Hkv _ IH]; [constructor|].
    inversion H as [|? ? Hx Hd]; subst. constructor; [|apply IH, Hd].
    cbv beta in Hkv.
    destruct (Json.encode (snd kv)) as [sv|] eqn:Ev; [|discriminate].
    cbn [Json.and_then] in Hkv. injection Hkv as <-.
    cbn [Str.all]. rewrite !all_app. cbn [Str.all].
    rewrite escape_not_c0, (Hx sv eq_refl). reflexivity.
  - cbn [Json.encode]. intros (ss & Hps & ->)%bracket_text.
    apply parts_inl in Hps.
    rewrite !all_app, concat_not_c0; [reflexivity|].
    clear -H Hps. induction Hps as [|x s1 l ss Hx' _ IH]; [constructor|].
    inversion H as [|? ? Hx Hl]; subst. constructor; [|apply IH, Hl].
    apply Hx, Hx'.
Qed.

(** ** Reading back what the encoder wrote *)

(** The digits at the head of a text that goes on with something else. *)
Lemma span_digits_then ds rest :
  Str.all Json.is_digit ds = true ->
  match rest with String b _ => Json.is_digit b = false | EmptyString => True end ->
  Json.span_digits (ds ++ rest) = (ds, rest).
Proof.
  intros Hds Hrest. induction ds as [|a ds IH]; simpl.
  - destruct rest as [|b rest]; [reflexivity|]. simpl. rewrite Hrest. reflexivity.
  - simpl in Hds. apply andb_true_iff in Hds as [Ha Hds].
    rewrite Ha, (IH Hds). reflexivity.
Qed.

Lemma number_tail_no_digit rest :
  Json.starts_number_tail rest = false ->
  match rest with String b _ => Json.is_digit b = false | EmptyString => True end.
Proof.
  destruct rest as [|b rest]; [trivial|]. simpl. intros H.
  apply orb_false_elim in H as [H _]. apply orb_false_elim in H as [H _].
  apply orb_false_elim in H as [H _]. exact H.
Qed.

Lemma number_tail_no_e rest :
  Json.starts_number_tail rest = false ->
  match rest with String b _ => Json.is_e b = false | EmptyString => True end.
Proof.
  destruct rest as [|b rest]; [trivial|]. simpl. intros H. unfold Json.is_e.
  apply orb_false_elim in H as [H HE]. apply orb_false_elim in H as [_ He].
  rewrite He, HE. reflexivity.
Qed.

Lemma span_digits_app ds rest :
  Str.all Json.is_digit ds = true ->
  Json.starts_number_tail rest = false ->
  Json.span_digits (ds ++ rest) = (ds, rest).
Proof.
  intros Hds Hrest. apply span_digits_then; [exact Hds|].
  apply number_tail_no_digit, Hrest.
Qed.

(** The decimal digits of a positive number do not start with a zero. *)
Lemma to_uint_no_leading_zero p d : Pos.to_uint p <> Decimal.D0 d.
Proof.
  intros E.
  pose proof (DecimalPos.Unsigned.to_of (Pos.to_uint p)) as H.
  rewrite DecimalPos.Unsigned.of_to in H. simpl in H.
  rewrite E in H. unfold Decimal.unorm in H.
  destruct (Decimal.nzhead (Decimal.D0 d)) eqn:En;
    try (symmetry in H; exact (DecimalFacts.nzhead_nonzero _ _ (eq_trans En H))).
  - injection H as ->. apply (DecimalPos.Unsigned.to_uint_nonzero p). exact E.
Qed.

Lemma parse_digits_pos p rest :
  Json.starts_number_tail rest = false ->
  Json.parse_digits (NilEmpty.string_of_uint (Pos.to_uint p) ++ rest)
  = Some (Zpos p, rest).
Proof.
  intros Hrest. unfold Json.parse_digits.
  rewrite span_digits_app by (auto using string_of_uint_digits).
  pose proof (to_uint_no_leading_zero p) as Hnz.
  pose proof (DecimalPos.Unsigned.to_uint_nonnil p) as Hnn.
  pose proof (NilEmpty.usu (Pos.to_uint p)) as Husu.
  pose proof (DecimalPos.Unsigned.of_to p) as Hof.
  destruct (Pos.to_uint p) as [|d|d|d|d|d|d|d|d|d|d] eqn:E;
    try congruence; try (exfalso; eapply Hnz; reflexivity);
    cbn [NilEmpty.string_of_uint Ascii.eqb Bool.eqb andb] in *.
  all: rewrite Hrest, Husu; unfold Z.of_uint; rewrite Hof; reflexivity.
Qed.

Lemma parse_int_int_str n rest :
  Json.starts_number_tail rest = false ->
  Json.parse_int (Py.int_str n ++ rest) = Some (n, rest).
Proof.
  intros Hrest. unfold Py.int_str. destruct n as [|p|p]; cbn [Z.to_int NilEmpty.string_of_int].
  - change (Json.parse_int ("0" ++ rest) = Some (0%Z, rest)).
    cbn [String.append Json.parse_int Ascii.eqb Bool.eqb andb].
    unfold Json.parse_digits. change (String "0" rest) with ("0" ++ rest).
    rewrite span_digits_app by auto.
    cbn [Ascii.eqb Bool.eqb andb Str.truthy]. rewrite Hrest. reflexivity.
  - pose proof (parse_digits_pos p rest Hrest) as H.
    pose proof (string_of_uint_digits (Pos.to_uint p)) as Hd.
    pose proof (DecimalPos.Unsigned.to_uint_nonnil p) as Hnn.
    destruct (NilEmpty.string_of_uint (Pos.to_uint p)) as [|a s] eqn:E.
    + destruct (Pos.to_uint p); simpl in E; congruence.
    + simpl in Hd. apply andb_true_iff in Hd as [Ha _].
      cbn [String.append Json.parse_int].
      destruct (Ascii.eqb_spec a "-") as [->|_]; [discriminate Ha|].
      exact H.
  - cbn [String.append Json.parse_int Ascii.eqb Bool.eqb].
    rewrite parse_digits_pos by exact Hrest. reflexivity.
Qed.

(** Reading one escaped character gives the character back. *)
Lemma parse_chars_escape_char a tail :
  Json.parse_chars (Json.escape_char a ++ tail)
  = Json.prepend (String a EmptyString) (Json.parse_chars tail).
Proof. destruct a as [[] [] [] [] [] [] [] []]; reflexivity. Qed.

Lemma parse_chars_escape s rest :
  Json.parse_chars (Json.escape s ++ String Json.dquote rest) = Some (s, rest).
Proof.
  induction s as [|a s IH]; [reflexivity|].
  cbn [Json.escape]. rewrite str_app_assoc, parse_chars_escape_char, IH.
  reflexivity.
Qed.

(** A string literal followed by anything. *)
Lemma parse_chars_basestring s rest :
  exists body,
    Json.encode_basestring s ++ rest = String Json.dquote body
    /\ Json.parse_chars body = Some (s, rest).
Proof.
  exists (Json.escape s ++ String Json.dquote rest). split.
  - unfold Json.encode_basestring. cbn [String.append].
    rewrite str_app_assoc. reflexivity.
  - apply parse_chars_escape.
Qed.

Lemma int_str_head n :
  exists a s, Py.int_str n = String a s
              /\ (a = "-"%char \/ Json.is_digit a = true).
Proof.
  unfold Py.int_str.
  destruct n as [|p|p]; cbn [Z.to_int NilEmpty.string_of_int].
  - exists "0"%char, EmptyString. split; [reflexivity | right; reflexivity].
  - pose proof (string_of_uint_digits (Pos.to_uint p)) as Hd.
    pose proof (DecimalPos.Unsigned.to_uint_nonnil p) as Hnn.
    destruct (NilEmpty.string_of_uint (Pos.to_uint p)) as [|a s] eqn:E.
    + destruct (Pos.to_uint p); simpl in E; congruence.
    + simpl in Hd. apply andb_true_iff in Hd as [Ha _]. eauto.
  - eauto.
Qed.

Lemma digit_opens_value a :
  a = "-"%char \/ Json.is_digit a = true -> opens_value a = true.
Proof.
  intros [->|Ha]; [reflexivity|].
  destruct a as [[] [] [] [] [] [] [] []]; try discriminate Ha; reflexivity.
Qed.

(** What the text of a float can start with. *)
Lemma number_char_opens_value a :
  Json.is_digit a = true \/ a = "-"%char \/ a = "."%char \/ a = "e"%char ->
  opens_value a = true.
Proof.
  intros [Ha | [-> | [-> | ->]]]; [|reflexivity..].
  apply digit_opens_value. right. exact Ha.
Qed.

Lemma uint_str_head u rest c :
  (Json.is_digit c = true \/ c = "-"%char \/ c = "."%char \/ c = "e"%char) ->
  exists a s, NilEmpty.string_of_uint u ++ String c rest = String a s
              /\ (Json.is_digit a = true \/ a = "-"%char \/ a = "."%char \/ a = "e"%char).
Proof.
  intros Hc. pose proof (string_of_uint_digits u) as Hd.
  destruct (NilEmpty.string_of_uint u) as [|a s]; [simpl; eauto|].
  simpl in Hd. apply andb_true_iff in Hd as [Ha _]. simpl. eauto.
Qed.

Lemma float_repr_opens d :
  exists a s, Py.float_repr d = String a s /\ opens_value a = true.
Proof.
  assert (H : exists a s, Py.float_repr d = String a s
              /\ (Json.is_digit a = true \/ a = "-"%char \/ a = "."%char \/ a = "e"%char)).
  { destruct d as [[u|u] f|[u|u] f e]; unfold Py.float_repr; cbn [NilEmpty.string_of_int].
    - apply uint_str_head. auto.
    - simpl. eauto 6.
    - destruct f; cbn [Py.fraction_str String.append]; apply uint_str_head; auto.
    - simpl. eauto 6. }
  destruct H as (a & s & E & Ha). exists a, s. split; [exact E|].
  apply number_char_opens_value, Ha.
Qed.

Lemma encode_head v s :
  Json.encode v = Json.Text s ->
  exists a s', s = String a s' /\ opens_value a = true.
Proof.
  destruct v as [|[]|n|x|t| | |d|l]; cbn [Json.encode]; try discriminate.
  - intros [= <-]. eexists _, _. split; reflexivity.
  - intros [= <-]. eexists _, _. split; reflexivity.
  - intros [= <-]. eexists _, _. split; reflexivity.
  - intros [= <-]. destruct (int_str_head n) as (a & s' & E & Ha).
    exists a, s'. split; [exact E | apply digit_opens_value, Ha].
  - intros [= <-]. destruct x; cbn [Json.floatstr];
      [eexists _, _; split; reflexivity.. | apply float_repr_opens].
  - intros [= <-]. eexists _, _. split; reflexivity.
  - intros (ss & _ & ->)%bracket_text. eexists _, _. split; reflexivity.
  - intros (ss & _ & ->)%bracket_text. eexists _, _. split; reflexivity.
Qed.

Lemma skip_ws_opens a s : opens_value a = true -> Json.skip_ws (String a s) = String a s.
Proof.
  unfold opens_value. intros H. cbn [Json.skip_ws].
  destruct (Json.is_ws a); [discriminate|reflexivity].
Qed.

Ltac js :=
  cbn [Json.parse_value Json.parse_elements Json.parse_members Json.skip_ws
       Json.is_ws Json.after_word Ascii.eqb Bool.eqb orb andb negb Json.dquote
       String.append].

Lemma parse_value_space fuel s :
  Json.parse_value fuel (String " " s) = Json.parse_value fuel s.
Proof. destruct fuel; reflexivity. Qed.

Lemma parse_members_space fuel s :
  Json.parse_members fuel (String " " s) = Json.parse_members fuel s.
Proof. destruct fuel; reflexivity. Qed.

Lemma parse_elements_space fuel s :
  Json.parse_elements fuel (String " " s) = Json.parse_elements fuel s.
Proof. destruct fuel; [reflexivity|]. js. rewrite parse_value_space. reflexivity. Qed.

Lemma parse_value_number n a s :
  a = "-"%char \/ Json.is_digit a = true ->
  Json.parse_value (S n) (String a s)
  = match Json.parse_int (String a s) with
    | Some (z, rest) => Some (VInt z, rest)
    | None =>
        match Json.parse_float (String a s) with
        | Some (d, rest) => Some (VFloat (Finite d), rest)
        | None => None
        end
    end.
Proof.
  intros [->|Ha]; [reflexivity|].
  destruct a as [[] [] [] [] [] [] [] []]; try discriminate Ha; reflexivity.
Qed.

Lemma concat_cons2 sep (s s' : string) ss :
  String.concat sep (s :: s' :: ss) = s ++ sep ++ String.concat sep (s' :: ss).
Proof. reflexivity. Qed.

Lemma elements_read_back l ss :
  Forall reads_back l ->
  forallb finite_doubles l = true ->
  Forall2 (fun x s => Json.encode x = Json.Text s) l ss ->
  l <> [] ->
  forall fuel rest,
    list_sum (map (fun x => S (weight x)) l) <= fuel ->
    Json.parse_elements fuel (String.concat ", " ss ++ String "]" rest) = Some (l, rest).
Proof.
  intros Hall Hfin Henc. induction Henc as [|x sx l ss Hx Hrest IH]; [congruence|].
  intros _ fuel rest Hfuel. inversion Hall as [|? ? Hrx Hrl]; subst.
  cbn [forallb] in Hfin. apply andb_true_iff in Hfin as [Hfx Hfl].
  cbn [map list_sum] in Hfuel.
  destruct fuel as [|n]; [simpl in Hfuel; lia|]. js.
  destruct Hrest as [|x' sx' l' ss' Hx' Hrest'].
  - cbn [String.concat].
    rewrite (Hrx sx n (String "]" rest) Hfx Hx) by (simpl in *; auto; lia).
    js. reflexivity.
  - rewrite concat_cons2, str_app_assoc, str_app_assoc.
    rewrite (Hrx sx n _ Hfx Hx) by (simpl in *; auto; lia).
    js. rewrite parse_elements_space.
    rewrite IH; [reflexivity | exact Hrl | exact Hfl | discriminate | simpl in *; lia].
Qed.

Lemma members_read_back (d : list (string * value)) ss :
  Forall (fun kv => reads_back (snd kv)) d ->
  forallb (fun kv => finite_doubles (snd kv)) d = true ->
  Forall2 (fun kv s =>
             Json.and_then (Json.encode (snd kv))
               (fun sv => Json.Text (Json.encode_basestring (fst kv) ++ ": " ++ sv))
             = Json.Text s) d ss ->
  d <> [] ->
  forall fuel rest,
    list_sum (map (fun kv => S (weight (snd kv))) d) <= fuel ->
    Json.parse_members fuel (String.concat ", " ss ++ String "}" rest) = Some (d, rest).
Proof.
  intros Hall Hfin Henc. induction Henc as [|kv skv d ss Hkv Hrest IH]; [congruence|].
  intros _ fuel rest Hfuel. inversion Hall as [|? ? Hrx Hrl]; subst.
  cbn [forallb] in Hfin. apply andb_true_iff in Hfin as [Hfx Hfl].
  simpl in Hfuel.
  destruct fuel as [|n]; [lia|].
  destruct (Json.encode (snd kv)) as [sv|] eqn:Ev; [|discriminate].
  cbn [Json.and_then] in Hkv. injection Hkv as <-.
  assert (Hmember : forall tail,
    Json.starts_number_tail tail = false ->
    Json.parse_members (S n)
      ((Json.encode_basestring (fst kv) ++ ": " ++ sv) ++ tail)
    = match Json.skip_ws tail with
      | EmptyString => None
      | String c' r3 =>
          if Ascii.eqb c' ","
          then match Json.parse_members n r3 with
               | Some (d, rest) => Some ((fst kv, snd kv) :: d, rest)
               | None => None
               end
          else if Ascii.eqb c' "}" then Some ([(fst kv, snd kv)], r3) else None
      end).
  { intros tail Htail.
    destruct (parse_chars_basestring (fst kv) (": " ++ sv ++ tail)) as (body & Eb & Hb).
    rewrite !str_app_assoc, Eb. js. rewrite Hb. js.
    rewrite parse_value_space.
    rewrite (Hrx sv n tail Hfx Ev) by (auto; lia). reflexivity. }
  destruct Hrest as [|kv' skv' d' ss' Hkv' Hrest'].
  - cbn [String.concat]. rewrite Hmember by reflexivity. js.
    destruct kv; reflexivity.
  - rewrite concat_cons2.
    rewrite (str_app_assoc (Json.encode_basestring (fst kv) ++ ": " ++ sv)).
    rewrite Hmember by reflexivity. js.
    rewrite parse_members_space.
    rewrite IH;
      [destruct kv; reflexivity | exact Hrl | exact Hfl | discriminate | simpl in *; lia].
Qed.

(** *** The text of a finite float *)

Lemma uint_str_nonempty u :
  Str.truthy (NilEmpty.string_of_uint u) = true ->
  exists a s, NilEmpty.string_of_uint u = String a s /\ Json.is_digit a = true.
Proof.
  pose proof (string_of_uint_digits u) as Hd.
  destruct (NilEmpty.string_of_uint u) as [|a s]; [discriminate|].
  simpl in Hd. apply andb_true_iff in Hd as [Ha _]. eauto.
Qed.

Lemma int_part_nonempty ds : Json.int_part_ok ds = true -> Str.truthy ds = true.
Proof. destruct ds; [discriminate | reflexivity]. Qed.

Lemma digit_not_minus a : Json.is_digit a = true -> Ascii.eqb a "-" = false.
Proof. destruct a as [[] [] [] [] [] [] [] []]; try discriminate; reflexivity. Qed.

(** The exponent of a float text followed by anything that is not a
    digit. *)
Lemma parse_exponent_str e rest :
  Str.truthy (NilEmpty.string_of_uint (Decimal.abs e)) = true ->
  match rest with String b _ => Json.is_digit b = false | EmptyString => True end ->
  Json.parse_exponent (Py.exponent_str e ++ rest) = Some (e, rest).
Proof.
  intros Hne Hrest.
  destruct e as [u|u]; cbn [Decimal.abs] in Hne;
    destruct (uint_str_nonempty u Hne) as (a & ds & E & Ha);
    unfold Py.exponent_str, Json.parse_exponent;
    cbn [String.append Ascii.eqb Bool.eqb orb];
    rewrite span_digits_then by (auto using string_of_uint_digits);
    rewrite E at 1; rewrite NilEmpty.usu; reflexivity.
Qed.

(** The digits, fraction and exponent of a float text, read after the sign. *)
Lemma parse_unsigned_float_repr (negative : bool) u f (tail rest : string) d :
  Json.int_part_ok (NilEmpty.string_of_uint u) = true ->
  Json.starts_number_tail rest = false ->
  (tail = "." ++ NilEmpty.string_of_uint f
   /\ Str.truthy (NilEmpty.string_of_uint f) = true
   /\ d = Decimal.Decimal (if negative then Decimal.Neg u else Decimal.Pos u) f)
  \/ (exists e,
        tail = Py.fraction_str f ++ "e" ++ Py.exponent_str e
        /\ Str.truthy (NilEmpty.string_of_uint (Decimal.abs e)) = true
        /\ d = Decimal.DecimalExp (if negative then Decimal.Neg u else Decimal.Pos u) f e) ->
  Json.parse_unsigned_float negative (NilEmpty.string_of_uint u ++ tail ++ rest)
  = Some (d, rest).
Proof.
  intros Hip Hrest Hshape.
  pose proof (number_tail_no_digit rest Hrest) as Hnd.
  pose proof (number_tail_no_e rest Hrest) as Hne.
  unfold Json.parse_unsigned_float.
  destruct Hshape as [(-> & Hf & ->) | (e & -> & He & ->)].
  - rewrite span_digits_then by (auto using string_of_uint_digits; reflexivity).
    rewrite Hip, NilEmpty.usu. cbn [String.append Ascii.eqb Bool.eqb].
    rewrite span_digits_then by (auto using string_of_uint_digits).
    destruct (uint_str_nonempty f Hf) as (a & ds & E & _).
    rewrite E at 1. rewrite NilEmpty.usu.
    destruct rest as [|b rest]; [reflexivity|]. rewrite Hne. reflexivity.
  - destruct (NilEmpty.string_of_uint f) as [|a ds] eqn:Ef.
    + assert (f = Decimal.Nil) as -> by (destruct f; simpl in Ef; congruence).
      cbn [Py.fraction_str String.append].
      rewrite span_digits_then by (auto using string_of_uint_digits; reflexivity).
      rewrite Hip, NilEmpty.usu. cbn [Ascii.eqb Bool.eqb Json.is_e orb].
      rewrite parse_exponent_str by assumption. reflexivity.
    + assert (Hfs : Py.fraction_str f = "." ++ NilEmpty.string_of_uint f)
        by (destruct f; simpl in Ef; try discriminate; reflexivity).
      rewrite Hfs. rewrite !str_app_assoc. cbn [String.append].
      rewrite span_digits_then by (auto using string_of_uint_digits; reflexivity).
      rewrite Hip, NilEmpty.usu. cbn [Ascii.eqb Bool.eqb].
      rewrite span_digits_then by (auto using string_of_uint_digits; reflexivity).
      rewrite Ef at 1. rewrite NilEmpty.usu. cbn [Json.is_e Ascii.eqb Bool.eqb orb].
      rewrite parse_exponent_str by assumption. reflexivity.
Qed.

Lemma float_repr_split d :
  written_by_repr d = true ->
  exists (negative : bool) (u f : Decimal.uint) (tail : string),
    Py.float_repr d
    = (if negative then "-" else EmptyString) ++ NilEmpty.string_of_uint u ++ tail
    /\ Json.int_part_ok (NilEmpty.string_of_uint u) = true
    /\ (exists c t, tail = String c t /\ (c = "."%char \/ c = "e"%char))
    /\ ((tail = "." ++ NilEmpty.string_of_uint f
         /\ Str.truthy (NilEmpty.string_of_uint f) = true
         /\ d = Decimal.Decimal (if negative then Decimal.Neg u else Decimal.Pos u) f)
        \/ (exists e,
              tail = Py.fraction_str f ++ "e" ++ Py.exponent_str e
              /\ Str.truthy (NilEmpty.string_of_uint (Decimal.abs e)) = true
              /\ d = Decimal.DecimalExp
                       (if negative then Decimal.Neg u else Decimal.Pos u) f e)).
Proof.
  destruct d as [i f|i f e]; cbn [written_by_repr];
    intros [Hip Hx]%andb_true_iff.
  - exists (match i with Decimal.Neg _ => true | _ => false end), (Decimal.abs i), f,
      ("." ++ NilEmpty.string_of_uint f).
    destruct i as [u|u]; cbn [Decimal.abs Py.float_repr NilEmpty.string_of_int] in *.
    + repeat split; [exact Hip | eexists _, _; split; [reflexivity | auto] | auto].
    + repeat split; [exact Hip | eexists _, _; split; [reflexivity | auto] | auto].
  - exists (match i with Decimal.Neg _ => true | _ => false end), (Decimal.abs i), f,
      (Py.fraction_str f ++ "e" ++ Py.exponent_str e).
    assert (Ht : exists c t, Py.fraction_str f ++ "e" ++ Py.exponent_str e = String c t
                             /\ (c = "."%char \/ c = "e"%char)).
    { destruct f; cbn [Py.fraction_str String.append]; eexists _, _; split;
        try reflexivity; auto. }
    destruct i as [u|u]; cbn [Decimal.abs Py.float_repr NilEmpty.string_of_int] in *.
    + repeat split; [exact Hip | exact Ht | right; eauto].
    + repeat split; [exact Hip | exact Ht | right; eauto].
Qed.

(** The reader finds the float at the head of its text. *)
Lemma parse_value_float_repr d fuel rest :
  written_by_repr d = true ->
  Json.starts_number_tail rest = false ->
  Json.parse_value (S fuel) (Py.float_repr d ++ rest) = Some (VFloat (Finite d), rest).
Proof.
  intros Hd Hrest.
  destruct (float_repr_split d Hd) as (negative & u & f & tail & -> & Hip & Htail & Hshape).
  pose proof (parse_unsigned_float_repr negative u f tail rest d Hip Hrest Hshape) as Hp.
  destruct (uint_str_nonempty u (int_part_nonempty _ Hip)) as (a & ds & E & Ha).
  destruct Htail as (c & t & Etail & Hc).
  assert (Hint : Json.parse_digits (NilEmpty.string_of_uint u ++ tail ++ rest) = None).
  { unfold Json.parse_digits.
    rewrite span_digits_then; [|apply string_of_uint_digits|].
    - rewrite E at 1. rewrite Etail. cbn [String.append Json.starts_number_tail].
      destruct (Ascii.eqb a "0" && Str.truthy ds); [reflexivity|].
      destruct Hc as [-> | ->]; cbn; rewrite ?orb_true_r; reflexivity.
    - rewrite Etail. cbn [String.append]. destruct Hc as [-> | ->]; reflexivity. }
  rewrite !str_app_assoc.
  destruct negative; cbn [String.append].
  - rewrite parse_value_number by (left; reflexivity).
    cbn [Json.parse_int Json.parse_float Ascii.eqb Bool.eqb].
    rewrite Hint, Hp. reflexivity.
  - clear Hip. rewrite E in *. cbn [String.append] in *.
    rewrite parse_value_number by (right; exact Ha).
    cbn [Json.parse_int Json.parse_float]. rewrite (digit_not_minus a Ha).
    rewrite Hint, Hp. reflexivity.
Qed.

Lemma encode_reads_back v : reads_back v.
Proof.
  induction v using value_tree_ind; intros txt fuel rest Hfin Henc Hfuel Hrest;
    (destruct fuel as [|k]; [simpl in Hfuel; lia|]).
  - injection Henc as <-. reflexivity.
  - destruct b; injection Henc as <-; reflexivity.
  - injection Henc as <-.
    destruct (int_str_head n) as (a & s' & E & Ha).
    pose proof (parse_int_int_str n rest Hrest) as Hp.
    rewrite E in *. cbn [String.append] in *.
    rewrite parse_value_number by exact Ha. rewrite Hp. reflexivity.
  - injection Henc as <-. destruct x as [| | |d]; try discriminate Hfin.
    cbn [finite_doubles] in Hfin. cbn [Json.floatstr].
    apply parse_value_float_repr; assumption.
  - injection Henc as <-.
    destruct (parse_chars_basestring s rest) as (body & Eb & Hb).
    rewrite Eb. js. rewrite Hb. reflexivity.
  - discriminate.
  - discriminate.
  - cbn [Json.encode] in Henc. apply bracket_text in Henc as (ss & Hps & ->).
    apply parts_inl in Hps. js.
    destruct Hps as [|kv skv d ss Hkv Hps'].
    + reflexivity.
    + assert (Hm := members_read_back (kv :: d) (skv :: ss) H Hfin
                      ltac:(constructor; assumption) ltac:(discriminate) k rest).
      assert (Hq : exists b, skv = String Json.dquote b).
      { cbv beta in Hkv.
        destruct (Json.encode (snd kv)) as [sv|]; [|discriminate].
        cbn [Json.and_then] in Hkv. injection Hkv as <-.
        unfold Json.encode_basestring. cbn [String.append]. eauto. }
      rewrite str_app_assoc.
      assert (Hhead : exists body,
        String.concat ", " (skv :: ss) ++ "}" ++ rest = String Json.dquote body).
      { destruct Hq as (b & ->). destruct ss; cbn [String.concat]; js; eauto. }
      destruct Hhead as (body & Eb). rewrite Eb. js. rewrite <- Eb.
      change ("}" ++ rest) with (String "}" rest).
      rewrite Hm by (simpl in *; lia). reflexivity.
  - cbn [Json.encode] in Henc. apply bracket_text in Henc as (ss & Hps & ->).
    apply parts_inl in Hps. js.
    destruct Hps as [|x sx l ss Hx Hps'].
    + reflexivity.
    + assert (Hm := elements_read_back (x :: l) (sx :: ss) H Hfin
                      ltac:(constructor; assumption) ltac:(discriminate) k rest).
      destruct (encode_head x sx Hx) as (a & s' & -> & Ha).
      rewrite str_app_assoc.
      assert (Hhead : exists body,
        String.concat ", " (String a s' :: ss) ++ "]" ++ rest = String a body).
      { destruct ss; cbn [String.concat]; js; eauto. }
      destruct Hhead as (body & Eb). rewrite Eb.
      rewrite skip_ws_opens by exact Ha.
      unfold opens_value in Ha. apply andb_true_iff in Ha as [Ha _].
      apply andb_true_iff in Ha as [_ Ha]. apply negb_true_iff in Ha. rewrite Ha.
      rewrite <- Eb. change ("]" ++ rest) with (String "]" rest).
      rewrite Hm by (simpl in *; lia). reflexivity.
Qed.

Lemma sum_le_concat {A} (wt : A -> nat) (l : list A) (ss : list string) :
  Forall2 (fun x s => wt x <= String.length s) l ss ->
  list_sum (map (fun x => S (wt x)) l) <= S (String.length (String.concat ", " ss)).
Proof.
  induction 1 as [|x sx l ss Hx Hrest IH]; [simpl; lia|].
  destruct Hrest as [|x' sx' l' ss' Hx' Hrest'].
  - simpl. lia.
  - rewrite concat_cons2, !str_length_app.
    set (c := String.concat ", " (sx' :: ss')) in *.
    set (r := list_sum (map (fun x => S (wt x)) (x' :: l'))) in *.
    change (S (wt x) + r <= S (String.length sx + (2 + String.length c))). lia.
Qed.

Lemma length_member k sv :
  String.length sv <= String.length (Json.encode_basestring k ++ ": " ++ sv).
Proof. rewrite !str_length_app. lia. Qed.

(** The text of a value is at least as long as the fuel the reader needs. *)
Lemma weight_le_length v s :
  Json.encode v = Json.Text s -> weight v <= String.length s.
Proof.
  revert s. induction v using value_tree_ind; intros txt Henc;
    try (destruct (encode_head _ _ Henc) as (a & s' & -> & _); simpl; lia).
  - cbn [Json.encode] in Henc. apply bracket_text in Henc as (ss & Hps & ->).
    apply parts_inl in Hps. rewrite !str_length_app. cbn [weight].
    assert (Hsum : list_sum (map (fun kv => S (weight (snd kv))) d)
                   <= S (String.length (String.concat ", " ss))).
    { apply sum_le_concat. clear -H Hps.
      induction Hps as [|kv skv d ss Hkv _ IH]; [constructor|].
      inversion H as [|? ? Hx Hd]; subst. constructor; [|apply IH, Hd].
      cbv beta in Hkv. destruct (Json.encode (snd kv)) as [sv|] eqn:Ev; [|discriminate].
      cbn [Json.and_then] in Hkv. injection Hkv as <-.
      specialize (Hx sv eq_refl).
      eapply Nat.le_trans; [exact Hx | apply length_member]. }
    simpl String.length. lia.
  - cbn [Json.encode] in Henc. apply bracket_text in Henc as (ss & Hps & ->).
    apply parts_inl in Hps. rewrite !str_length_app. cbn [weight].
    assert (Hsum : list_sum (map (fun x => S (weight x)) l)
                   <= S (String.length (String.concat ", " ss))).
    { apply sum_le_concat. clear -H Hps.
      induction Hps as [|x sx l ss Hx' _ IH]; [constructor|].
      inversion H as [|? ? Hx Hl]; subst. constructor; [|apply IH, Hl].
      apply Hx, Hx'. }
    simpl String.length. lia.
Qed.

(** Reading the text of a value without [NaN] or infinity gives the value
    back. *)
Lemma loads_encode v s :
  finite_doubles v = true -> Json.encode v = Json.Text s -> Json.loads s = Some v.
Proof.
  intros Hfin Henc. unfold Json.loads.
  pose proof (encode_reads_back v s (S (String.length s)) EmptyString Hfin Henc) as H.
  rewrite str_app_nil_r in H. rewrite H; [reflexivity | | reflexivity].
  pose proof (weight_le_length v s Henc). lia.
Qed.

(** ** Lines of a file *)

Lemma not_c0_no_newline s :
  Str.all Str.not_c0 s = true -> Str.count "010" s = 0.
Proof.
  induction s as [|a s IH]; simpl; [reflexivity|].
  intros [Ha Hs]%andb_true_iff. rewrite (IH Hs).
  destruct (Ascii.eqb_spec a "010") as [->|_]; [discriminate Ha | reflexivity].
Qed.

Lemma lines_line_app l rest :
  Str.count "010" l = 0 ->
  Str.lines (l ++ newline ++ rest) = l :: Str.lines rest.
Proof.
  induction l as [|a l IH]; intros Hc.
  - reflexivity.
  - simpl in Hc. destruct (Ascii.eqb_spec a "010") as [->|Hne]; [discriminate|].
    change (String a l ++ newline ++ rest) with (String a (l ++ newline ++ rest)).
    cbn [Str.lines]. apply Ascii.eqb_neq in Hne. rewrite Hne.
    rewrite IH by (simpl in Hc; lia). reflexivity.
Qed.

(** Splitting the text of a file at its line feeds gives back the lines it
    was made of, as long as no line has a line feed inside. *)
Lemma lines_ndjson ls :
  Forall (fun l => Str.count "010" l = 0) ls -> Str.lines (ndjson ls) = ls.
Proof.
  induction 1 as [|l ls Hl _ IH]; [reflexivity|].
  cbn [ndjson]. rewrite str_app_assoc, lines_line_app by exact Hl.
  rewrite IH. reflexivity.
Qed.


(** ** The exporter *)

(** Either every document can be encoded, or there is a first one that
    cannot. *)
Lemma serialized_or_not (docs : list document) :
  (exists lines, serialized docs lines)
  \/ (exists pre d post t lines,
        docs = (pre ++ d :: post)%list /\ serialized pre lines
        /\ Json.dumps (convert_objectid_to_str d) = Json.NotSerializable t).
Proof.
  induction docs as [|d docs IH].
  - left. exists []. constructor.
  - destruct (Json.dumps (convert_objectid_to_str d)) as [line|t] eqn:Ed.
    + destruct IH as [(lines & H) | (pre & d' & post & t & lines & -> & Hpre & Hd')].
      * left. exists (line :: lines). constructor; assumption.
      * right. exists (d :: pre), d', post, t, (line :: lines).
        split; [reflexivity|]. split; [constructor; assumption | exact Hd'].
    + right. exists [], d, docs, t, []. split; [reflexivity|].
      split; [constructor | exact Ed].
Qed.

(** The loop of writes, when every document can be encoded: the file grows
    by the lines, nothing else changes. *)
Lemma write_docs_ok path docs lines st content :
  files st !! path = Some content ->
  serialized docs lines ->
  for_each docs (write_doc path) st
  = (mkState (<[path := content ++ ndjson lines]> (files st)) (objects st)
       (log st ++ writes path lines)%list,
     Return tt).
Proof.
  intros Hfile Hs. revert st content Hfile.
  induction Hs as [|d line docs lines Hd _ IH]; intros st content Hfile.
  - cbn [for_each ndjson writes map]. unfold ret.
    rewrite str_app_nil_r, app_nil_r, insert_id by exact Hfile.
    destruct st; reflexivity.
  - cbn [for_each]. unfold bind at 1, write_doc at 1. rewrite Hd. unfold write at 1.
    rewrite Hfile. cbn [default].
    erewrite IH; [|cbn [files]; apply lookup_insert_eq].
    cbn [files objects log ndjson writes map].
    rewrite insert_insert_eq, <- app_assoc, !str_app_assoc. reflexivity.
Qed.

(** The loop of writes, when the document after [pre] cannot be encoded:
    the lines of [pre] are in the file and the [TypeError] is on its way
    up. *)
Lemma write_docs_fail path pre d post t lines st content :
  files st !! path = Some content ->
  serialized pre lines ->
  Json.dumps (convert_objectid_to_str d) = Json.NotSerializable t ->
  for_each (pre ++ d :: post)%list (write_doc path) st
  = (mkState (<[path := content ++ ndjson lines]> (files st)) (objects st)
       (log st ++ writes path lines)%list,
     Raise (TypeError t)).
Proof.
  intros Hfile Hs Hd.
  rewrite for_each_app, (write_docs_ok path pre lines st content Hfile Hs).
  cbn [for_each]. unfold bind at 1, write_doc at 1. rewrite Hd. reflexivity.
Qed.

Section Exporting.
Variable cfg : config.
Variable w : world.
Variable client : MongoClient.
Variables collection_name out_dir : string.

Let path := ndjson_path cfg collection_name out_dir.

(** The three ways the export of a non-empty collection goes. *)
Lemma export_open_fails docs st e :
  mongo_find w (MONGO_DB cfg) collection_name = inr docs -> docs <> [] ->
  os_open w (after_find cfg collection_name st) path = Some e ->
  export_collection_to_ndjson cfg w client collection_name out_dir st
  = (mkState (files st) (objects st)
       (log st ++ [EvFind (MONGO_DB cfg) collection_name; EvOpen path])%list,
     Raise e).
Proof.
  intros Hfind Hne Hopen. unfold export_collection_to_ndjson, find_all.
  rewrite Hfind. destruct docs as [|d docs]; [congruence|].
  cbv zeta. unfold after_find, path in *.
  unfold bind at 1 2. unfold emit at 1, ret at 1. cbn [fst snd].
  unfold bind at 1, open_w at 1. cbv beta. rewrite Hopen.
  cbn [after_find files objects log]. rewrite <- app_assoc. reflexivity.
Qed.

Lemma export_completes docs lines st :
  mongo_find w (MONGO_DB cfg) collection_name = inr docs -> docs <> [] ->
  os_open w (after_find cfg collection_name st) path = None ->
  serialized docs lines ->
  export_collection_to_ndjson cfg w client collection_name out_dir st
  = (mkState (<[path := ndjson lines]> (files st)) (objects st)
       (log st ++ [EvFind (MONGO_DB cfg) collection_name; EvOpen path]
          ++ writes path lines
          ++ [EvPrint stdout (MsgExported collection_name path (length docs))])%list,
     Return path).
Proof.
  intros Hfind Hne Hopen Hs. unfold export_collection_to_ndjson, find_all.
  rewrite Hfind. destruct docs as [|d docs]; [congruence|].
  cbv zeta. unfold after_find, path in *.
  unfold bind at 1 2. unfold emit at 1, ret at 1. cbn [fst snd].
  unfold bind at 1, open_w at 1. cbv beta. rewrite Hopen.
  unfold bind at 1.
  erewrite write_docs_ok; [|cbn [files]; apply lookup_insert_eq | exact Hs].
  unfold bind, print, emit, ret.
  cbn [after_find files objects log fst snd String.append].
  rewrite insert_insert_eq, <- !app_assoc. reflexivity.
Qed.

Lemma export_raises pre d post t lines st :
  mongo_find w (MONGO_DB cfg) collection_name = inr (pre ++ d :: post)%list ->
  os_open w (after_find cfg collection_name st) path = None ->
  serialized pre lines ->
  Json.dumps (convert_objectid_to_str d) = Json.NotSerializable t ->
  export_collection_to_ndjson cfg w client collection_name out_dir st
  = (mkState (<[path := ndjson lines]> (files st)) (objects st)
       (log st ++ [EvFind (MONGO_DB cfg) collection_name; EvOpen path]
          ++ writes path lines)%list,
     Raise (TypeError t)).
Proof.
  intros Hfind Hopen Hs Hd. unfold export_collection_to_ndjson, find_all.
  rewrite Hfind. destruct (pre ++ d :: post)%list as [|d0 docs] eqn:E;
    [destruct pre; discriminate|].
  cbv zeta. unfold after_find, path in *.
  unfold bind at 1 2. unfold emit at 1, ret at 1. cbn [fst snd].
  unfold bind at 1, open_w at 1. cbv beta. rewrite Hopen.
  unfold bind at 1. rewrite <- E.
  erewrite write_docs_fail; [|cbn [files]; apply lookup_insert_eq | exact Hs | exact Hd].
  cbn [after_find files objects log fst snd String.append].
  rewrite insert_insert_eq, <- !app_assoc. reflexivity.
Qed.

End Exporting.

Lemma serialized_not_c0 docs lines :
  serialized docs lines -> Forall (fun line => Str.all Str.not_c0 line = true) lines.
Proof.
  induction 1 as [|d line docs lines Hd _ IH]; constructor; [|exact IH].
  eapply encode_not_c0. exact Hd.
Qed.



Lemma serialized_no_newline docs lines :
  serialized docs lines -> Forall (fun line => Str.count "010" line = 0) lines.
Proof.
  intros H. apply serialized_not_c0 in H.
  induction H as [|line lines Hl _ IH]; constructor; [|exact IH].
  apply not_c0_no_newline, Hl.
Qed.



Lemma ndjson_empty lines : ndjson lines = EmptyString -> lines = [].
Proof.
  destruct lines as [|l ls]; [reflexivity|].
  cbn [ndjson]. destruct l; discriminate.
Qed.


Lemma export_all_app cfg w client l1 l2 acc st :
  export_all cfg w client (l1 ++ l2)%list acc st
  = match export_all cfg w client l1 acc st with
    | (st1, Return acc1) => export_all cfg w client l2 acc1 st1
    | (st1, Raise e) => (st1, Raise e)
    | (st1, Exit code) => (st1, Exit code)
    end.
Proof.
  revert acc st. induction l1 as [|c l1 IH]; intros acc st; [reflexivity|].
  cbn [app export_all]. unfold bind.
  destruct (export_collection_to_ndjson cfg w client c (OUTPUT_DIR cfg) st)
    as [st1 [p|e|code]]; [apply IH | reflexivity..].
Qed.

Lemma filter_no_upload evs :
  Forall (fun e => is_upload e = false) evs -> List.filter is_upload evs = [].
Proof.
  induction 1 as [|e evs He _ IH]; [reflexivity|]. cbn. rewrite He. exact IH.
Qed.

(** C10: the export of a collection is not atomic.  When the documents
    [pre] can be encoded and the next one, [d], cannot, the exporter ends
    with the [TypeError] of [json.dumps]; the file at the computed path is
    left on disk with exactly the lines of [pre]; the bucket is untouched.
    The export loop ends there with the same exception, so the path joins no
    list; and a run of [main] that reaches this collection ends with that
    exception and a non-zero status, without any upload attempted, of this
    file or of any other. *)
Theorem export_serialization_failure
    (cfg : config) (w : world) (client : MongoClient) (collection_name : string)
    (pre post : list document) (d : document) (t : string) (lines : list string)
    (st : state) :
  let path := ndjson_path cfg collection_name (OUTPUT_DIR cfg) in
  let st' := mkState (<[path := ndjson lines]> (files st)) (objects st)
               (log st ++ [EvFind (MONGO_DB cfg) collection_name; EvOpen path]
                  ++ writes path lines)%list in
  mongo_find w (MONGO_DB cfg) collection_name = inr (pre ++ d :: post)%list ->
  os_open w (after_find cfg collection_name st) path = None ->
  serialized pre lines ->
  Json.dumps (convert_objectid_to_str d) = Json.NotSerializable t ->
  export_collection_to_ndjson cfg w client collection_name (OUTPUT_DIR cfg) st
  = (st', Raise (TypeError t))
  /\ files st' !! path = Some (ndjson lines)
  /\ Str.lines (ndjson lines) = lines
  /\ length lines = length pre
  /\ objects st' = objects st
  /\ (forall rest exported_files,
        export_all cfg w client (collection_name :: rest) exported_files st
        = (st', Raise (TypeError t)))
  /\ (forall before rest exported_files st0,
        MONGO_DB cfg <> EmptyString -> S3_BUCKET cfg <> EmptyString ->
        os_makedirs w (OUTPUT_DIR cfg) = None ->
        COLLECTIONS cfg = (before ++ collection_name :: rest)%list ->
        export_all cfg w (mkMongoClient (mongo_uri cfg)) before [] (after_setup cfg st0)
        = (st, Return exported_files) ->
        main cfg w st0 = (st', Raise (TypeError t))
        /\ exit_status (snd (script cfg w st0)) = 1%Z
        /\ objects (fst (script cfg w st0)) = objects st0
        /\ exists evs, log (fst (script cfg w st0)) = (log st0 ++ evs)%list
                       /\ List.filter is_upload evs = []).
Proof.
  intros path st' Hfind Hopen Hs Hd.
  assert (Hexp : forall c,
    export_collection_to_ndjson cfg w c collection_name (OUTPUT_DIR cfg) st
    = (st', Raise (TypeError t))).
  { intros c. apply (export_raises cfg w c collection_name (OUTPUT_DIR cfg)
                       pre d post t lines st); assumption. }
  assert (Hloop : forall c rest exported_files,
    export_all cfg w c (collection_name :: rest) exported_files st
    = (st', Raise (TypeError t))).
  { intros c rest acc. cbn [export_all]. unfold bind. rewrite Hexp. reflexivity. }
  pose proof (serialized_no_newline pre lines Hs) as Hnl.
  split; [apply Hexp|].
  split; [cbn [files]; apply lookup_insert_eq|].
  split; [apply lines_ndjson, Hnl|].
  split; [clear -Hs; induction Hs; simpl; congruence|].
  split; [reflexivity|].
  split; [apply Hloop|].
  intros before rest acc st0 Hdb Hbk Hmk Hcolls Hbefore.
  assert (Hmain : main cfg w st0 = (st', Raise (TypeError t))).
  { rewrite main_valid_config; try assumption.
    - rewrite Hcolls. unfold bind at 1. rewrite export_all_app, Hbefore, Hloop.
      reflexivity.
    - rewrite Hcolls. destruct before; discriminate. }
  assert (Hq : quiet st0 st').
  { eapply quiet_trans; [apply quiet_after_setup|].
    eapply quiet_trans; [eapply quiet_export_all, Hbefore|].
    eapply quiet_export_collection, (Hexp client). }
  destruct Hq as [Hobj (evs & Hlog & Hevs)].
  split; [exact Hmain|].
  unfold script. rewrite Hmain. cbn [fst snd exit_status print emit files objects log].
  split; [reflexivity|]. split; [exact Hobj|].
  exists (evs ++ [EvPrint stdout MsgDuration])%list. split.
  - cbn [log] in Hlog. rewrite Hlog, <- app_assoc. reflexivity.
  - rewrite List.filter_app, filter_no_upload by exact Hevs. reflexivity.
Qed.

Lemma export_serialization_failure_witness :
  exists line,
    Json.dumps (convert_objectid_to_str (demo_user 30)) = Json.Text line
    /\ script demo_cfg half_dated_world fresh
       = (mkState {["/app/out/users_20240101T000000Z.ndjson" := ndjson [line]]} ∅
            [EvMakedirs "/app/out"; EvMongoClient "mongodb://localhost:27017/";
             EvFind "shop" "users"; EvOpen "/app/out/users_20240101T000000Z.ndjson";
             EvWrite "/app/out/users_20240101T000000Z.ndjson" (line ++ newline);
             EvPrint stdout MsgDuration],
          Raise (TypeError "datetime")).
Proof.
  destruct (Json.dumps (convert_objectid_to_str (demo_user 30))) as [line|] eqn:E;
    [|vm_compute in E; discriminate].
  exists line. split; [reflexivity|].
  destruct (export_serialization_failure demo_cfg half_dated_world
              (mkMongoClient (mongo_uri demo_cfg)) "users"
              [demo_user 30] [demo_user 41]
              [("name", VStr "b"); ("created", VOther "datetime")] "datetime"
              [line] (after_setup demo_cfg fresh))
    as (_ & _ & _ & _ & _ & _ & Hmain).
  - reflexivity.
  - reflexivity.
  - constructor; [exact E | constructor].
  - vm_compute. reflexivity.
  - destruct (Hmain [] ["orders"; "logs"] [] fresh) as (Hm & _);
      try reflexivity; try discriminate.
    unfold script. rewrite Hm. reflexivity.
Defined.

(** ** Where uploads come from *)

Lemma uploads_only_refl P st : uploads_only P st st.
Proof. exists []. rewrite app_nil_r. split; [reflexivity|]. intros p b k []. Qed.

Lemma uploads_only_trans P a b c :
  uploads_only P a b -> uploads_only P b c -> uploads_only P a c.
Proof.
  intros (e1 & Hl1 & H1) (e2 & Hl2 & H2). exists (e1 ++ e2)%list. split.
  - rewrite Hl2, Hl1, app_assoc. reflexivity.
  - intros p b' k [Hin|Hin]%in_app_iff; eauto.
Qed.

Lemma quiet_uploads_only P st st' : quiet st st' -> uploads_only P st st'.
Proof.
  intros [_ (evs & Hlog & Hevs)]. exists evs. split; [exact Hlog|].
  intros p b k Hin. rewrite List.Forall_forall in Hevs.
  specialize (Hevs _ Hin). discriminate.
Qed.

Lemma error_report_no_upload e p b k : ~ In (EvUploadFile p b k) (error_report e).
Proof. destruct e; simpl; intros H; intuition discriminate. Qed.

Lemma upload_to_s3_uploads_only (P : string -> Prop) w p bucket prefix st st' r :
  P p -> upload_to_s3 w p bucket prefix st = (st', r) -> uploads_only P st st'.
Proof.
  intros HP Hrun. apply upload_to_s3_inv in Hrun as (_ & _ & Hr). cbv zeta in Hr.
  destruct r as [k|e|code]; [| |contradiction].
  - destruct Hr as (_ & _ & _ & Hlog). eexists. split; [exact Hlog|].
    intros p' b' k' [[= <- _ _]|[[=]|[]]]. exact HP.
  - destruct Hr as (_ & Hlog & _). eexists. split; [exact Hlog|].
    intros p' b' k' [[= <- _ _]|Hin]; [exact HP|].
    exfalso. eapply error_report_no_upload, Hin.
Qed.

Section UploadSources.
Variable cfg : config.
Variable w : world.

Lemma upload_all_uploads_only (P : string -> Prop) l st st' r :
  Forall P l -> upload_all cfg w l st = (st', r) -> uploads_only P st st'.
Proof.
  unfold upload_all. intros Hl. revert st.
  induction Hl as [|p l Hp _ IH]; intros st; cbn [for_each].
  - intros [= <- _]. apply uploads_only_refl.
  - unfold bind at 1 2.
    destruct (upload_to_s3 w p (S3_BUCKET cfg) (Some (S3_PREFIX cfg)) st)
      as [s1 [k|e|code]] eqn:E.
    + unfold ret at 1.
      intros Hrest. eapply uploads_only_trans; [|eapply IH, Hrest].
      eapply upload_to_s3_uploads_only; eassumption.
    + intros [= <- _]. eapply upload_to_s3_uploads_only; eassumption.
    + intros [= <- _]. eapply upload_to_s3_uploads_only; eassumption.
Qed.

(** A returned path is empty for an empty collection, and the computed
    path otherwise. *)
Lemma export_return_inv client c dir st st' p :
  export_collection_to_ndjson cfg w client c dir st = (st', Return p) ->
  (mongo_find w (MONGO_DB cfg) c = inr [] /\ p = EmptyString)
  \/ (exists d ds, mongo_find w (MONGO_DB cfg) c = inr (d :: ds)
                   /\ p = ndjson_path cfg c dir).
Proof.
  intros H. destruct (mongo_find w (MONGO_DB cfg) c) as [e|[|d ds]] eqn:Hfind.
  - unfold export_collection_to_ndjson, find_all in H. rewrite Hfind in H.
    unfold bind, emit, raise in H. cbn in H. discriminate.
  - unfold export_collection_to_ndjson, find_all in H. rewrite Hfind in H.
    unfold bind, emit, ret, print in H. cbn in H. injection H as _ <-. left. auto.
  - right. exists d, ds. split; [reflexivity|].
    destruct (os_open w (after_find cfg c st) (ndjson_path cfg c dir)) as [e|] eqn:Hopen.
    { rewrite (export_open_fails cfg w client c dir (d :: ds) st e) in H
        by (assumption || discriminate). discriminate. }
    destruct (serialized_or_not (d :: ds))
      as [(lines & Hs) | (pre & d' & post & t & lines & E & Hpre & Hd)].
    + rewrite (export_completes cfg w client c dir (d :: ds) lines st) in H
        by (assumption || discriminate).
      injection H as _ <-. reflexivity.
    + rewrite E in Hfind.
      rewrite (export_raises cfg w client c dir pre d' post t lines st) in H
        by assumption.
      discriminate.
Qed.

Lemma export_all_paths client colls acc st st' out :
  export_all cfg w client colls acc st = (st', Return out) ->
  Forall (from_nonempty cfg w colls) acc ->
  Forall (from_nonempty cfg w colls) out.
Proof.
  assert (Hgen : forall l all acc st,
    (forall c, In c l -> In c all) ->
    export_all cfg w client l acc st = (st', Return out) ->
    Forall (from_nonempty cfg w all) acc -> Forall (from_nonempty cfg w all) out).
  { induction l as [|c l IH]; intros all acc0 st0 Hsub; cbn [export_all].
    - intros [= _ <-]. auto.
    - unfold bind at 1.
      destruct (export_collection_to_ndjson cfg w client c (OUTPUT_DIR cfg) st0)
        as [s1 [p|e|code]] eqn:E; try discriminate.
      intros Hrest Hacc. eapply IH; [|exact Hrest|].
      + intros c' Hc'. apply Hsub. right. exact Hc'.
      + apply export_return_inv in E as [[_ ->]|(d & ds & Hfind & ->)].
        * exact Hacc.
        * destruct (Str.truthy _); [|exact Hacc].
          apply Forall_app. split; [exact Hacc|].
          constructor; [|constructor].
          exists c, d, ds. split; [apply Hsub; left; reflexivity | auto]. }
  apply Hgen. auto.
Qed.

(** In any run of [main], whatever its end, a file that the run tries to
    upload is the file of a configured collection that was not empty. *)
Lemma main_uploads_from_nonempty st st' r :
  main cfg w st = (st', r) ->
  uploads_only (from_nonempty cfg w (COLLECTIONS cfg)) st st'.
Proof.
  set (P := from_nonempty cfg w (COLLECTIONS cfg)).
  unfold main.
  destruct (negb (Str.truthy (MONGO_DB cfg)) || _) eqn:E1.
  { intros H. apply quiet_uploads_only. revert H. apply quiet_bind; auto with quiet. }
  destruct (negb (Str.truthy (S3_BUCKET cfg))) eqn:E2.
  { intros H. apply quiet_uploads_only. revert H. apply quiet_bind; auto with quiet. }
  unfold bind at 1.
  destruct (ensure_output_dir w (OUTPUT_DIR cfg) st) as [s1 [[]|e|code]] eqn:Emk.
  2,3: intros [= <- _]; apply quiet_uploads_only; revert Emk;
       unfold ensure_output_dir; apply quiet_bind;
       [apply quiet_emit; reflexivity | intros _; destruct (os_makedirs _ _); auto with quiet].
  assert (Hq1 : quiet st s1).
  { revert Emk. unfold ensure_output_dir. apply quiet_bind;
      [apply quiet_emit; reflexivity | intros _; destruct (os_makedirs _ _); auto with quiet]. }
  unfold bind at 1.
  destruct (get_client cfg s1) as [s2 [client|e|code]] eqn:Ecl.
  2,3: unfold get_client, bind, emit, ret in Ecl; discriminate.
  assert (Hq2 : quiet s1 s2).
  { revert Ecl. unfold get_client. apply quiet_bind;
      [apply quiet_emit; reflexivity | auto with quiet]. }
  unfold bind at 1.
  destruct (export_all cfg w client (COLLECTIONS cfg) [] s2) as [s3 [out|e|code]] eqn:Eex.
  2,3: intros [= <- _]; apply quiet_uploads_only;
       eapply quiet_trans; [exact Hq1|]; eapply quiet_trans; [exact Hq2|];
       eapply quiet_export_all, Eex.
  assert (Hq3 : quiet st s3).
  { eapply quiet_trans; [exact Hq1|]. eapply quiet_trans; [exact Hq2|].
    eapply quiet_export_all, Eex. }
  pose proof (export_all_paths _ _ _ _ _ _ Eex (List.Forall_nil _)) as Hout.
  intros Hrest. eapply uploads_only_trans; [apply quiet_uploads_only, Hq3|].
  destruct out as [|p out].
  - apply quiet_uploads_only. revert Hrest. apply quiet_bind; auto with quiet.
  - revert Hrest. unfold bind at 1.
    destruct (upload_all cfg w (p :: out) s3) as [s4 [[]|e|code]] eqn:Eup.
    + intros Hd. eapply uploads_only_trans; [eapply upload_all_uploads_only; eassumption|].
      apply quiet_uploads_only. revert Hd. apply quiet_print.
    + intros [= <- _]. eapply upload_all_uploads_only; eassumption.
    + intros [= <- _]. eapply upload_all_uploads_only; eassumption.
Qed.

End UploadSources.

(** ** Empty collections *)

(** C5: a collection whose query returns no document is skipped.  The
    exporter prints the warning and returns the empty path; no file is
    opened or written (disk and bucket are as before), nothing is raised,
    and the export loop goes on to the next collection with its list of
    paths unchanged.  In a whole run, every file the run tries to upload is
    the file of another configured collection, one that returned documents:
    the empty collection contributes no upload. *)
Theorem export_empty_collection_is_skipped
    (cfg : config) (w : world) (client : MongoClient)
    (collection_name out_dir : string) (st : state) :
  mongo_find w (MONGO_DB cfg) collection_name = inr [] ->
  let st' := mkState (files st) (objects st)
               (log st ++ [EvFind (MONGO_DB cfg) collection_name;
                           EvPrint stdout (MsgWarnEmpty collection_name)])%list in
  export_collection_to_ndjson cfg w client collection_name out_dir st
  = (st', Return EmptyString)
  /\ files st' = files st
  /\ objects st' = objects st
  /\ (forall rest exported_files,
        export_all cfg w client (collection_name :: rest) exported_files st
        = export_all cfg w client rest exported_files st')
  /\ (forall st0 st1 r,
        main cfg w st0 = (st1, r) ->
        exists evs,
          log st1 = (log st0 ++ evs)%list
          /\ forall p b k,
               In (EvUploadFile p b k) evs ->
               exists c d ds,
                 In c (COLLECTIONS cfg) /\ c <> collection_name
                 /\ p = ndjson_path cfg c (OUTPUT_DIR cfg)
                 /\ mongo_find w (MONGO_DB cfg) c = inr (d :: ds)).
Proof.
  intros Hfind st'.
  assert (E : export_collection_to_ndjson cfg w client collection_name out_dir st
              = (st', Return EmptyString)).
  { unfold export_collection_to_ndjson, find_all. rewrite Hfind.
    unfold bind, print, emit, ret. cbn [fst snd files objects log].
    unfold st'. rewrite <- app_assoc. reflexivity. }
  split; [apply E|]. split; [reflexivity|]. split; [reflexivity|]. split.
  - intros rest exported_files. cbn [export_all]. unfold bind at 1.
    unfold export_collection_to_ndjson, find_all in *. rewrite Hfind in *.
    unfold bind, print, emit, ret in *. cbn [fst snd files objects log Str.truthy] in *.
    injection E as E. rewrite E. reflexivity.
  - intros st0 st1 r Hmain.
    destruct (main_uploads_from_nonempty cfg w st0 st1 r Hmain) as (evs & Hlog & Hup).
    exists evs. split; [exact Hlog|].
    intros p b k Hin. destruct (Hup p b k Hin) as (c & d & ds & Hc & Hp & Hf).
    exists c, d, ds. repeat split; try assumption.
    intros ->. congruence.
Qed.

Lemma export_empty_collection_is_skipped_witness :
  export_collection_to_ndjson demo_cfg demo_world (mkMongoClient (mongo_uri demo_cfg))
    "orders" "/app/out" fresh
  = (mkState ∅ ∅ [EvFind "shop" "orders"; EvPrint stdout (MsgWarnEmpty "orders")],
     Return EmptyString).
Proof.
  apply (export_empty_collection_is_skipped demo_cfg demo_world
           (mkMongoClient (mongo_uri demo_cfg)) "orders" "/app/out" fresh).
  reflexivity.
Defined.

(** ** Further facts *)

(** When identifiers only occur as values of keys, no identifier is left
    after normalization. *)
Theorem convert_removes_ids_under_keys (v : value) :
  ids_under_keys v = true -> has_objectid (convert_entry v) = false.
Proof.
  induction v using value_tree_ind; try reflexivity.
  - cbn [ids_under_keys convert_entry has_objectid]. intros Hd.
    induction H as [|kv d Hkv _ IH]; [reflexivity|].
    cbn [forallb] in Hd. apply andb_true_iff in Hd as [H1 H2].
    cbn [map existsb snd]. rewrite (Hkv H1). exact (IH H2).
  - cbn [ids_under_keys convert_entry has_objectid]. intros Hl.
    induction H as [|x l Hx _ IH]; [reflexivity|].
    cbn [forallb] in Hl. apply andb_true_iff in Hl as [H1 H2].
    cbn [map existsb]. rewrite (IH H2), orb_false_r.
    destruct x; try (apply negb_true_iff in H1; exact H1).
    exact (Hx H1).
Qed.

Lemma convert_removes_ids_under_keys_witness :
  has_objectid (VDict (demo_user 30)) = true
  /\ has_objectid (VDict (convert_objectid_to_str (demo_user 30))) = false.
Proof.
  split; [reflexivity|].
  apply (convert_removes_ids_under_keys (VDict (demo_user 30))). reflexivity.
Defined.

Lemma parts_total {A} (enc : A -> Json.encoded) (ok : A -> bool) l :
  Forall (fun x => ok x = true <-> exists s, enc x = Json.Text s) l ->
  forallb ok l = true <-> exists ss, Json.parts enc l = inl ss.
Proof.
  induction 1 as [|x l Hx _ IH]; cbn [forallb Json.parts].
  - split; [intros _; exists []; reflexivity | reflexivity].
  - rewrite andb_true_iff, Hx, IH. split.
    + intros [(s & Es) (ss & Ess)]. rewrite Es, Ess. exists (s :: ss). reflexivity.
    + destruct (enc x) as [s|t]; [|intros (ss & [=])].
      destruct (Json.parts enc l) as [ss|t]; [|intros (? & [=])].
      intros _. split; [exists s | exists ss]; reflexivity.
Qed.

Lemma bracket_total o c ps :
  (exists s, Json.bracket o c ps = Json.Text s) <-> exists ss, ps = inl ss.
Proof.
  destruct ps as [ss|t]; cbn [Json.bracket]; split; eauto.
  - intros (s & [=]).
  - intros (ss & [=]).
Qed.

(** [json.dumps] succeeds exactly on the trees made of JSON types. *)
Lemma encode_total v : json_types_only v = true <-> exists s, Json.encode v = Json.Text s.
Proof.
  induction v using value_tree_ind; cbn [json_types_only Json.encode];
    try (split; [solve [eauto] | reflexivity]).
  - destruct b; split; eauto.
  - split; [discriminate | intros (s & [=])].
  - split; [discriminate | intros (s & [=])].
  - rewrite bracket_total. apply parts_total.
    induction H as [|kv d Hkv _ IH]; constructor; [|exact IH].
    rewrite Hkv. destruct (Json.encode (snd kv)); cbn [Json.and_then]; split; eauto.
  - rewrite bracket_total. apply parts_total. exact H.
Qed.

(** [json.dumps] succeeds exactly on the trees made of dicts, lists,
    strings, ints, floats, bools and [None]; the text it gives has no
    character below U+0020, so no line break; and when every float of the
    tree is finite, reading the text as JSON returns the value. *)
Theorem json_round_trip (v : value) :
  match Json.encode v with
  | Json.Text s =>
      json_types_only v = true
      /\ Str.all Str.not_c0 s = true
      /\ (finite_doubles v = true -> Json.loads s = Some v)
  | Json.NotSerializable _ => json_types_only v = false
  end.
Proof.
  destruct (Json.encode v) as [s|t] eqn:E.
  - split; [apply encode_total; eauto|].
    split; [eapply encode_not_c0, E|].
    intros Hfin. apply loads_encode; assumption.
  - apply not_true_is_false. intros (s & Hs)%encode_total. congruence.
Qed.

(** Whatever the configuration and the environment, a run of [main] only
    tries to upload files of configured collections that returned
    documents. *)
Theorem uploads_come_from_nonempty_collections (cfg : config) (w : world) (st : state) :
  uploads_only (from_nonempty cfg w (COLLECTIONS cfg)) st (fst (main cfg w st)).
Proof.
  destruct (main cfg w st) as [st' r] eqn:E.
  exact (main_uploads_from_nonempty cfg w st st' r E).
Qed.

(** Three configured collections, one of them with five documents and two
    empty: one file is produced, with five lines, one upload is made, and the
    status is 0. *)
Theorem one_collection_with_data :
  let run := script demo_cfg five_world fresh in
  exit_status (snd run) = 0%Z
  /\ map fst (map_to_list (files (fst run))) = ["/app/out/orders_20240101T000000Z.ndjson"]
  /\ (length <$> (Str.lines <$> files (fst run) !! "/app/out/orders_20240101T000000Z.ndjson"))
     = Some 5
  /\ List.filter is_upload (log (fst run))
     = [EvUploadFile "/app/out/orders_20240101T000000Z.ndjson" "bucket"
          "backups/orders_20240101T000000Z.ndjson"]
  /\ map fst (map_to_list (objects (fst run)))
     = [("bucket", "backups/orders_20240101T000000Z.ndjson")].
Proof.
  intros run. repeat split; vm_compute; reflexivity.
Qed.

(** ** The list of exported files *)

Lemma join_truthy a b : Str.truthy b = true -> Str.truthy (Py.join a b) = true.
Proof.
  intros Hb. unfold Py.join.
  destruct (Py.startswith "/" b); [exact Hb|].
  destruct (negb (Str.truthy a) || Py.endswith "/" a).
  - destruct a; simpl; [exact Hb | reflexivity].
  - destruct a; reflexivity.
Qed.

Lemma ndjson_path_truthy cfg c dir : Str.truthy (ndjson_path cfg c dir) = true.
Proof.
  unfold ndjson_path. cbv zeta. apply join_truthy. destruct c; reflexivity.
Qed.

Lemma export_all_returns cfg w client colls acc st st' out :
  export_all cfg w client colls acc st = (st', Return out) ->
  out = (acc ++ exported_paths cfg w colls)%list
  /\ Forall (fun c => exists docs, mongo_find w (MONGO_DB cfg) c = inr docs) colls.
Proof.
  revert acc st. induction colls as [|c colls IH]; intros acc st; cbn [export_all].
  - intros [= _ <-]. unfold exported_paths. cbn. rewrite app_nil_r. auto.
  - unfold bind at 1.
    destruct (export_collection_to_ndjson cfg w client c (OUTPUT_DIR cfg) st)
      as [s1 [p|e|code]] eqn:E; try discriminate.
    intros Hrest. apply IH in Hrest as [-> Hall].
    apply export_return_inv in E as [[Hfind ->]|(d & ds & Hfind & ->)].
    + unfold exported_paths, has_docs. cbn [List.filter Str.truthy]. rewrite Hfind.
      split; [reflexivity|]. constructor; eauto.
    + rewrite ndjson_path_truthy.
      unfold exported_paths, has_docs. cbn [List.filter]. rewrite Hfind.
      cbn [map]. rewrite <- app_assoc. split; [reflexivity|]. constructor; eauto.
Qed.

(** The list the export loop returns is the given list followed by the
    output paths of the collections that returned documents, in the order
    of the configuration and once per occurrence; and no query raised. *)
Theorem exported_files_in_configured_order
    (cfg : config) (w : world) (client : MongoClient)
    (colls exported_files out : list string) (st st' : state) :
  export_all cfg w client colls exported_files st = (st', Return out) ->
  out = (exported_files
           ++ map (fun c => ndjson_path cfg c (OUTPUT_DIR cfg))
                (List.filter (has_docs cfg w) colls))%list
  /\ length out = length exported_files + length (List.filter (has_docs cfg w) colls)
  /\ Forall (fun c => exists docs, mongo_find w (MONGO_DB cfg) c = inr docs) colls.
Proof.
  intros H. apply export_all_returns in H as [-> Hall].
  split; [reflexivity|]. split; [|exact Hall].
  unfold exported_paths. rewrite length_app, length_map. reflexivity.
Qed.

Lemma exported_files_in_configured_order_witness :
  snd (export_all demo_cfg five_world (mkMongoClient (mongo_uri demo_cfg))
         ["users"; "orders"; "logs"; "orders"] [] fresh)
  = Return ["/app/out/orders_20240101T000000Z.ndjson";
            "/app/out/orders_20240101T000000Z.ndjson"].
Proof.
  destruct (export_all demo_cfg five_world (mkMongoClient (mongo_uri demo_cfg))
              ["users"; "orders"; "logs"; "orders"] [] fresh) as [st' r] eqn:E.
  assert (Hr : exists out, r = Return out).
  { assert (Hs : snd (export_all demo_cfg five_world (mkMongoClient (mongo_uri demo_cfg))
                        ["users"; "orders"; "logs"; "orders"] [] fresh) = r)
      by (rewrite E; reflexivity).
    vm_compute in Hs. subst r. eauto. }
  destruct Hr as (out & ->).
  destruct (exported_files_in_configured_order _ _ _ _ _ _ _ _ E) as (-> & _).
  reflexivity.
Defined.

(** ** How a run ends *)

Lemma never_exits_bind {A B} (c : M A) (k : A -> M B) :
  never_exits c -> (forall a, never_exits (k a)) -> never_exits (bind c k).
Proof.
  intros Hc Hk st st' code. unfold bind.
  destruct (c st) as [s1 [a|e|code']] eqn:E.
  - apply Hk.
  - discriminate.
  - exfalso. eapply Hc, E.
Qed.

Lemma never_exits_for_each {A} (l : list A) (body : A -> M unit) :
  (forall x, never_exits (body x)) -> never_exits (for_each l body).
Proof.
  intros Hb. induction l as [|x l IH]; cbn [for_each].
  - intros st st' code. discriminate.
  - apply never_exits_bind; [apply Hb | intros _; exact IH].
Qed.

Lemma never_exits_emit e : never_exits (emit e).
Proof. intros st st' code. discriminate. Qed.

Lemma never_exits_ret {A} (a : A) : never_exits (ret a).
Proof. intros st st' code. discriminate. Qed.

Lemma never_exits_raise {A} e : never_exits (@raise A e).
Proof. intros st st' code. discriminate. Qed.

Lemma never_exits_export_collection cfg w client c dir :
  never_exits (export_collection_to_ndjson cfg w client c dir).
Proof.
  unfold export_collection_to_ndjson. apply never_exits_bind.
  - unfold find_all. apply never_exits_bind; [apply never_exits_emit|].
    intros _. destruct (mongo_find _ _ _); [apply never_exits_raise | apply never_exits_ret].
  - intros [|d docs].
    + apply never_exits_bind; [apply never_exits_emit | intros _; apply never_exits_ret].
    + cbv zeta. apply never_exits_bind.
      { intros st st' code. unfold open_w. destruct (os_open _ _ _); discriminate. }
      intros _. apply never_exits_bind.
      { apply never_exits_for_each. intros x. unfold write_doc.
        destruct (Json.dumps _); [|apply never_exits_raise].
        intros st st' code. discriminate. }
      intros _. apply never_exits_bind; [apply never_exits_emit|].
      intros _. apply never_exits_ret.
Qed.

Lemma never_exits_export_all cfg w client colls acc :
  never_exits (export_all cfg w client colls acc).
Proof.
  revert acc. induction colls as [|c colls IH]; intros acc; cbn [export_all].
  - apply never_exits_ret.
  - apply never_exits_bind; [apply never_exits_export_collection | intros p; apply IH].
Qed.

Lemma never_exits_upload_all cfg w l : never_exits (upload_all cfg w l).
Proof.
  unfold upload_all. apply never_exits_for_each. intros p.
  apply never_exits_bind; [|intros _; apply never_exits_ret].
  intros st st' code H. apply upload_to_s3_inv in H as (_ & _ & []).
Qed.

(** The run when the output directory cannot be created. *)
Lemma main_makedirs_fails cfg w st e :
  MONGO_DB cfg <> EmptyString -> COLLECTIONS cfg <> [] -> S3_BUCKET cfg <> EmptyString ->
  os_makedirs w (OUTPUT_DIR cfg) = Some e ->
  main cfg w st
  = (mkState (files st) (objects st) (log st ++ [EvMakedirs (OUTPUT_DIR cfg)])%list,
     Raise e).
Proof.
  intros Hdb Hcoll Hbk Hmk. unfold main.
  apply truthy_true in Hdb, Hbk. rewrite Hdb, Hbk.
  destruct (COLLECTIONS cfg) as [|c cs]; [congruence|].
  cbn [negb orb]. unfold ensure_output_dir. rewrite Hmk. reflexivity.
Qed.

(** The run with an invalid configuration. *)
Lemma main_invalid_config cfg w st :
  MONGO_DB cfg = EmptyString \/ COLLECTIONS cfg = [] \/ S3_BUCKET cfg = EmptyString ->
  exists st', main cfg w st = (st', Exit 1).
Proof.
  intros H. unfold main.
  destruct (negb (Str.truthy (MONGO_DB cfg))
            || match COLLECTIONS cfg with [] => true | _ :: _ => false end) eqn:E1.
  - eexists. reflexivity.
  - apply orb_false_elim in E1 as [Edb Ecoll].
    apply negb_false_iff, truthy_true in Edb.
    destruct H as [H|[H|H]]; [congruence | rewrite H in Ecoll; discriminate |].
    rewrite H. eexists. reflexivity.
Qed.

Lemma config_valid_dec cfg :
  (MONGO_DB cfg = EmptyString \/ COLLECTIONS cfg = [] \/ S3_BUCKET cfg = EmptyString)
  \/ (MONGO_DB cfg <> EmptyString /\ COLLECTIONS cfg <> [] /\ S3_BUCKET cfg <> EmptyString).
Proof.
  destruct (MONGO_DB cfg); [auto|].
  destruct (COLLECTIONS cfg); [auto|].
  destruct (S3_BUCKET cfg); [auto|].
  right. repeat split; discriminate.
Qed.

(** With a valid configuration [main] never calls [sys.exit(1)]. *)
Lemma main_valid_not_exit_1 cfg w st st' :
  MONGO_DB cfg <> EmptyString -> COLLECTIONS cfg <> [] -> S3_BUCKET cfg <> EmptyString ->
  main cfg w st <> (st', Exit 1).
Proof.
  intros Hdb Hcoll Hbk H.
  destruct (os_makedirs w (OUTPUT_DIR cfg)) as [e|] eqn:Hmk.
  - rewrite (main_makedirs_fails cfg w st e) in H by assumption. discriminate.
  - rewrite main_valid_config in H by assumption. unfold bind at 1 in H.
    destruct (export_all cfg w _ _ _ _) as [s1 [out|e|code]] eqn:E.
    + destruct out as [|p out]; cbn [after_export] in H.
      * unfold bind, print, emit, sys_exit in H. discriminate.
      * unfold bind at 1 in H.
        destruct (upload_all cfg w (p :: out) s1) as [s2 [[]|e|code]] eqn:Eu.
        -- unfold print, emit in H. discriminate.
        -- discriminate.
        -- eapply never_exits_upload_all, Eu.
    + discriminate.
    + eapply never_exits_export_all, E.
Qed.

(** [sys.exit(1)] is the end of the runs with an invalid configuration,
    and of no other run. *)
Theorem exit_1_iff_invalid_configuration (cfg : config) (w : world) (st : state) :
  (exists st', main cfg w st = (st', Exit 1))
  <-> (MONGO_DB cfg = EmptyString \/ COLLECTIONS cfg = [] \/ S3_BUCKET cfg = EmptyString).
Proof.
  split.
  - intros (st' & H).
    destruct (config_valid_dec cfg) as [Hbad|(Hdb & Hcoll & Hbk)]; [exact Hbad|].
    exfalso. eapply main_valid_not_exit_1; eassumption.
  - apply main_invalid_config.
Qed.

Lemma filter_has_docs_nil cfg w colls :
  Forall (fun c => exists docs, mongo_find w (MONGO_DB cfg) c = inr docs) colls ->
  List.filter (has_docs cfg w) colls = [] ->
  Forall (fun c => mongo_find w (MONGO_DB cfg) c = inr []) colls.
Proof.
  induction 1 as [|c colls (docs & Hc) _ IH]; [constructor|].
  cbn [List.filter]. unfold has_docs at 1. rewrite Hc.
  destruct docs as [|d ds]; [|discriminate].
  intros H. constructor; [exact Hc | exact (IH H)].
Qed.

(** ** What a run writes, and where *)

Lemma only_adds_refl P Q st : only_adds P Q st st.
Proof. split; intros; left; reflexivity. Qed.

Lemma only_adds_trans P Q a b c :
  only_adds P Q a b -> only_adds P Q b c -> only_adds P Q a c.
Proof.
  intros [Hf1 Ho1] [Hf2 Ho2]. split.
  - intros p. destruct (Hf2 p) as [E2|[HP2 Hs2]]; [|right; auto].
    destruct (Hf1 p) as [E1|[HP1 Hs1]]; [left; congruence|].
    right. split; [exact HP1|]. rewrite E2. exact Hs1.
  - intros k. destruct (Ho2 k) as [E2|[HQ2 Hs2]]; [|right; auto].
    destruct (Ho1 k) as [E1|[HQ1 Hs1]]; [left; congruence|].
    right. split; [exact HQ1|]. rewrite E2. exact Hs1.
Qed.

Lemma only_adds_same P Q st st' :
  files st' = files st -> objects st' = objects st -> only_adds P Q st st'.
Proof. intros Hf Ho. split; intros; left; congruence. Qed.

Lemma only_adds_file (P : string -> Prop) Q st st' path content :
  P path -> files st' = <[path := content]> (files st) -> objects st' = objects st ->
  only_adds P Q st st'.
Proof.
  intros HP Hf Ho. split.
  - intros p. rewrite Hf. destruct (decide (path = p)) as [<-|Hne].
    + right. split; [exact HP|]. rewrite lookup_insert_eq. eauto.
    + left. apply lookup_insert_ne. exact Hne.
  - intros k. left. congruence.
Qed.

(** What the export of one collection does to the disk: nothing, or it
    (re)writes the file of the collection, which then has documents. *)
Lemma export_files_inv cfg w client c dir st st' r :
  export_collection_to_ndjson cfg w client c dir st = (st', r) ->
  objects st' = objects st
  /\ (files st' = files st
      \/ (has_docs cfg w c = true
          /\ exists content, files st' = <[ndjson_path cfg c dir := content]> (files st))).
Proof.
  intros H. split; [eapply quiet_export_collection, H|].
  unfold has_docs.
  destruct (mongo_find w (MONGO_DB cfg) c) as [e|[|d ds]] eqn:Hfind.
  - left. unfold export_collection_to_ndjson, find_all in H. rewrite Hfind in H.
    unfold bind, emit, raise in H. cbn in H. injection H as <- _. reflexivity.
  - left. unfold export_collection_to_ndjson, find_all in H. rewrite Hfind in H.
    unfold bind, emit, ret, print in H. cbn in H. injection H as <- _. reflexivity.
  - destruct (os_open w (after_find cfg c st) (ndjson_path cfg c dir)) as [e|] eqn:Hopen.
    { rewrite (export_open_fails cfg w client c dir (d :: ds) st e) in H
        by (assumption || discriminate).
      injection H as <- _. left. reflexivity. }
    right. split; [reflexivity|].
    destruct (serialized_or_not (d :: ds))
      as [(lines & Hs) | (pre & d' & post & t & lines & E & Hpre & Hd)].
    + rewrite (export_completes cfg w client c dir (d :: ds) lines st) in H
        by (assumption || discriminate).
      injection H as <- _. eexists. reflexivity.
    + rewrite E in Hfind.
      rewrite (export_raises cfg w client c dir pre d' post t lines st) in H
        by assumption.
      injection H as <- _. eexists. reflexivity.
Qed.

Lemma export_all_only_adds cfg w client Q all colls acc st st' r :
  (forall c, In c colls -> In c all) ->
  export_all cfg w client colls acc st = (st', r) ->
  only_adds (from_nonempty cfg w all) Q st st'.
Proof.
  revert acc st. induction colls as [|c colls IH]; intros acc st Hsub; cbn [export_all].
  - intros [= <- _]. apply only_adds_refl.
  - unfold bind at 1.
    destruct (export_collection_to_ndjson cfg w client c (OUTPUT_DIR cfg) st)
      as [s1 [p|e|code]] eqn:E.
    all: assert (H1 : only_adds (from_nonempty cfg w all) Q st s1)
      by (apply export_files_inv in E as [Ho [Hf|[Hd (content & Hf)]]];
          [apply only_adds_same; assumption|];
          eapply only_adds_file; [|exact Hf|exact Ho];
          unfold has_docs in Hd;
          destruct (mongo_find w (MONGO_DB cfg) c) as [|[|d ds]] eqn:Hfind;
          try discriminate;
          exists c, d, ds; split; [apply Hsub; left; reflexivity | auto]).
    + intros Hrest. eapply only_adds_trans; [exact H1|].
      eapply IH; [|exact Hrest]. intros c' Hc'. apply Hsub. right. exact Hc'.
    + intros [= <- _]. exact H1.
    + intros [= <- _]. exact H1.
Qed.

Lemma upload_to_s3_only_adds (P : string -> Prop) cfg w p st st' r :
  P p ->
  upload_to_s3 w p (S3_BUCKET cfg) (Some (S3_PREFIX cfg)) st = (st', r) ->
  only_adds P (destination_of P cfg) st st'.
Proof.
  intros HP H.
  pose proof (upload_to_s3_cases w p (S3_BUCKET cfg) (Some (S3_PREFIX cfg)) st) as C.
  cbv zeta in C.
  destruct (files st !! p) as [data|].
  - destruct (s3_upload_file w st p _ _) as [e|].
    + rewrite C in H. injection H as <- _. apply only_adds_same; reflexivity.
    + rewrite C in H. injection H as <- _. split.
      * intros q. left. reflexivity.
      * intros k. cbn [objects].
        destruct (decide ((S3_BUCKET cfg, upload_key p (Some (S3_PREFIX cfg))) = k))
          as [<-|Hne].
        -- right. split; [exists p; split; [exact HP | reflexivity]|].
           rewrite lookup_insert_eq. eauto.
        -- left. apply lookup_insert_ne. exact Hne.
  - rewrite C in H. injection H as <- _. apply only_adds_same; reflexivity.
Qed.

Lemma upload_all_only_adds (P : string -> Prop) cfg w l st st' r :
  Forall P l -> upload_all cfg w l st = (st', r) ->
  only_adds P (destination_of P cfg) st st'.
Proof.
  unfold upload_all. intros Hl. revert st.
  induction Hl as [|p l Hp _ IH]; intros st; cbn [for_each].
  - intros [= <- _]. apply only_adds_refl.
  - unfold bind at 1 2.
    destruct (upload_to_s3 w p (S3_BUCKET cfg) (Some (S3_PREFIX cfg)) st)
      as [s1 [k|e|code]] eqn:E.
    + unfold ret at 1. intros Hrest. eapply only_adds_trans; [|eapply IH, Hrest].
      eapply upload_to_s3_only_adds; eassumption.
    + intros [= <- _]. eapply upload_to_s3_only_adds; eassumption.
    + intros [= <- _]. eapply upload_to_s3_only_adds; eassumption.
Qed.

Lemma main_only_adds cfg w st st' r :
  main cfg w st = (st', r) ->
  only_adds (from_nonempty cfg w (COLLECTIONS cfg))
    (destination_of (from_nonempty cfg w (COLLECTIONS cfg)) cfg) st st'.
Proof.
  set (P := from_nonempty cfg w (COLLECTIONS cfg)).
  set (Q := destination_of P cfg).
  intros H.
  destruct (config_valid_dec cfg) as [Hbad|(Hdb & Hcoll & Hbk)].
  { revert H. unfold main.
    destruct (negb (Str.truthy (MONGO_DB cfg)) || _) eqn:E1.
    - intros [= <- _]. apply only_adds_same; reflexivity.
    - destruct (negb (Str.truthy (S3_BUCKET cfg))) eqn:E2.
      + intros [= <- _]. apply only_adds_same; reflexivity.
      + exfalso. apply orb_false_elim in E1 as [Edb Ecoll].
        apply negb_false_iff, truthy_true in Edb, E2.
        destruct Hbad as [Hb|[Hb|Hb]]; try congruence.
        rewrite Hb in Ecoll. discriminate. }
  destruct (os_makedirs w (OUTPUT_DIR cfg)) as [e|] eqn:Hmk.
  { rewrite (main_makedirs_fails cfg w st e) in H by assumption.
    injection H as <- _. apply only_adds_same; reflexivity. }
  rewrite main_valid_config in H by assumption. unfold bind at 1 in H.
  destruct (export_all cfg w _ _ _ _) as [s1 [out|e|code]] eqn:E.
  2,3: injection H as <- _;
       eapply only_adds_trans;
       [apply (only_adds_same P Q st (after_setup cfg st)); reflexivity|];
       eapply export_all_only_adds; [|exact E]; auto.
  assert (H1 : only_adds P Q st s1).
  { eapply only_adds_trans;
      [apply (only_adds_same P Q st (after_setup cfg st)); reflexivity|].
    eapply export_all_only_adds; [|exact E]. auto. }
  pose proof (export_all_paths _ _ _ _ _ _ _ _ E (List.Forall_nil _)) as Hout.
  eapply only_adds_trans; [exact H1|].
  destruct out as [|p out]; cbn [after_export] in H.
  - unfold bind, print, emit, sys_exit in H. injection H as <- _.
    apply only_adds_same; reflexivity.
  - unfold bind at 1 in H.
    destruct (upload_all cfg w (p :: out) s1) as [s2 [[]|e|code]] eqn:Eu.
    + unfold print, emit in H. injection H as <- _.
      eapply only_adds_trans; [eapply upload_all_only_adds; eassumption|].
      apply only_adds_same; reflexivity.
    + injection H as <- _. eapply upload_all_only_adds; eassumption.
    + injection H as <- _. eapply upload_all_only_adds; eassumption.
Qed.

(** A run of [main], however it ends, removes nothing.  A local file is as
    it was before the run, or it is the output file of a configured
    collection that returned documents, and it exists; an object of the
    storage is as it was, or it is the destination of such a file, in the
    configured bucket, and it exists. *)
Theorem main_writes_only_its_outputs (cfg : config) (w : world) (st : state) :
  let st' := fst (main cfg w st) in
  (forall p,
      files st' !! p = files st !! p
      \/ (is_Some (files st' !! p)
          /\ exists c d ds,
               In c (COLLECTIONS cfg) /\ p = ndjson_path cfg c (OUTPUT_DIR cfg)
               /\ mongo_find w (MONGO_DB cfg) c = inr (d :: ds)))
  /\ (forall bucket key,
        objects st' !! (bucket, key) = objects st !! (bucket, key)
        \/ (is_Some (objects st' !! (bucket, key))
            /\ bucket = S3_BUCKET cfg
            /\ exists c d ds,
                 In c (COLLECTIONS cfg)
                 /\ key = upload_key (ndjson_path cfg c (OUTPUT_DIR cfg))
                            (Some (S3_PREFIX cfg))
                 /\ mongo_find w (MONGO_DB cfg) c = inr (d :: ds))).
Proof.
  intros st'. destruct (main cfg w st) as [s r] eqn:E. subst st'. cbn [fst].
  destruct (main_only_adds cfg w st s r E) as [Hf Ho]. split.
  - intros p. destruct (Hf p) as [He|[HP Hs]]; [left; exact He|].
    right. split; [exact Hs | exact HP].
  - intros bucket key. destruct (Ho (bucket, key)) as [He|[(p & HP & Hk) Hs]];
      [left; exact He|].
    right. split; [exact Hs|]. unfold destination in Hk. injection Hk as -> ->.
    split; [reflexivity|].
    destruct HP as (c & d & ds & Hc & -> & Hfind). eauto 8.
Qed.

(** [sys.exit(2)] ends only the runs in which the configuration is valid,
    the output directory could be created and every configured collection
    returned no document.  Such a run leaves the disk and the bucket as they
    were and attempts no upload. *)
Theorem exit_2_only_after_empty_collections (cfg : config) (w : world) (st st' : state) :
  main cfg w st = (st', Exit 2) ->
  (MONGO_DB cfg <> EmptyString /\ COLLECTIONS cfg <> [] /\ S3_BUCKET cfg <> EmptyString)
  /\ os_makedirs w (OUTPUT_DIR cfg) = None
  /\ Forall (fun c => mongo_find w (MONGO_DB cfg) c = inr []) (COLLECTIONS cfg)
  /\ files st' = files st
  /\ objects st' = objects st
  /\ exists evs, log st' = (log st ++ evs)%list /\ List.filter is_upload evs = [].
Proof.
  intros H.
  assert (Hempty : Forall (fun c => mongo_find w (MONGO_DB cfg) c = inr [])
                     (COLLECTIONS cfg)
                   /\ (MONGO_DB cfg <> EmptyString /\ COLLECTIONS cfg <> []
                       /\ S3_BUCKET cfg <> EmptyString)
                   /\ os_makedirs w (OUTPUT_DIR cfg) = None).
  { destruct (config_valid_dec cfg) as [Hbad|(Hdb & Hcoll & Hbk)].
    { destruct (main_invalid_config cfg w st Hbad) as (s & Hs). congruence. }
    destruct (os_makedirs w (OUTPUT_DIR cfg)) as [e|] eqn:Hmk.
    { rewrite (main_makedirs_fails cfg w st e) in H by assumption. discriminate. }
    split; [|auto].
    rewrite main_valid_config in H by assumption. unfold bind at 1 in H.
    destruct (export_all cfg w _ _ _ _) as [s1 [out|e|code]] eqn:E.
    + destruct out as [|p out]; cbn [after_export] in H.
      * apply export_all_returns in E as [Hout Hall].
        apply filter_has_docs_nil; [exact Hall|].
        unfold exported_paths in Hout. cbn [app] in Hout.
        symmetry in Hout. apply map_eq_nil in Hout. exact Hout.
      * exfalso. unfold bind at 1 in H.
        destruct (upload_all cfg w (p :: out) s1) as [s2 [[]|e|code]] eqn:Eu.
        -- unfold print, emit in H. discriminate.
        -- discriminate.
        -- eapply never_exits_upload_all, Eu.
    + discriminate.
    + exfalso. eapply never_exits_export_all, E. }
  destruct Hempty as (Hall & Hvalid & Hmk).
  assert (Hnone : forall p, ~ from_nonempty cfg w (COLLECTIONS cfg) p).
  { intros p (c & d & ds & Hc & _ & Hfind).
    rewrite List.Forall_forall in Hall. rewrite (Hall c Hc) in Hfind. discriminate. }
  destruct (main_only_adds cfg w st st' _ H) as [Hf Ho].
  destruct (main_uploads_from_nonempty cfg w st st' _ H) as (evs & Hlog & Hup).
  split; [exact Hvalid|]. split; [exact Hmk|]. split; [exact Hall|].
  split; [|split].
  - apply map_eq. intros p. destruct (Hf p) as [E|[HP _]]; [exact E|].
    exfalso. exact (Hnone p HP).
  - apply map_eq. intros k. destruct (Ho k) as [E|[(p & HP & _) _]]; [exact E|].
    exfalso. exact (Hnone p HP).
  - exists evs. split; [exact Hlog|]. apply filter_no_upload.
    apply List.Forall_forall. intros e He.
    destruct e as [| | | | | |p b k]; try reflexivity.
    exfalso. exact (Hnone p (Hup p b k He)).
Qed.

Lemma exit_2_only_after_empty_collections_witness :
  Forall (fun c => mongo_find empty_world "shop" c = inr []) ["users"; "orders"; "logs"]
  /\ files (fst (main demo_cfg empty_world fresh)) = files fresh.
Proof.
  destruct (main demo_cfg empty_world fresh) as [st' r] eqn:E.
  assert (Hr : r = Exit 2).
  { assert (Hs : snd (main demo_cfg empty_world fresh) = r) by (rewrite E; reflexivity).
    vm_compute in Hs. congruence. }
  subst r.
  destruct (exit_2_only_after_empty_collections demo_cfg empty_world fresh st' E)
    as (_ & _ & Hall & Hfiles & _).
  split; [exact Hall | exact Hfiles].
Defined.

(** ** Errors before the upload phase *)

(** When the output directory cannot be created, the run ends with that
    error and status 1 right after the attempt: no client is built, no
    collection is queried, nothing is written and nothing is uploaded. *)
Theorem makedirs_error_ends_run (cfg : config) (w : world) (st : state) (e : exn) :
  MONGO_DB cfg <> EmptyString -> COLLECTIONS cfg <> [] -> S3_BUCKET cfg <> EmptyString ->
  os_makedirs w (OUTPUT_DIR cfg) = Some e ->
  script cfg w st
  = (mkState (files st) (objects st)
       (log st ++ [EvMakedirs (OUTPUT_DIR cfg); EvPrint stdout MsgDuration])%list,
     Raise e)
  /\ exit_status (snd (script cfg w st)) = 1%Z
  /\ List.filter is_network [EvMakedirs (OUTPUT_DIR cfg); EvPrint stdout MsgDuration] = [].
Proof.
  intros Hdb Hcoll Hbk Hmk.
  assert (E : script cfg w st
    = (mkState (files st) (objects st)
         (log st ++ [EvMakedirs (OUTPUT_DIR cfg); EvPrint stdout MsgDuration])%list,
       Raise e)).
  { unfold script. rewrite (main_makedirs_fails cfg w st e) by assumption.
    unfold print, emit. cbn [fst files objects log]. rewrite <- app_assoc. reflexivity. }
  split; [exact E|]. rewrite E. split; reflexivity.
Qed.

Lemma makedirs_error_ends_run_witness :
  script demo_cfg readonly_world fresh
  = (mkState ∅ ∅ [EvMakedirs "/app/out"; EvPrint stdout MsgDuration],
     Raise (OtherError "PermissionError")).
Proof.
  assert (Hdb : MONGO_DB demo_cfg <> EmptyString) by discriminate.
  assert (Hcoll : COLLECTIONS demo_cfg <> []) by discriminate.
  assert (Hbk : S3_BUCKET demo_cfg <> EmptyString) by discriminate.
  exact (proj1 (makedirs_error_ends_run demo_cfg readonly_world fresh
                  (OtherError "PermissionError") Hdb Hcoll Hbk eq_refl)).
Defined.

(** When the query of a collection raises, after the collections before it
    were exported, the run ends there with that error and status 1.  The
    files already exported stay on disk as they are, the bucket is untouched
    and no upload was attempted: the remaining collections are not queried
    and the files already exported are not uploaded. *)
Theorem query_error_ends_run
    (cfg : config) (w : world) (before rest exported_files : list string)
    (c : string) (e : exn) (st0 st : state) :
  MONGO_DB cfg <> EmptyString -> S3_BUCKET cfg <> EmptyString ->
  os_makedirs w (OUTPUT_DIR cfg) = None ->
  COLLECTIONS cfg = (before ++ c :: rest)%list ->
  export_all cfg w (mkMongoClient (mongo_uri cfg)) before [] (after_setup cfg st0)
  = (st, Return exported_files) ->
  mongo_find w (MONGO_DB cfg) c = inl e ->
  main cfg w st0
  = (mkState (files st) (objects st) (log st ++ [EvFind (MONGO_DB cfg) c])%list, Raise e)
  /\ exit_status (snd (script cfg w st0)) = 1%Z
  /\ objects (fst (script cfg w st0)) = objects st0
  /\ files (fst (script cfg w st0)) = files st
  /\ exists evs, log (fst (script cfg w st0)) = (log st0 ++ evs)%list
                 /\ List.filter is_upload evs = [].
Proof.
  intros Hdb Hbk Hmk Hcolls Hbefore Hfind.
  set (st' := mkState (files st) (objects st) (log st ++ [EvFind (MONGO_DB cfg) c])%list).
  assert (Hexp : export_collection_to_ndjson cfg w (mkMongoClient (mongo_uri cfg)) c
                   (OUTPUT_DIR cfg) st = (st', Raise e)).
  { unfold export_collection_to_ndjson, find_all. rewrite Hfind. reflexivity. }
  assert (Hmain : main cfg w st0 = (st', Raise e)).
  { rewrite main_valid_config; try assumption.
    - rewrite Hcolls. unfold bind at 1. rewrite export_all_app, Hbefore.
      cbn [export_all]. unfold bind at 1. rewrite Hexp. reflexivity.
    - rewrite Hcolls. destruct before; discriminate. }
  assert (Hq : quiet st0 st').
  { eapply quiet_trans; [apply quiet_after_setup|].
    eapply quiet_trans; [eapply quiet_export_all, Hbefore|].
    eapply quiet_export_collection, Hexp. }
  destruct Hq as [Hobj (evs & Hlog & Hevs)].
  split; [exact Hmain|].
  unfold script. rewrite Hmain. cbn [fst snd exit_status print emit files objects log].
  split; [reflexivity|]. split; [exact Hobj|]. split; [reflexivity|].
  exists (evs ++ [EvPrint stdout MsgDuration])%list. split.
  - cbn [log] in Hlog. rewrite Hlog, <- app_assoc. reflexivity.
  - rewrite List.filter_app, filter_no_upload by exact Hevs. reflexivity.
Qed.

Lemma query_error_ends_run_witness :
  snd (script demo_cfg unreachable_world fresh)
  = Raise (OtherError "ServerSelectionTimeoutError")
  /\ is_Some (files (fst (script demo_cfg unreachable_world fresh))
              !! "/app/out/users_20240101T000000Z.ndjson")
  /\ objects (fst (script demo_cfg unreachable_world fresh)) = ∅.
Proof.
  pose (st := fst (export_all demo_cfg unreachable_world (mkMongoClient (mongo_uri demo_cfg))
                     ["users"] [] (after_setup demo_cfg fresh))).
  assert (Hdb : MONGO_DB demo_cfg <> EmptyString) by discriminate.
  assert (Hbk : S3_BUCKET demo_cfg <> EmptyString) by discriminate.
  assert (Hbefore :
    export_all demo_cfg unreachable_world (mkMongoClient (mongo_uri demo_cfg))
      ["users"] [] (after_setup demo_cfg fresh)
    = (st, Return ["/app/out/users_20240101T000000Z.ndjson"]))
    by (vm_compute; reflexivity).
  destruct (query_error_ends_run demo_cfg unreachable_world ["users"] ["logs"]
              ["/app/out/users_20240101T000000Z.ndjson"] "orders"
              (OtherError "ServerSelectionTimeoutError") fresh st
              Hdb Hbk eq_refl eq_refl Hbefore eq_refl)
    as (Hmain & _ & Hobj & Hfiles & _).
  split; [unfold script; rewrite Hmain; reflexivity|].
  split; [rewrite Hfiles; vm_compute; eauto | exact Hobj].
Defined.

(** ** File names and keys of the exported collections *)

Lemma rfind_from_absent c s i found :
  Str.count c s = 0 -> Py.rfind_from c s i found = found.
Proof.
  revert i found. induction s as [|a s IH]; intros i found; simpl; [reflexivity|].
  destruct (Ascii.eqb a c); [discriminate|]. intros H. apply IH. exact H.
Qed.

Lemma rfind_from_app_absent c dir base i found :
  Str.count c base = 0 ->
  Py.rfind_from c (dir ++ base) i found = Py.rfind_from c dir i found.
Proof.
  intros Hb. revert i found. induction dir as [|a dir IH]; intros i found; simpl.
  - apply rfind_from_absent, Hb.
  - apply IH.
Qed.

Lemma rfind_from_last c d i found :
  Py.rfind_from c (d ++ String c EmptyString) i found = (i + Z.of_nat (String.length d))%Z.
Proof.
  revert i found. induction d as [|a d IH]; intros i found; simpl.
  - rewrite Ascii.eqb_refl. lia.
  - rewrite IH. lia.
Qed.

Lemma last_decompose s a : Str.last s = Some a -> exists d, s = d ++ String a EmptyString.
Proof.
  induction s as [|b s IH]; [discriminate|]. simpl.
  destruct s as [|b' s'].
  - intros [= ->]. exists EmptyString. reflexivity.
  - intros H. destruct (IH H) as (d & Hd). exists (String b d). simpl. rewrite <- Hd.
    reflexivity.
Qed.

Lemma drop_app s1 s2 : Py.drop (String.length s1) (s1 ++ s2) = s2.
Proof. induction s1 as [|a s1 IH]; simpl; [destruct s2; reflexivity | exact IH]. Qed.

(** [basename] of a directory part, empty or ending in a slash, followed
    by a name without slash, is that name. *)
Lemma basename_app dir base :
  slash_free base ->
  dir = EmptyString \/ Py.endswith "/" dir = true ->
  Py.basename (dir ++ base) = base.
Proof.
  intros Hb [->|Hd].
  - unfold Py.basename, Py.rfind. simpl String.append.
    rewrite rfind_from_absent by exact Hb. reflexivity.
  - unfold Py.endswith in Hd. destruct (Str.last dir) as [a|] eqn:El; [|discriminate].
    apply Ascii.eqb_eq in Hd. subst a.
    destruct (last_decompose dir "/" El) as (d & ->).
    unfold Py.basename, Py.rfind.
    rewrite rfind_from_app_absent by exact Hb. rewrite rfind_from_last.
    replace (Z.to_nat (0 + Z.of_nat (String.length d) + 1))
      with (String.length (d ++ String "/" EmptyString))
      by (rewrite str_length_app; simpl; lia).
    apply drop_app.
Qed.

Lemma slash_free_startswith b : slash_free b -> Py.startswith "/" b = false.
Proof.
  unfold slash_free. destruct b as [|a b]; [reflexivity|]. simpl.
  destruct (Ascii.eqb a "/"); [discriminate | reflexivity].
Qed.

(** [join] puts a directory part, empty or ending in a slash, in front of a
    name without slash. *)
Lemma join_decompose a b :
  slash_free b ->
  exists dir, Py.join a b = dir ++ b
              /\ (dir = EmptyString \/ Py.endswith "/" dir = true)
              /\ forall b', slash_free b' -> Py.join a b' = dir ++ b'.
Proof.
  intros Hb. unfold Py.join.
  destruct (negb (Str.truthy a) || Py.endswith "/" a) eqn:E.
  - exists a. rewrite (slash_free_startswith b Hb). split; [reflexivity|]. split.
    + apply orb_true_iff in E as [E|E]; [left|right; exact E].
      apply negb_true_iff in E. destruct a; [reflexivity | discriminate].
    + intros b' Hb'. rewrite (slash_free_startswith b' Hb'). reflexivity.
  - exists (a ++ String "/" EmptyString). rewrite (slash_free_startswith b Hb).
    split; [rewrite str_app_assoc; reflexivity|]. split.
    + right. unfold Py.endswith. rewrite last_app_single. reflexivity.
    + intros b' Hb'. rewrite (slash_free_startswith b' Hb'), str_app_assoc. reflexivity.
Qed.

Lemma ndjson_name_slash_free cfg c :
  slash_free c -> slash_free (TIMESTAMP cfg) -> slash_free (ndjson_name cfg c).
Proof.
  unfold slash_free, ndjson_name. intros Hc Ht.
  rewrite !count_app, Hc, Ht. reflexivity.
Qed.

Lemma exported_file_key_aux (cfg : config) (c dir : string) (prefix : option string) :
  slash_free c -> slash_free (TIMESTAMP cfg) ->
  Py.basename (ndjson_path cfg c dir) = ndjson_name cfg c
  /\ upload_key (ndjson_path cfg c dir) prefix
     = match prefix with
       | Some (String a p') => Py.rstrip "/" (String a p') ++ "/" ++ ndjson_name cfg c
       | Some EmptyString | None => ndjson_name cfg c
       end.
Proof.
  intros Hc Ht.
  pose proof (ndjson_name_slash_free cfg c Hc Ht) as Hn.
  assert (Hb : Py.basename (ndjson_path cfg c dir) = ndjson_name cfg c).
  { unfold ndjson_path. cbv zeta. fold (ndjson_name cfg c).
    destruct (join_decompose dir (ndjson_name cfg c) Hn) as (d & -> & Hd & _).
    apply basename_app; assumption. }
  split; [exact Hb|].
  unfold upload_key. rewrite Hb. destruct prefix as [[|a p']|]; reflexivity.
Qed.

(** The file of a collection whose name has no slash lies in the output
    directory under the name [collection_timestamp.ndjson], and it is stored
    under that name, behind the prefix if there is one: neither the output
    directory nor anything else of the local path shows in the key. *)
Theorem exported_file_key (cfg : config) (c dir : string) (prefix : option string) :
  slash_free c -> slash_free (TIMESTAMP cfg) ->
  Py.basename (ndjson_path cfg c dir) = ndjson_name cfg c
  /\ upload_key (ndjson_path cfg c dir) prefix
     = match prefix with
       | Some (String a p') => Py.rstrip "/" (String a p') ++ "/" ++ ndjson_name cfg c
       | Some EmptyString | None => ndjson_name cfg c
       end.
Proof. apply exported_file_key_aux. Qed.

Lemma exported_file_key_witness :
  upload_key (ndjson_path demo_cfg "users" "/app/out") (Some "backups//")
  = "backups/users_20240101T000000Z.ndjson".
Proof.
  assert (Hc : slash_free "users") by reflexivity.
  assert (Ht : slash_free (TIMESTAMP demo_cfg)) by reflexivity.
  exact (proj2 (exported_file_key demo_cfg "users" "/app/out" (Some "backups//") Hc Ht)).
Defined.

Lemma ndjson_name_inj cfg c1 c2 : ndjson_name cfg c1 = ndjson_name cfg c2 -> c1 = c2.
Proof. unfold ndjson_name. apply str_app_inv_tail. Qed.

Lemma ndjson_path_inj cfg c1 c2 dir :
  slash_free c1 -> slash_free c2 ->
  ndjson_path cfg c1 dir = ndjson_path cfg c2 dir -> c1 = c2.
Proof.
  intros H1 H2. unfold ndjson_path. cbv zeta. fold (ndjson_name cfg c1) (ndjson_name cfg c2).
  assert (Hs : forall c, slash_free c -> Py.startswith "/" (ndjson_name cfg c) = false).
  { intros c Hc. unfold ndjson_name. destruct c as [|a c]; [reflexivity|].
    unfold slash_free in Hc. simpl in *. destruct (Ascii.eqb a "/"); [discriminate|reflexivity]. }
  unfold Py.join. rewrite (Hs c1 H1), (Hs c2 H2).
  destruct (negb (Str.truthy dir) || Py.endswith "/" dir); intros H.
  - apply str_app_inv_head in H. apply ndjson_name_inj in H. exact H.
  - apply str_app_inv_head in H. simpl in H. injection H as H.
    apply ndjson_name_inj in H. exact H.
Qed.

(** Two collections with different names, neither of them with a slash,
    are exported to different files and stored under different keys: one
    does not overwrite the other, on disk or in the bucket. *)
Theorem distinct_collections_distinct_outputs
    (cfg : config) (c1 c2 dir : string) (prefix : option string) :
  slash_free c1 -> slash_free c2 -> slash_free (TIMESTAMP cfg) -> c1 <> c2 ->
  ndjson_path cfg c1 dir <> ndjson_path cfg c2 dir
  /\ upload_key (ndjson_path cfg c1 dir) prefix
     <> upload_key (ndjson_path cfg c2 dir) prefix.
Proof.
  intros H1 H2 Ht Hne. split.
  - intros E. apply Hne. eapply ndjson_path_inj; eassumption.
  - destruct (exported_file_key_aux cfg c1 dir prefix H1 Ht) as [_ ->].
    destruct (exported_file_key_aux cfg c2 dir prefix H2 Ht) as [_ ->].
    intros E. apply Hne. destruct prefix as [[|a p']|].
    + apply ndjson_name_inj in E. exact E.
    + apply str_app_inv_head in E. simpl in E. injection E as E.
      apply ndjson_name_inj in E. exact E.
    + apply ndjson_name_inj in E. exact E.
Qed.

Lemma distinct_collections_distinct_outputs_witness :
  upload_key (ndjson_path demo_cfg "users" "/app/out") (Some "backups/")
  <> upload_key (ndjson_path demo_cfg "orders" "/app/out") (Some "backups/").
Proof.
  assert (H1 : slash_free "users") by reflexivity.
  assert (H2 : slash_free "orders") by reflexivity.
  assert (Ht : slash_free (TIMESTAMP demo_cfg)) by reflexivity.
  assert (Hne : "users" <> "orders") by discriminate.
  exact (proj2 (distinct_collections_distinct_outputs demo_cfg "users" "orders" "/app/out"
                  (Some "backups/") H1 H2 Ht Hne)).
Defined.

(** ** Runs that reach the end *)

Lemma filter_upload_flat cfg l :
  List.filter is_upload (flat_map (upload_events cfg) l)
  = map (fun p => EvUploadFile p (S3_BUCKET cfg) (upload_key p (Some (S3_PREFIX cfg)))) l.
Proof. induction l as [|p l IH]; [reflexivity|]. cbn. rewrite IH. reflexivity. Qed.

(** A loop of uploads that returns: every file was there, each was
    uploaded once, in order, and the disk is as it was. *)
Lemma upload_all_returns cfg w l st st' :
  upload_all cfg w l st = (st', Return tt) ->
  files st' = files st
  /\ log st' = (log st ++ flat_map (upload_events cfg) l)%list
  /\ (forall p, In p l -> is_Some (files st !! p)
                          /\ is_Some (objects st' !! destination cfg p)).
Proof.
  unfold upload_all. revert st. induction l as [|x l IH]; intros st; cbn [for_each].
  - intros [= <-]. cbn [flat_map]. rewrite app_nil_r.
    split; [reflexivity|]. split; [reflexivity|]. intros q [].
  - unfold bind at 1 2.
    destruct (upload_to_s3 w x (S3_BUCKET cfg) (Some (S3_PREFIX cfg)) st)
      as [sx [k|e|code]] eqn:Ex; try discriminate.
    unfold ret at 1. intros Hrest.
    pose proof Ex as Hinv.
    apply upload_to_s3_inv in Hinv as (Hf & Hmono & _ & Hobj & Hin & Hlog).
    destruct (IH _ Hrest) as (Hf' & Hlog' & Hall).
    split; [congruence|]. split.
    + rewrite Hlog', Hlog. cbn [flat_map upload_events app].
      rewrite <- app_assoc. reflexivity.
    + intros q [<-|Hp].
      * split.
        -- rewrite <- Hobj. exact Hin.
        -- pose proof (upload_all_done cfg w l sx st' Hrest) as (_ & Hm & _).
           apply Hm. exact Hin.
      * destruct (Hall q Hp) as [H1 H2]. split; [rewrite <- Hf; exact H1 | exact H2].
Qed.

(** A run of [main] that returns normally had a valid configuration and
    met no error; at least one collection had documents; every configured
    collection with documents has its file on disk and its object in the
    bucket; the uploads attempted are those of the files of these
    collections, once per occurrence in the configuration and in that
    order; and the last line printed is the completion notice. *)
Theorem normal_return_means_all_uploaded (cfg : config) (w : world) (st st' : state) :
  main cfg w st = (st', Return tt) ->
  (MONGO_DB cfg <> EmptyString /\ COLLECTIONS cfg <> [] /\ S3_BUCKET cfg <> EmptyString)
  /\ Forall (fun c => exists docs, mongo_find w (MONGO_DB cfg) c = inr docs) (COLLECTIONS cfg)
  /\ List.filter (has_docs cfg w) (COLLECTIONS cfg) <> []
  /\ (forall c, In c (COLLECTIONS cfg) -> has_docs cfg w c = true ->
        is_Some (files st' !! ndjson_path cfg c (OUTPUT_DIR cfg))
        /\ is_Some (objects st' !! destination cfg (ndjson_path cfg c (OUTPUT_DIR cfg))))
  /\ exists evs,
       log st' = (log st ++ evs ++ [EvPrint stdout MsgDone])%list
       /\ List.filter is_upload evs
          = map (fun p => EvUploadFile p (S3_BUCKET cfg)
                            (upload_key p (Some (S3_PREFIX cfg))))
              (exported_paths cfg w (COLLECTIONS cfg)).
Proof.
  intros H.
  destruct (config_valid_dec cfg) as [Hbad|(Hdb & Hcoll & Hbk)].
  { destruct (main_invalid_config cfg w st Hbad) as (s & Hs). congruence. }
  destruct (os_makedirs w (OUTPUT_DIR cfg)) as [e|] eqn:Hmk.
  { rewrite (main_makedirs_fails cfg w st e) in H by assumption. discriminate. }
  split; [auto|].
  rewrite main_valid_config in H by assumption. unfold bind at 1 in H.
  destruct (export_all cfg w _ _ _ _) as [s1 [out|e|code]] eqn:E; try discriminate.
  pose proof (quiet_export_all _ _ _ _ _ _ _ _ E) as [_ (ev1 & Hlog1 & Hq1)].
  apply export_all_returns in E as [Hout Hall]. cbn [app] in Hout.
  split; [exact Hall|].
  destruct out as [|p out]; cbn [after_export] in H.
  { unfold bind, print, emit, sys_exit in H. discriminate. }
  split.
  { intros Hnil. unfold exported_paths in Hout. rewrite Hnil in Hout. discriminate. }
  unfold bind at 1 in H.
  destruct (upload_all cfg w (p :: out) s1) as [s2 [[]|e|code]] eqn:Eu; try discriminate.
  unfold print, emit in H. injection H as <-. cbn [files objects log].
  apply upload_all_returns in Eu as (Hf & Hlog2 & Hup).
  split.
  - intros c Hc Hd.
    assert (Hin : In (ndjson_path cfg c (OUTPUT_DIR cfg)) (p :: out)).
    { rewrite Hout. unfold exported_paths.
      apply (in_map (fun c => ndjson_path cfg c (OUTPUT_DIR cfg))).
      apply filter_In. auto. }
    destruct (Hup _ Hin) as [H1 H2]. split; [rewrite Hf; exact H1 | exact H2].
  - exists ([EvMakedirs (OUTPUT_DIR cfg); EvMongoClient (mongo_uri cfg)] ++ ev1
            ++ flat_map (upload_events cfg) (p :: out))%list.
    split.
    + rewrite Hlog2, Hlog1. unfold after_setup. cbn [log].
      rewrite <- !app_assoc. reflexivity.
    + rewrite !List.filter_app, (filter_no_upload ev1 Hq1), filter_upload_flat, Hout.
      reflexivity.
Qed.

Lemma normal_return_means_all_uploaded_witness :
  is_Some (objects (fst (main demo_cfg five_world fresh))
           !! ("bucket", "backups/orders_20240101T000000Z.ndjson")).
Proof.
  destruct (main demo_cfg five_world fresh) as [st' r] eqn:E.
  assert (Hr : r = Return tt).
  { assert (Hs : snd (main demo_cfg five_world fresh) = r) by (rewrite E; reflexivity).
    vm_compute in Hs. congruence. }
  subst r.
  destruct (normal_return_means_all_uploaded demo_cfg five_world fresh st' E)
    as (_ & _ & _ & Hall & _).
  destruct (Hall "orders") as [_ H]; [right; left; reflexivity | reflexivity | exact H].
Defined.

(** ** Runs that delivered *)

(** An export that returns: the collection was empty and nothing changed,
    or every document was encoded and the file holds their lines. *)
Lemma export_one_returns cfg w client c dir st st' p :
  export_collection_to_ndjson cfg w client c dir st = (st', Return p) ->
  objects st' = objects st
  /\ ((mongo_find w (MONGO_DB cfg) c = inr [] /\ files st' = files st)
      \/ (exists docs lines,
            mongo_find w (MONGO_DB cfg) c = inr docs /\ docs <> []
            /\ serialized docs lines
            /\ files st' = <[ndjson_path cfg c dir := ndjson lines]> (files st))).
Proof.
  intros Hrun.
  destruct (mongo_find w (MONGO_DB cfg) c) as [e|docs] eqn:Hfind.
  { exfalso. revert Hrun. unfold export_collection_to_ndjson, find_all. rewrite Hfind.
    unfold bind, emit, raise. discriminate. }
  destruct docs as [|d ds].
  { revert Hrun. unfold export_collection_to_ndjson, find_all. rewrite Hfind.
    unfold bind, print, emit, ret. cbn [fst snd]. intros [= <- _].
    split; [reflexivity|]. left. split; reflexivity. }
  assert (Hne : d :: ds <> []) by discriminate.
  destruct (os_open w (after_find cfg c st) (ndjson_path cfg c dir)) as [e|] eqn:Hopen.
  { rewrite (export_open_fails cfg w client c dir (d :: ds) st e) in Hrun by assumption.
    discriminate. }
  destruct (serialized_or_not (d :: ds))
    as [(lines & Hs) | (pre & d0 & post & t & lines & E & Hpre & Hd)].
  - rewrite (export_completes cfg w client c dir (d :: ds) lines st) in Hrun by assumption.
    injection Hrun as <- _. cbn [files objects].
    split; [reflexivity|]. right. exists (d :: ds), lines. auto.
  - rewrite E in Hfind.
    rewrite (export_raises cfg w client c dir pre d0 post t lines st) in Hrun by assumption.
    discriminate.
Qed.

(** An export loop that returns, over collections whose names have no
    slash: the file of each collection with documents holds the lines of its
    documents, and no other file changed. *)
Lemma export_all_delivers cfg w client l :
  (forall c, In c l -> slash_free c) ->
  forall acc st st' out,
    export_all cfg w client l acc st = (st', Return out) ->
    objects st' = objects st
    /\ (forall c docs,
          In c l -> mongo_find w (MONGO_DB cfg) c = inr docs -> docs <> [] ->
          exists lines,
            serialized docs lines
            /\ files st' !! ndjson_path cfg c (OUTPUT_DIR cfg) = Some (ndjson lines))
    /\ (forall p,
          (forall c, In c l -> has_docs cfg w c = true ->
                     p <> ndjson_path cfg c (OUTPUT_DIR cfg)) ->
          files st' !! p = files st !! p).
Proof.
  induction l as [|c l IH]; intros Hslash acc st st' out Hrun.
  - cbn [export_all] in Hrun. injection Hrun as <- _.
    split; [reflexivity|]. split; [intros c docs []|auto].
  - cbn [export_all] in Hrun. unfold bind at 1 in Hrun.
    destruct (export_collection_to_ndjson cfg w client c (OUTPUT_DIR cfg) st)
      as [s1 [p|e|code]] eqn:E1; try discriminate.
    destruct (export_one_returns _ _ _ _ _ _ _ _ E1) as [Ho1 Hf1].
    destruct (IH (fun c' Hc' => Hslash c' (or_intror Hc')) _ _ _ _ Hrun)
      as (Ho2 & Hin2 & Hout2).
    split; [congruence|]. split.
    + intros c' docs [<-|Hc'] Hfind Hne; [|eapply Hin2; eassumption].
      destruct (List.in_dec String.string_dec c l) as [Hcl|Hncl];
        [eapply Hin2; eassumption|].
      destruct Hf1 as [[Hempty _]|(docs' & lines & Hfind' & _ & Hs & Hfiles)];
        [congruence|].
      assert (docs' = docs) by congruence. subst docs'.
      exists lines. split; [exact Hs|].
      rewrite Hout2; [rewrite Hfiles; apply lookup_insert_eq|].
      intros c2 Hc2 _ Heq. apply Hncl.
      assert (c = c2); [|congruence].
      eapply ndjson_path_inj; [| |exact Heq].
      * apply Hslash. left. reflexivity.
      * apply Hslash. right. exact Hc2.
    + intros q Hq. rewrite Hout2.
      * destruct Hf1 as [[_ ->]|(docs' & lines & Hfind' & Hne' & _ & ->)]; [reflexivity|].
        apply lookup_insert_ne. intros Heq. apply (Hq c); [left; reflexivity| |auto].
        unfold has_docs. rewrite Hfind'. destruct docs'; [congruence | reflexivity].
      * intros c2 Hc2 Hd2. apply Hq; [right; exact Hc2 | exact Hd2].
Qed.

(** An upload loop that returns, over files with distinct destinations:
    every object holds what its file held, and the disk is as it was. *)
Lemma upload_all_delivers cfg w l :
  (forall p q, In p l -> In q l -> destination cfg p = destination cfg q -> p = q) ->
  forall st st',
    upload_all cfg w l st = (st', Return tt) ->
    files st' = files st
    /\ (forall p, In p l ->
          is_Some (files st !! p) /\ objects st' !! destination cfg p = files st !! p)
    /\ (forall k, (forall p, In p l -> k <> destination cfg p) ->
          objects st' !! k = objects st !! k).
Proof.
  unfold upload_all. induction l as [|x l IH]; intros Hinj st st' Hrun.
  - cbn [for_each] in Hrun. injection Hrun as <-.
    split; [reflexivity|]. split; [intros p []|auto].
  - cbn [for_each] in Hrun. unfold bind at 1 2 in Hrun.
    pose proof (upload_to_s3_cases w x (S3_BUCKET cfg) (Some (S3_PREFIX cfg)) st) as C.
    cbv zeta in C.
    destruct (files st !! x) as [data|] eqn:Hdata; [|rewrite C in Hrun; discriminate].
    destruct (s3_upload_file w st x (S3_BUCKET cfg) (upload_key x (Some (S3_PREFIX cfg))))
      as [e|]; [rewrite C in Hrun; discriminate|].
    rewrite C in Hrun. unfold ret at 1 in Hrun.
    match type of C with _ = (?s, _) => set (s1 := s) in * end.
    destruct (IH (fun p q Hp Hq => Hinj p q (or_intror Hp) (or_intror Hq)) s1 st' Hrun)
      as (Hf2 & Hin2 & Hout2).
    split; [rewrite Hf2; reflexivity|]. split.
    + intros p [<-|Hp].
      * split; [rewrite Hdata; eauto|].
        destruct (List.in_dec String.string_dec x l) as [Hxl|Hnxl];
          [destruct (Hin2 x Hxl) as [_ ->]; reflexivity|].
        rewrite Hout2.
        -- subst s1. cbn [objects]. unfold destination. rewrite lookup_insert_eq.
           symmetry. exact Hdata.
        -- intros q Hq Heq. apply Hnxl.
           rewrite (Hinj x q (or_introl eq_refl) (or_intror Hq) Heq). exact Hq.
      * destruct (Hin2 p Hp) as [Hs Ho]. split; [exact Hs | exact Ho].
    + intros k Hk. rewrite Hout2.
      * subst s1. cbn [objects]. apply lookup_insert_ne.
        intros Heq. apply (Hk x); [left; reflexivity|]. symmetry. exact Heq.
      * intros q Hq. apply Hk. right. exact Hq.
Qed.

(** A run of [main] that returns delivered every collection.  When the
    timestamp and the names of the configured collections have no slash, for
    every configured collection that returned documents the local file and
    the object stored under its key both hold exactly the lines [json.dumps]
    gives for its documents once normalized, in order, each ended by a line
    feed. *)
Theorem completed_run_delivers_every_collection
    (cfg : config) (w : world) (st st' : state) :
  main cfg w st = (st', Return tt) ->
  slash_free (TIMESTAMP cfg) ->
  (forall c, In c (COLLECTIONS cfg) -> slash_free c) ->
  forall c docs,
    In c (COLLECTIONS cfg) -> mongo_find w (MONGO_DB cfg) c = inr docs -> docs <> [] ->
    exists lines,
      serialized docs lines
      /\ length lines = length docs
      /\ files st' !! ndjson_path cfg c (OUTPUT_DIR cfg) = Some (ndjson lines)
      /\ objects st' !! (S3_BUCKET cfg,
                         upload_key (ndjson_path cfg c (OUTPUT_DIR cfg))
                           (Some (S3_PREFIX cfg)))
         = Some (ndjson lines).
Proof.
  intros H Hts Hslash c docs Hc Hfind Hne.
  destruct (config_valid_dec cfg) as [Hbad|(Hdb & Hcoll & Hbk)].
  { destruct (main_invalid_config cfg w st Hbad) as (s & Hs). congruence. }
  destruct (os_makedirs w (OUTPUT_DIR cfg)) as [e|] eqn:Hmk.
  { rewrite (main_makedirs_fails cfg w st e) in H by assumption. discriminate. }
  rewrite main_valid_config in H by assumption. unfold bind at 1 in H.
  destruct (export_all cfg w _ _ _ _) as [s1 [out|e|code]] eqn:E; try discriminate.
  destruct (export_all_delivers _ _ _ _ Hslash _ _ _ _ E) as (_ & Hin1 & _).
  apply export_all_returns in E as [Hout _]. cbn [app] in Hout.
  destruct out as [|p out]; cbn [after_export] in H.
  { unfold bind, print, emit, sys_exit in H. discriminate. }
  unfold bind at 1 in H.
  destruct (upload_all cfg w (p :: out) s1) as [s2 [[]|e|code]] eqn:Eu; try discriminate.
  unfold print, emit in H. injection H as <-. cbn [files objects].
  assert (Hpaths : forall q, In q (p :: out) ->
            exists c', q = ndjson_path cfg c' (OUTPUT_DIR cfg) /\ In c' (COLLECTIONS cfg)).
  { intros q Hq. rewrite Hout in Hq. unfold exported_paths in Hq.
    apply in_map_iff in Hq as (c' & <- & Hc'). apply filter_In in Hc' as [Hc' _]. eauto. }
  apply upload_all_delivers in Eu as (Hf2 & Hin2 & _).
  - destruct (Hin1 c docs Hc Hfind Hne) as (lines & Hs & Hfile).
    exists lines. split; [exact Hs|].
    split; [clear -Hs; induction Hs; simpl; congruence|].
    split; [rewrite Hf2; exact Hfile|].
    assert (Hin : In (ndjson_path cfg c (OUTPUT_DIR cfg)) (p :: out)).
    { rewrite Hout. unfold exported_paths.
      apply (in_map (fun c => ndjson_path cfg c (OUTPUT_DIR cfg))).
      apply filter_In. split; [exact Hc|]. unfold has_docs. rewrite Hfind.
      destruct docs; [congruence | reflexivity]. }
    destruct (Hin2 _ Hin) as [_ Ho]. unfold destination in Ho. rewrite Ho. exact Hfile.
  - intros q1 q2 Hq1 Hq2 Heq.
    destruct (Hpaths q1 Hq1) as (c1 & -> & Hc1).
    destruct (Hpaths q2 Hq2) as (c2 & -> & Hc2).
    pose proof (Hslash c1 Hc1) as Hs1. pose proof (Hslash c2 Hc2) as Hs2.
    unfold destination in Heq. apply (f_equal snd) in Heq. cbn [snd] in Heq.
    destruct (exported_file_key_aux cfg c1 (OUTPUT_DIR cfg) (Some (S3_PREFIX cfg)) Hs1 Hts)
      as [_ K1].
    destruct (exported_file_key_aux cfg c2 (OUTPUT_DIR cfg) (Some (S3_PREFIX cfg)) Hs2 Hts)
      as [_ K2].
    rewrite K1, K2 in Heq.
    assert (c1 = c2); [|congruence].
    destruct (S3_PREFIX cfg) as [|a p'].
    + apply ndjson_name_inj in Heq. exact Heq.
    + apply str_app_inv_head in Heq. simpl in Heq. injection Heq as Heq.
      apply ndjson_name_inj in Heq. exact Heq.
Qed.

Lemma completed_run_delivers_every_collection_witness :
  exists lines,
    length lines = 5
    /\ objects (fst (main demo_cfg five_world fresh))
         !! ("bucket", "backups/orders_20240101T000000Z.ndjson")
       = Some (ndjson lines).
Proof.
  destruct (main demo_cfg five_world fresh) as [st' r] eqn:E.
  assert (Hr : r = Return tt).
  { assert (Hs : snd (main demo_cfg five_world fresh) = r) by (rewrite E; reflexivity).
    vm_compute in Hs. congruence. }
  subst r.
  assert (Hslash : forall c, In c (COLLECTIONS demo_cfg) -> slash_free c).
  { intros c [<-|[<-|[<-|[]]]]; reflexivity. }
  destruct (completed_run_delivers_every_collection demo_cfg five_world fresh st' E
              eq_refl Hslash "orders"
              [demo_user 1; demo_user 2; demo_user 3; demo_user 4; demo_user 5])
    as (lines & _ & Hlen & _ & Ho);
    [right; left; reflexivity | reflexivity | discriminate |].
  exists lines. split; [exact Hlen | exact Ho].
Defined.

(** ** The list of collections *)

Lemma removeprefix_spec t s r : Py.removeprefix t s = Some r <-> s = t ++ r.
Proof.
  revert s. induction t as [|a t IH]; intros s; simpl.
  - split; [intros [= ->]; reflexivity | intros ->; reflexivity].
  - destruct s as [|b s]; [split; discriminate|].
    destruct (Ascii.eqb_spec a b) as [->|Hab].
    + rewrite IH. split; [intros ->; reflexivity | intros [= ->]; reflexivity].
    + split; [discriminate | intros [= E _]; congruence].
Qed.

Lemma remove_first_some ts s r :
  Py.remove_first ts s = Some r -> exists t, In t ts /\ s = t ++ r.
Proof.
  induction ts as [|t ts IH]; simpl; [discriminate|].
  destruct (Py.removeprefix t s) as [r'|] eqn:E.
  - intros [= ->]. apply removeprefix_spec in E. eauto.
  - intros H. destruct (IH H) as (t' & Ht' & Hs). eauto.
Qed.

Lemma remove_first_none ts s :
  Py.remove_first ts s = None <-> forall t, In t ts -> ~ begins_with t s.
Proof.
  induction ts as [|t ts IH]; simpl.
  - split; [intros _ t [] | reflexivity].
  - destruct (Py.removeprefix t s) as [r|] eqn:E.
    + split; [discriminate|]. intros H. exfalso. apply (H t); [left; reflexivity|].
      exists r. apply removeprefix_spec. exact E.
    + rewrite IH. split.
      * intros H t' [<-|Ht']; [|apply H; exact Ht'].
        intros (r & Hr). apply removeprefix_spec in Hr. congruence.
      * intros H t' Ht'. apply H. right. exact Ht'.
Qed.

Lemma lstrip_fuel_suffix ts n s : exists p, s = p ++ Py.lstrip_fuel ts n s.
Proof.
  revert s. induction n as [|n IH]; intros s; simpl.
  - exists EmptyString. reflexivity.
  - destruct (Py.remove_first ts s) as [r|] eqn:E.
    + apply remove_first_some in E as (t & _ & ->).
      destruct (IH r) as (p & Hp). exists (t ++ p).
      rewrite str_app_assoc. rewrite <- Hp. reflexivity.
    + exists EmptyString. reflexivity.
Qed.

Lemma lstrip_fuel_done ts n s :
  Forall (fun t => t <> EmptyString) ts -> String.length s <= n ->
  Py.remove_first ts (Py.lstrip_fuel ts n s) = None.
Proof.
  intros Hne. revert s. induction n as [|n IH]; intros s Hn; simpl.
  - destruct s; [|simpl in Hn; lia].
    apply remove_first_none. intros t Ht (r & Hr).
    rewrite List.Forall_forall in Hne. apply (Hne t Ht).
    destruct t; [reflexivity | discriminate].
  - destruct (Py.remove_first ts s) as [r|] eqn:E; [|exact E].
    apply IH. apply remove_first_some in E as (t & Ht & ->).
    rewrite List.Forall_forall in Hne. specialize (Hne t Ht).
    rewrite str_length_app in Hn. destruct t; [congruence|]. simpl in Hn. lia.
Qed.

Lemma lstrip_of_fixed ts s : Py.remove_first ts s = None -> Py.lstrip_of ts s = s.
Proof.
  intros H. unfold Py.lstrip_of. destruct (String.length s); simpl; [reflexivity|].
  rewrite H. reflexivity.
Qed.

Lemma str_rev_app a b : Py.rev (a ++ b) = Py.rev b ++ Py.rev a.
Proof.
  induction a as [|x a IH]; simpl.
  - rewrite str_app_nil_r. reflexivity.
  - rewrite IH, str_app_assoc. reflexivity.
Qed.

Lemma str_rev_involutive s : Py.rev (Py.rev s) = s.
Proof.
  induction s as [|x s IH]; simpl; [reflexivity|].
  rewrite str_rev_app, IH. reflexivity.
Qed.

Lemma str_rev_nonempty s : s <> EmptyString -> Py.rev s <> EmptyString.
Proof.
  intros Hs E. apply Hs. rewrite <- (str_rev_involutive s), E. reflexivity.
Qed.

Lemma rstrip_of_prefix ts s : exists q, s = Py.rstrip_of ts s ++ q.
Proof.
  unfold Py.rstrip_of, Py.lstrip_of.
  destruct (lstrip_fuel_suffix (map Py.rev ts) (String.length (Py.rev s)) (Py.rev s))
    as (p & Hp).
  exists (Py.rev p). rewrite <- str_rev_app, <- Hp. symmetry. apply str_rev_involutive.
Qed.

Lemma rstrip_of_done ts s t :
  Forall (fun t => t <> EmptyString) ts -> In t ts ->
  ~ finishes_with t (Py.rstrip_of ts s).
Proof.
  intros Hne Ht (r & Hr). unfold Py.rstrip_of, Py.lstrip_of in Hr.
  assert (Hne' : Forall (fun t => t <> EmptyString) (map Py.rev ts)).
  { apply List.Forall_forall. intros x Hx. apply in_map_iff in Hx as (y & <- & Hy).
    apply str_rev_nonempty. rewrite List.Forall_forall in Hne. apply Hne. exact Hy. }
  pose proof (lstrip_fuel_done (map Py.rev ts) _ (Py.rev s) Hne' (le_n _)) as Hd.
  rewrite remove_first_none in Hd. apply (Hd (Py.rev t)).
  - apply in_map. exact Ht.
  - exists (Py.rev r). rewrite <- str_rev_app, <- Hr. symmetry. apply str_rev_involutive.
Qed.

Lemma rstrip_of_fixed ts s :
  (forall t, In t ts -> ~ finishes_with t s) -> Py.rstrip_of ts s = s.
Proof.
  intros H. unfold Py.rstrip_of. rewrite lstrip_of_fixed; [apply str_rev_involutive|].
  apply remove_first_none. intros t Ht (r & Hr).
  apply in_map_iff in Ht as (t' & <- & Ht'). apply (H t' Ht').
  exists (Py.rev r). rewrite <- (str_rev_involutive s), Hr, str_rev_app, str_rev_involutive.
  reflexivity.
Qed.

Lemma whitespace_nonempty : Forall (fun t => t <> EmptyString) Py.whitespace.
Proof. unfold Py.whitespace. cbn. repeat constructor; discriminate. Qed.

Lemma strip_infix s : exists p q, s = p ++ Py.strip s ++ q.
Proof.
  unfold Py.strip, Py.lstrip_of at 1.
  destruct (lstrip_fuel_suffix Py.whitespace (String.length s) s) as (p & Hp).
  destruct (rstrip_of_prefix Py.whitespace (Py.lstrip_of Py.whitespace s)) as (q & Hq).
  exists p, q. unfold Py.lstrip_of in *. rewrite <- Hq. exact Hp.
Qed.

Lemma strip_trimmed s : trimmed (Py.strip s).
Proof.
  intros t Ht. split.
  - intros (r & Hr). unfold Py.strip in Hr.
    destruct (rstrip_of_prefix Py.whitespace (Py.lstrip_of Py.whitespace s)) as (q & Hq).
    pose proof (lstrip_fuel_done Py.whitespace _ s whitespace_nonempty (le_n _)) as Hd.
    rewrite remove_first_none in Hd. apply (Hd t Ht).
    exists (r ++ q). fold (Py.lstrip_of Py.whitespace s). rewrite Hq, Hr.
    apply str_app_assoc.
  - apply rstrip_of_done; [apply whitespace_nonempty | exact Ht].
Qed.

Lemma strip_fixed c : trimmed c -> Py.strip c = c.
Proof.
  intros H. unfold Py.strip. rewrite lstrip_of_fixed.
  - apply rstrip_of_fixed. intros t Ht. apply (H t Ht).
  - apply remove_first_none. intros t Ht. apply (H t Ht).
Qed.

Lemma split_nonempty c s : Py.split c s <> [].
Proof.
  destruct s as [|a s]; simpl; [discriminate|].
  destruct (Ascii.eqb a c); [discriminate|].
  destruct (Py.split c s); discriminate.
Qed.

Lemma split_app_sep c a b :
  Py.split c (a ++ String c b) = (Py.split c a ++ Py.split c b)%list.
Proof.
  induction a as [|x a IH]; simpl.
  - rewrite Ascii.eqb_refl. reflexivity.
  - destruct (Ascii.eqb x c); rewrite IH; [reflexivity|].
    destruct (Py.split c a) as [|p ps] eqn:E; [|reflexivity].
    exfalso. exact (split_nonempty c a E).
Qed.

Lemma split_no_sep c s : Str.count c s = 0 -> Py.split c s = [s].
Proof.
  induction s as [|a s IH]; simpl; [reflexivity|].
  destruct (Ascii.eqb a c); [discriminate|]. simpl. intros H. rewrite (IH H). reflexivity.
Qed.

Lemma split_pieces c s : Forall (fun p => Str.count c p = 0) (Py.split c s).
Proof.
  induction s as [|a s IH]; simpl.
  - repeat constructor.
  - destruct (Ascii.eqb a c) eqn:E.
    + constructor; [reflexivity | exact IH].
    + destruct (Py.split c s) as [|p ps]; [repeat constructor; simpl; rewrite E; reflexivity|].
      inversion IH as [|? ? Hp Hps]; subst. constructor; [|exact Hps].
      simpl. rewrite E. exact Hp.
Qed.

Lemma parse_collections_sep a b :
  parse_collections (a ++ "," ++ b) = (parse_collections a ++ parse_collections b)%list.
Proof.
  unfold parse_collections. simpl. rewrite split_app_sep, List.filter_app, map_app.
  reflexivity.
Qed.

Lemma parse_collections_single c :
  collection_name c -> parse_collections c = [c].
Proof.
  intros (Hne & Hcomma & Htrim). unfold parse_collections.
  rewrite (split_no_sep _ _ Hcomma). cbn [List.filter].
  rewrite (strip_fixed c Htrim). destruct c; [congruence|].
  cbn [Str.truthy map]. rewrite (strip_fixed _ Htrim). reflexivity.
Qed.

(** Every entry of the list of collections is a name: not empty, without a
    comma and without whitespace at either end, whatever the value of the
    variable. *)
Theorem parsed_collections_are_names (collections_env : string) :
  Forall collection_name (parse_collections collections_env).
Proof.
  unfold parse_collections. apply List.Forall_forall. intros c Hc.
  apply in_map_iff in Hc as (x & <- & Hx). apply filter_In in Hx as [Hx Ht].
  split; [|split].
  - destruct (Py.strip x); [discriminate Ht | discriminate].
  - pose proof (split_pieces "," collections_env) as Hp.
    rewrite List.Forall_forall in Hp. specialize (Hp x Hx).
    destruct (strip_infix x) as (p & q & E). rewrite E in Hp.
    rewrite !count_app in Hp. lia.
  - apply strip_trimmed.
Qed.

(** The value [a,b] gives the entries of [a] followed by the entries of
    [b]: the list keeps the order of the variable, and a blank between two
    commas adds nothing. *)
Theorem collections_of_a_comma_separated_value (a b : string) :
  parse_collections (a ++ "," ++ b) = (parse_collections a ++ parse_collections b)%list
  /\ parse_collections ("," ++ b) = parse_collections b
  /\ parse_collections (a ++ ",") = parse_collections a.
Proof.
  split; [apply parse_collections_sep|]. split.
  - apply (parse_collections_sep EmptyString b).
  - pose proof (parse_collections_sep a EmptyString) as H. simpl in H.
    rewrite H. apply app_nil_r.
Qed.

(** Names joined by commas are read back as they were. *)
Theorem collections_round_trip (names : list string) :
  Forall collection_name names ->
  parse_collections (String.concat "," names) = names.
Proof.
  induction names as [|c l IH]; intros H; [reflexivity|].
  inversion H as [|? ? Hc Hl]; subst. specialize (IH Hl).
  destruct l as [|c' l'].
  - simpl. apply parse_collections_single. exact Hc.
  - change (String.concat "," (c :: c' :: l'))
      with (c ++ "," ++ String.concat "," (c' :: l')).
    rewrite parse_collections_sep, IH, (parse_collections_single c Hc). reflexivity.
Qed.

Lemma collections_round_trip_witness :
  parse_collections "users,order items" = ["users"; "order items"].
Proof.
  apply (collections_round_trip ["users"; "order items"]).
  assert (Hws : forall c, Py.remove_first Py.whitespace c = None ->
                  Py.remove_first (map Py.rev Py.whitespace) (Py.rev c) = None ->
                  trimmed c).
  { intros c H1 H2 t Ht. split.
    - revert t Ht. apply remove_first_none. exact H1.
    - intros (r & Hr). rewrite remove_first_none in H2. apply (H2 (Py.rev t)).
      + apply in_map. exact Ht.
      + exists (Py.rev r). rewrite Hr. apply str_rev_app. }
  assert (Hname : forall c, c <> EmptyString -> Str.count "," c = 0 ->
                    Py.remove_first Py.whitespace c = None ->
                    Py.remove_first (map Py.rev Py.whitespace) (Py.rev c) = None ->
                    collection_name c).
  { intros c H0 H1 H2 H3. split; [exact H0|]. split; [exact H1|]. apply Hws; assumption. }
  apply List.Forall_cons; [apply Hname; [discriminate|reflexivity..]|].
  apply List.Forall_cons; [apply Hname; [discriminate|reflexivity..]|].
  apply List.Forall_nil.
Defined.

(** ** The connection string *)

Lemma mongo_uri_moves_at cfg x :
  Str.truthy (MONGO_USER cfg) = true -> Str.truthy (MONGO_PASSWORD cfg) = true ->
  mongo_uri (with_password cfg (MONGO_PASSWORD cfg ++ "@" ++ x))
  = mongo_uri (with_host cfg (x ++ "@" ++ MONGO_HOST cfg)).
Proof.
  intros Hu Hp. unfold mongo_uri, with_password, with_host.
  cbn [MONGO_USER MONGO_PASSWORD MONGO_HOST MONGO_PORT MONGO_AUTH_DB].
  rewrite Hu, Hp. destruct (MONGO_PASSWORD cfg) as [|a p]; [discriminate|].
  cbn [Str.truthy String.append andb].
  rewrite !str_app_assoc. reflexivity.
Qed.

(** The user and the password go into the connection string as they are:
    with a password that holds an [@], the client is built from the string
    of another host, the one whose name starts with what follows the [@]. *)
Theorem credentials_are_not_escaped (cfg : config) (x : string) (st : state) :
  MONGO_USER cfg <> EmptyString -> MONGO_PASSWORD cfg <> EmptyString ->
  get_client (with_password cfg (MONGO_PASSWORD cfg ++ "@" ++ x)) st
  = get_client (with_host cfg (x ++ "@" ++ MONGO_HOST cfg)) st.
Proof.
  intros Hu Hp. unfold get_client. cbv zeta.
  rewrite mongo_uri_moves_at; [reflexivity| |].
  - destruct (MONGO_USER cfg); [congruence | reflexivity].
  - destruct (MONGO_PASSWORD cfg); [congruence | reflexivity].
Qed.

Lemma credentials_are_not_escaped_witness :
  get_client (with_password auth_cfg "p@evil.example") fresh
  = get_client (with_host auth_cfg "evil.example@db.example") fresh.
Proof.
  exact (credentials_are_not_escaped auth_cfg "evil.example" fresh
           ltac:(discriminate) ltac:(discriminate)).
Defined.

(** ** The timestamp and the keys of different runs *)

Lemma mod10_lt n : (n mod 10 < 10)%N.
Proof. apply N.mod_upper_bound. discriminate. Qed.

Lemma digit_code n : N_of_ascii (Datetime.digit n) = (48 + n mod 10)%N.
Proof.
  unfold Datetime.digit. apply N_ascii_embedding.
  pose proof (mod10_lt n) as H. revert H. generalize (n mod 10)%N. intros k H. lia.
Qed.

Lemma digit_not_slash n : Ascii.eqb (Datetime.digit n) "/" = false.
Proof.
  destruct (Ascii.eqb_spec (Datetime.digit n) "/") as [E|]; [|reflexivity].
  apply (f_equal N_of_ascii) in E. rewrite digit_code in E.
  change (N_of_ascii "/") with 47%N in E. exfalso.
  revert E. generalize (n mod 10)%N. intros k E. lia.
Qed.

Lemma digit_inj a b : Datetime.digit a = Datetime.digit b -> (a mod 10 = b mod 10)%N.
Proof.
  intros E. apply (f_equal N_of_ascii) in E. rewrite !digit_code in E.
  apply N.add_cancel_l in E. exact E.
Qed.

(** A number is its tens and its units. *)
Lemma tens_units a : (a = 10 * (a / 10) + a mod 10)%N.
Proof. apply N.div_mod. discriminate. Qed.

Lemma div10_lt a k : (a < 10 * k)%N -> (a / 10 < k)%N.
Proof. intros H. apply N.Div0.div_lt_upper_bound. exact H. Qed.

Lemma two_digits_inj a b :
  (a < 100)%N -> (b < 100)%N -> Datetime.two_digits a = Datetime.two_digits b -> a = b.
Proof.
  intros Ha Hb [= E1 E2]. apply digit_inj in E1, E2.
  rewrite (N.mod_small (a / 10) 10) in E1 by (apply div10_lt; exact Ha).
  rewrite (N.mod_small (b / 10) 10) in E1 by (apply div10_lt; exact Hb).
  rewrite (tens_units a), (tens_units b), E1, E2. reflexivity.
Qed.

Lemma div_div_10 a : (a / 100 = a / 10 / 10)%N.
Proof. rewrite N.Div0.div_div. reflexivity. Qed.

Lemma div_div_100 a : (a / 1000 = a / 10 / 10 / 10)%N.
Proof. rewrite !N.Div0.div_div. reflexivity. Qed.

Lemma four_digits_inj a b :
  (a < 10000)%N -> (b < 10000)%N ->
  Datetime.four_digits a = Datetime.four_digits b -> a = b.
Proof.
  intros Ha Hb [= E1 E2 E3 E4]. apply digit_inj in E1, E2, E3, E4.
  rewrite !div_div_100 in E1. rewrite !div_div_10 in E2.
  assert (Ha1 : (a / 10 < 1000)%N) by (apply div10_lt; exact Ha).
  assert (Hb1 : (b / 10 < 1000)%N) by (apply div10_lt; exact Hb).
  assert (Ha2 : (a / 10 / 10 < 100)%N) by (apply div10_lt; exact Ha1).
  assert (Hb2 : (b / 10 / 10 < 100)%N) by (apply div10_lt; exact Hb1).
  assert (Ha3 : (a / 10 / 10 / 10 < 10)%N) by (apply div10_lt; exact Ha2).
  assert (Hb3 : (b / 10 / 10 / 10 < 10)%N) by (apply div10_lt; exact Hb2).
  rewrite (N.mod_small _ 10 Ha3), (N.mod_small _ 10 Hb3) in E1.
  assert (E2' : (a / 10 / 10 = b / 10 / 10)%N).
  { rewrite (tens_units (a / 10 / 10)), (tens_units (b / 10 / 10)), E1, E2. reflexivity. }
  assert (E3' : (a / 10 = b / 10)%N).
  { rewrite (tens_units (a / 10)), (tens_units (b / 10)), E2', E3. reflexivity. }
  rewrite (tens_units a), (tens_units b), E3', E4. reflexivity.
Qed.

Lemma strftime_length d : String.length (Datetime.strftime d) = 16.
Proof. reflexivity. Qed.

Lemma count_cons c a s :
  Str.count c (String a s) = (if Ascii.eqb a c then 1 else 0) + Str.count c s.
Proof. reflexivity. Qed.

Lemma strftime_slash_free d : slash_free (Datetime.strftime d).
Proof.
  unfold slash_free, Datetime.strftime, Datetime.four_digits, Datetime.two_digits.
  cbn [String.append]. rewrite !count_cons, !digit_not_slash. reflexivity.
Qed.

Lemma strftime_inj d1 d2 :
  moment d1 -> moment d2 -> Datetime.strftime d1 = Datetime.strftime d2 -> d1 = d2.
Proof.
  destruct d1 as [y1 m1 a1 h1 i1 s1], d2 as [y2 m2 a2 h2 i2 s2].
  unfold moment. cbn [Datetime.year Datetime.month Datetime.day Datetime.hour
                      Datetime.minute Datetime.second].
  intros (Hy1 & Hm1 & Ha1 & Hh1 & Hi1 & Hs1) (Hy2 & Hm2 & Ha2 & Hh2 & Hi2 & Hs2) E.
  unfold Datetime.strftime in E.
  cbn [Datetime.year Datetime.month Datetime.day Datetime.hour
       Datetime.minute Datetime.second] in E.
  assert (Hsplit2 : forall a b x y, Datetime.two_digits a ++ x = Datetime.two_digits b ++ y ->
            Datetime.two_digits a = Datetime.two_digits b /\ x = y).
  { intros a b x y [= H1 H2 H3]. unfold Datetime.two_digits. split; congruence. }
  assert (Hsplit4 : forall a b x y, Datetime.four_digits a ++ x = Datetime.four_digits b ++ y ->
            Datetime.four_digits a = Datetime.four_digits b /\ x = y).
  { intros a b x y [= H1 H2 H3 H4 H5].
    unfold Datetime.four_digits, Datetime.two_digits. split; congruence. }
  apply Hsplit4 in E as [Ey E]. apply Hsplit2 in E as [Em E]. apply Hsplit2 in E as [Ea E].
  apply str_app_inv_head in E. apply Hsplit2 in E as [Eh E]. apply Hsplit2 in E as [Ei E].
  apply Hsplit2 in E as [Es _].
  apply four_digits_inj in Ey; [|lia..].
  apply two_digits_inj in Em, Ea, Eh, Ei, Es; [|lia..].
  congruence.
Qed.

Lemma str_app_inv_length (a b x y : string) :
  a ++ x = b ++ y -> String.length x = String.length y -> a = b /\ x = y.
Proof.
  revert b. induction a as [|c a IH]; intros [|e b]; simpl; intros H Hl.
  - auto.
  - exfalso. apply (f_equal String.length) in H. simpl in H.
    rewrite str_length_app in H. lia.
  - exfalso. apply (f_equal String.length) in H. simpl in H.
    rewrite str_length_app in H. lia.
  - injection H as -> H. destruct (IH b H Hl) as [-> ->]. auto.
Qed.

Lemma load_config_fields py_int env utcnow cfg :
  load_config py_int env utcnow = Some cfg ->
  MONGO_DB cfg = getenv env "MONGO_DB" EmptyString
  /\ COLLECTIONS cfg = parse_collections (getenv env "COLLECTIONS" EmptyString)
  /\ S3_BUCKET cfg = getenv env "S3_BUCKET" EmptyString
  /\ S3_PREFIX cfg = getenv env "S3_PREFIX" EmptyString
  /\ TIMESTAMP cfg = Datetime.strftime utcnow.
Proof.
  unfold load_config. destruct (py_int _); [|discriminate].
  intros [= <-]. repeat split; reflexivity.
Qed.

(** The timestamp of a run names its second: two moments with the same
    timestamp are the same. *)
Theorem timestamp_identifies_the_second (d1 d2 : Datetime.t) :
  moment d1 -> moment d2 -> Datetime.strftime d1 = Datetime.strftime d2 -> d1 = d2.
Proof. apply strftime_inj. Qed.

Lemma timestamp_identifies_the_second_witness :
  Datetime.mk 2024 1 2 3 4 5 = Datetime.mk 2024 1 2 3 4 5.
Proof.
  apply timestamp_identifies_the_second; [unfold moment; cbn; lia.. | reflexivity].
Defined.

(** Two runs with the same [S3_PREFIX] store two exports under the same
    key only when it is the same collection exported in the same second:
    no run overwrites the object of another collection or of another
    moment.  The collection names have no slash. *)
Theorem backups_never_share_a_key
    (py_int : string -> option Z) (env1 env2 : gmap string string)
    (d1 d2 : Datetime.t) (cfg1 cfg2 : config) (c1 c2 : string) :
  load_config py_int env1 d1 = Some cfg1 -> load_config py_int env2 d2 = Some cfg2 ->
  moment d1 -> moment d2 ->
  env1 !! "S3_PREFIX" = env2 !! "S3_PREFIX" ->
  slash_free c1 -> slash_free c2 ->
  key_of cfg1 c1 = key_of cfg2 c2 ->
  c1 = c2 /\ d1 = d2.
Proof.
  intros L1 L2 M1 M2 Hp Hc1 Hc2 Hk.
  apply load_config_fields in L1 as (_ & _ & _ & P1 & T1).
  apply load_config_fields in L2 as (_ & _ & _ & P2 & T2).
  assert (Hts1 : slash_free (TIMESTAMP cfg1)) by (rewrite T1; apply strftime_slash_free).
  assert (Hts2 : slash_free (TIMESTAMP cfg2)) by (rewrite T2; apply strftime_slash_free).
  unfold key_of in Hk.
  destruct (exported_file_key_aux cfg1 c1 (OUTPUT_DIR cfg1) (Some (S3_PREFIX cfg1)) Hc1 Hts1)
    as [_ K1].
  destruct (exported_file_key_aux cfg2 c2 (OUTPUT_DIR cfg2) (Some (S3_PREFIX cfg2)) Hc2 Hts2)
    as [_ K2].
  rewrite K1, K2 in Hk.
  assert (Hpre : S3_PREFIX cfg1 = S3_PREFIX cfg2).
  { rewrite P1, P2. unfold getenv. rewrite Hp. reflexivity. }
  rewrite Hpre in Hk.
  assert (Hn : ndjson_name cfg1 c1 = ndjson_name cfg2 c2).
  { destruct (S3_PREFIX cfg2) as [|a p]; [exact Hk|].
    apply str_app_inv_head in Hk. simpl in Hk. injection Hk as Hk. exact Hk. }
  unfold ndjson_name in Hn. rewrite T1, T2 in Hn.
  apply str_app_inv_length in Hn as [-> Hn].
  - split; [reflexivity|]. apply str_app_inv_head in Hn.
    apply str_app_inv_length in Hn as [Hn _]; [|reflexivity].
    apply strftime_inj; assumption.
  - rewrite !str_length_app, !strftime_length. reflexivity.
Qed.

Lemma backups_never_share_a_key_witness :
  "users" = "users" /\ demo_now = demo_now.
Proof.
  assert (L : exists cfg, load_config demo_int demo_env demo_now = Some cfg).
  { eexists. reflexivity. }
  destruct L as (cfg & L).
  apply (backups_never_share_a_key demo_int demo_env demo_env demo_now demo_now cfg cfg
           "users" "users" L L).
  - unfold moment, demo_now. cbn. lia.
  - unfold moment, demo_now. cbn. lia.
  - reflexivity.
  - reflexivity.
  - reflexivity.
  - reflexivity.
Defined.

(** ** The script from its environment *)

Lemma unset_getenv env name : unset env name <-> getenv env name EmptyString = EmptyString.
Proof.
  unfold unset, getenv. destruct (env !! name) as [v|]; simpl.
  - split; [intros [H|[= ->]]; [discriminate | reflexivity] | intros ->; auto].
  - split; auto.
Qed.

Lemma script_exit cfg w st code :
  (exists st', script cfg w st = (st', Exit code))
  <-> (exists st', main cfg w st = (st', Exit code)).
Proof.
  unfold script. destruct (main cfg w st) as [s1 r]. split.
  - intros (st' & [= _ ->]). eauto.
  - intros (st' & [= _ ->]). eauto.
Qed.

(** When [MONGO_PORT] reads as a number, the script ends with
    [sys.exit(1)] exactly when [MONGO_DB] or [S3_BUCKET] is absent or empty,
    or [COLLECTIONS] names no collection. *)
Theorem script_exits_1_iff_a_setting_is_missing
    (py_int : string -> option Z) (env : gmap string string) (utcnow : Datetime.t)
    (w : world) (st : state) (port : Z) :
  py_int (getenv env "MONGO_PORT" "27017") = Some port ->
  (exists st', program py_int env utcnow w st = (st', Exit 1))
  <-> (unset env "MONGO_DB"
       \/ parse_collections (getenv env "COLLECTIONS" EmptyString) = []
       \/ unset env "S3_BUCKET").
Proof.
  intros Hport. unfold program.
  destruct (load_config py_int env utcnow) as [cfg|] eqn:L.
  - destruct (load_config_fields _ _ _ _ L) as (Hdb & Hcoll & Hbk & _ & _).
    rewrite script_exit, !unset_getenv, <- Hdb, <- Hcoll, <- Hbk.
    split.
    + intros (st' & H).
      destruct (config_valid_dec cfg) as [Hbad|(H1 & H2 & H3)]; [exact Hbad|].
      exfalso. eapply main_valid_not_exit_1; eassumption.
    + apply main_invalid_config.
  - unfold load_config in L. rewrite Hport in L. discriminate.
Qed.

Lemma script_exits_1_iff_a_setting_is_missing_witness :
  exists st', program demo_int no_bucket_env demo_now empty_world fresh = (st', Exit 1).
Proof.
  apply (script_exits_1_iff_a_setting_is_missing demo_int no_bucket_env demo_now
           empty_world fresh 27017 eq_refl).
  right. right. left. reflexivity.
Defined.
